(** * DEMV (Debiaser for Multiple Variables): the sampler of [demv.py]

    A shallow embedding of [balance_set], [sample] and [DEMV.fit_transform]
    together with the part of Python, numpy and pandas they rely on:

    - Python floats are IEEE-754 binary64 numbers (Rocq's primitive floats),
      [int / int] is the correctly rounded quotient and raises on a zero
      divisor, [float / float] raises on a zero divisor;
    - a pandas [DataFrame] is a list of rows, each carrying its index label;
      [append] keeps the label of the appended row and [drop] removes every
      row that carries a dropped label;
    - exceptions are an [outcome]; the global numpy generator and the
      standard output are threaded through a state monad;
    - the [while] loop of [balance_set] runs on fuel, [Diverge] being the
      outcome of a run that needs more iterations than the fuel allows. *)

From Stdlib Require Import String.
From Stdlib Require Import ZArith List Bool Arith Lia Permutation Sorted.
From Stdlib Require Import Floats.PrimFloat Floats.SpecFloat Floats.FloatOps.
Import ListNotations.

(** ** Exceptions and outcomes *)

Inductive exn : Type :=
| ZeroDivisionError
| OverflowError
| ValueError
| KeyError
| IndexError.

Inductive outcome (A : Type) : Type :=
| Ok (a : A)
| Raise (e : exn)
| Diverge.

Arguments Ok {A} a.
Arguments Raise {A} e.
Arguments Diverge {A}.

Definition is_ok {A} (o : outcome A) : bool :=
  match o with Ok _ => true | _ => false end.

(** ** Python numbers *)

Module PyNum.

Local Open Scope Z_scope.

(** An integer as an (unrounded) binary number. *)
Definition Z2SF (z : Z) : spec_float :=
  match z with
  | Z0 => S754_zero false
  | Zpos p => S754_finite false p 0
  | Zneg p => S754_finite true p 0
  end.

(** The binary64 number nearest to [a / b], ties to even. *)
Definition nearest_quotient (a b : Z) : float :=
  SF2Prim (SFdiv prec emax (Z2SF a) (Z2SF b)).

(** [a / b] on Python ints (true division). *)
Definition int_truediv (a b : Z) : outcome float :=
  if b =? 0 then Raise ZeroDivisionError
  else
    let q := nearest_quotient a b in
    if is_infinity q then Raise OverflowError else Ok q.

(** [x / y] on Python floats. *)
Definition float_truediv (x y : float) : outcome float :=
  if PrimFloat.eqb y 0 then Raise ZeroDivisionError
  else Ok (PrimFloat.div x y).

(** Nearest integer to [num / den] ([den > 0]), ties to even. *)
Definition round_half_even (num den : Z) : Z :=
  let q := num / den in
  let r := num mod den in
  match (2 * r ?= den) with
  | Lt => q
  | Gt => q + 1
  | Eq => if Z.even q then q else q + 1
  end.

(** [round(x, ndigits)] on a float: the exact value of [x] is rounded to
    [ndigits] decimal places, ties to even, and the decimal result is
    converted back to the nearest float. *)
Definition py_round (x : float) (ndigits : Z) : outcome float :=
  match Prim2SF x with
  | S754_finite s m e =>
      if 323 <? ndigits then Ok x
      else if ndigits <? -308 then Ok (PrimFloat.mul 0 x)
      else
        let num := Zpos m * 2 ^ (Z.max e 0) * 10 ^ (Z.max ndigits 0) in
        let den := 2 ^ (Z.max (- e) 0) * 10 ^ (Z.max (- ndigits) 0) in
        let k := round_half_even num den in
        let sk := if s then - k else k in
        let r :=
          if k =? 0 then (if s then PrimFloat.opp 0 else 0%float)
          else if 0 <=? ndigits then nearest_quotient sk (10 ^ ndigits)
          else SF2Prim (binary_normalize prec emax (sk * 10 ^ (- ndigits)) 0 false) in
        if is_infinity r then Raise OverflowError else Ok r
  | _ => Ok x
  end.

End PyNum.
Export PyNum.

(** ** The part of pandas and numpy the sampler uses *)

Module Pandas.

(** A row of a frame: its index label and its cells, one per column. *)
Record Row : Type := mkRow { index : Z; cells : list Z }.

Record DataFrame : Type := mkDF { columns : list string; rows : list Row }.

(** [len(df)] *)
Definition len (df : DataFrame) : Z := Z.of_nat (length (rows df)).

Fixpoint column_position (s : string) (cols : list string) : option nat :=
  match cols with
  | [] => None
  | c :: cols' =>
      if String.eqb s c then Some O
      else option_map S (column_position s cols')
  end.

Definition cell (j : nat) (r : Row) : Z := nth j (cells r) 0%Z.

(** [d[s]] for a column name [s]: the column, or [KeyError]. *)
Definition getitem_col (d : DataFrame) (s : string) : outcome (list Z) :=
  match column_position s (columns d) with
  | Some j => Ok (map (cell j) (rows d))
  | None => Raise KeyError
  end.

(** [series == v] *)
Definition series_eq (col : list Z) (v : Z) : list bool :=
  map (fun x => Z.eqb x v) col.

(** The running condition of [sample]: Python's [True] at the root, a
    boolean series below. *)
Inductive condition : Type :=
| PyTrue
| Mask (m : list bool).

Fixpoint mask_and (m1 m2 : list bool) : list bool :=
  match m1, m2 with
  | b1 :: m1', b2 :: m2' => (b1 && b2) :: mask_and m1' m2'
  | _, _ => []
  end.

(** [cond & series]: [True & series] is the series. *)
Definition cond_and (c : condition) (m : list bool) : condition :=
  match c with
  | PyTrue => Mask m
  | Mask m0 => Mask (mask_and m0 m)
  end.

Fixpoint select (m : list bool) (rs : list Row) : list Row :=
  match m, rs with
  | b :: m', r :: rs' => if b then r :: select m' rs' else select m' rs'
  | _, _ => []
  end.

(** [d[cond]]: the selected rows for a boolean series. The scalar [True]
    is no boolean indexer: [d[True]] looks [True] up among the column
    names, which are strings here, and raises [KeyError]. *)
Definition getitem_mask (d : DataFrame) (c : condition) : outcome DataFrame :=
  match c with
  | PyTrue => Raise KeyError
  | Mask m => Ok (mkDF (columns d) (select m (rows d)))
  end.

Fixpoint insert_unique (x : Z) (l : list Z) : list Z :=
  match l with
  | [] => [x]
  | y :: l' =>
      if Z.ltb x y then x :: l
      else if Z.eqb x y then l
      else y :: insert_unique x l'
  end.

(** [np.unique(series)]: the distinct values in increasing order. *)
Definition np_unique (col : list Z) : list Z :=
  fold_right insert_unique [] col.

(** [df.append(one_row)]: the row is added at the end, with its label. *)
Definition df_append (df : DataFrame) (r : Row) : DataFrame :=
  mkDF (columns df) (rows df ++ [r]).

(** [df.drop(labels, axis=0)] for the label of one row: every row that
    carries the label goes. *)
Definition df_drop (df : DataFrame) (label : Z) : DataFrame :=
  mkDF (columns df) (filter (fun r => negb (Z.eqb (index r) label)) (rows df)).

(** [last.append(others)]: the rows of [last] followed by those of the
    frames of [others], in order. *)
Definition df_append_all (last : DataFrame) (others : list DataFrame) : DataFrame :=
  mkDF (columns last) (rows last ++ flat_map rows others).

(** Rows picked by position, in the order of [order]. *)
Definition take (order : list nat) (rs : list Row) : list Row :=
  flat_map (fun j => match nth_error rs j with Some r => [r] | None => [] end) order.

End Pandas.
Export Pandas.

(** ** State: the global numpy generator and the standard output *)

Record World : Type := mkWorld {
  stream : nat -> nat;      (* the draws the generator will produce *)
  cursor : nat;             (* how many draws have been consumed *)
  stdout : list float       (* what [print] has written *)
}.

Definition M (A : Type) : Type := World -> outcome A * World.

Definition ret {A} (a : A) : M A := fun w => (Ok a, w).

Definition bind {A B} (m : M A) (f : A -> M B) : M B :=
  fun w =>
    match m w with
    | (Ok a, w') => f a w'
    | (Raise e, w') => (Raise e, w')
    | (Diverge, w') => (Diverge, w')
    end.

Definition lift {A} (o : outcome A) : M A := fun w => (o, w).

Definition raise {A} (e : exn) : M A := lift (Raise e).

Definition diverge {A} : M A := lift Diverge.

Notation "x <- m ;; k" := (bind m (fun x => k))
  (at level 61, m at next level, right associativity).
Notation "' pat <- m ;; k" := (bind m (fun x => match x with pat => k end))
  (at level 61, pat pattern, m at next level, right associativity).

(** [print(x)] *)
Definition print (x : float) : M unit :=
  fun w => (Ok tt, mkWorld (stream w) (cursor w) (stdout w ++ [x])).

(** [df.sample()]: one row drawn uniformly from the frame with the global
    generator; an empty frame has nothing to draw from. *)
Definition df_sample (df : DataFrame) : M Row :=
  fun w =>
    match rows df with
    | [] => (Raise ValueError, w)
    | r0 :: _ =>
        let p := Nat.modulo (stream w (cursor w)) (length (rows df)) in
        (Ok (nth p (rows df) r0), mkWorld (stream w) (S (cursor w)) (stdout w))
    end.

(** Exceptions alone, for the steps that do not touch the state. *)
Definition obind {A B} (o : outcome A) (f : A -> outcome B) : outcome B :=
  match o with
  | Ok a => f a
  | Raise e => Raise e
  | Diverge => Diverge
  end.

Notation "x <~ o ;; k" := (obind o (fun x => k))
  (at level 61, o at next level, right associativity).

(** [for x in l: acc = f(acc, x)] *)
Fixpoint for_each {A B} (f : A -> B -> M A) (acc : A) (l : list B) : M A :=
  match l with
  | [] => ret acc
  | x :: l' => acc' <- f acc x ;; for_each f acc' l'
  end.

(** [l.pop()]: the last element and what is left of the list. *)
Definition pop {A} (l : list A) : option (A * list A) :=
  match rev l with
  | [] => None
  | x :: r => Some (x, rev r)
  end.

(** ** The program *)

Section Demv.

(** [seed2_order n]: the order in which [sample(frac=1, random_state=2)]
    returns the [n] rows of a frame (numpy's generator seeded with 2). *)
Variable seed2_order : nat -> list nat.

(** [df.sample(frac=1, random_state=2)] *)
Definition df_shuffle (df : DataFrame) : DataFrame :=
  mkDF (columns df) (take (seed2_order (length (rows df))) (rows df)).

(** [round(w_exp / w_obs, round_level) if round_level else w_exp / w_obs]:
    [None] and [0] are both false. *)
Definition compute_disp (w_exp w_obs : float) (round_level : option Z) : outcome float :=
  match round_level with
  | Some n =>
      if Z.eqb n 0 then float_truediv w_exp w_obs
      else r <~ float_truediv w_exp w_obs ;; py_round r n
  | None => float_truediv w_exp w_obs
  end.

(** Lines 10-13 of [balance_set]: one row more, or the sampled label less. *)
Definition resample (w_exp w_obs : float) (df : DataFrame) : M DataFrame :=
  ratio <- lift (float_truediv w_exp w_obs) ;;
  if PrimFloat.ltb 1 ratio then
    s <- df_sample df ;;
    ret (df_append df s)
  else
    ratio' <- lift (float_truediv w_exp w_obs) ;;
    if PrimFloat.ltb ratio' 1 then
      s <- df_sample df ;;
      ret (df_drop df (index s))
    else ret df.

(** The [while] loop of [balance_set]. *)
Fixpoint balance_loop (fuel : nat) (w_exp : float) (tot_df : DataFrame)
    (round_level : option Z) (debug : bool) (k : Z)
    (w_obs disp : float) (df : DataFrame) (disparity : list float) (i : nat)
    : M (DataFrame * list float * nat) :=
  if negb (PrimFloat.eqb disp 1) && negb (Z.eqb (Z.of_nat i) k) then
    match fuel with
    | O => diverge
    | S fuel' =>
        df' <- resample w_exp w_obs df ;;
        w_obs' <- lift (int_truediv (len df') (len tot_df)) ;;
        disp' <- lift (compute_disp w_exp w_obs' round_level) ;;
        _ <- (if debug
              then r <- lift (float_truediv w_exp w_obs') ;; print r
              else ret tt) ;;
        balance_loop fuel' w_exp tot_df round_level debug k
                     w_obs' disp' df' (disparity ++ [disp']) (S i)
    end
  else ret (df, disparity, i).

Definition balance_set (fuel : nat) (w_exp w_obs : float) (df tot_df : DataFrame)
    (round_level : option Z) (debug : bool) (k : Z)
    : M (DataFrame * list float * nat) :=
  disp <- lift (compute_disp w_exp w_obs round_level) ;;
  balance_loop fuel w_exp tot_df round_level debug k w_obs disp df [disp] 0.

(** What [sample] returns: the pair [G, iter], or the triple
    [DataFrame, disparities, iter]. *)
Inductive sample_result : Type :=
| Groups (G : list DataFrame) (iter : nat)
| Assembled (df : DataFrame) (disparities : list (list float)) (iter : nat).

(** [G1, k1 = ...] *)
Definition unpack2 (r : sample_result) : M (list DataFrame * nat) :=
  match r with
  | Groups G k => ret (G, k)
  | Assembled _ _ _ => raise ValueError
  end.

(** [df_new, disparities, iter = ...] *)
Definition unpack3 (r : sample_result) : M (DataFrame * list (list float) * nat) :=
  match r with
  | Groups _ _ => raise ValueError
  | Assembled df disparities k => ret (df, disparities, k)
  end.

(** Lines 31-33 of [sample]: the group of label [l] under [cond] and its
    two weights. *)
Definition cell_weights (d : DataFrame) (label : string) (cond : condition) (l : Z)
    : outcome (DataFrame * float * float) :=
  lab <~ getitem_col d label ;;
  g <~ getitem_mask d (cond_and cond (series_eq lab l)) ;;
  dc <~ getitem_mask d cond ;;
  p_cond <~ int_truediv (len dc) (len d) ;;
  lab' <~ getitem_col d label ;;
  dl <~ getitem_mask d (Mask (series_eq lab' l)) ;;
  p_label <~ int_truediv (len dl) (len d) ;;
  w_obs <~ int_truediv (len g) (len d) ;;
  Ok (g, PrimFloat.mul p_cond p_label, w_obs).

(** The body of the loop over the label values (lines 31-38). *)
Definition balance_cell (fuel : nat) (d : DataFrame) (label : string)
    (round_level : option Z) (debug : bool) (cond : condition) (stop : Z)
    (acc : list (list float) * list DataFrame * nat) (l : Z)
    : M (list (list float) * list DataFrame * nat) :=
  let '(disparities, G, iter) := acc in
  '(g, w_exp, w_obs) <- lift (cell_weights d label cond l) ;;
  '(g_new, disp, k) <- balance_set fuel w_exp w_obs g d round_level debug stop ;;
  ret (disparities ++ [disp], G ++ [g_new], Nat.max iter k).

(** [for s in s_vars: limit *= len(np.unique(d[s]))] *)
Fixpoint cardinality_limit (d : DataFrame) (s_vars : list string) (limit : nat)
    : outcome nat :=
  match s_vars with
  | [] => Ok limit
  | s :: s_vars' =>
      col <~ getitem_col d s ;;
      cardinality_limit d s_vars' (limit * length (np_unique col))
  end.

(** [G.pop().append([g for g in G]).sample(frac=1, random_state=2)] *)
Definition assemble (G : list DataFrame) : outcome DataFrame :=
  match pop G with
  | None => Raise IndexError
  | Some (last, G') => Ok (df_shuffle (df_append_all last G'))
  end.

(** [sample], by recursion on [rest], the attributes from position [i]
    on: [rest = s_vars[i:]]. *)
Fixpoint sample_from (rest : list string) (fuel : nat) (d : DataFrame)
    (s_vars : list string) (label : string) (round_level : option Z)
    (debug : bool) (i : nat) (G : list DataFrame) (cond : condition) (stop : Z)
    : M sample_result :=
  let n := length s_vars in
  let disparities : list (list float) := [] in
  let iter := O in
  if Nat.eqb i n then
    labels <- lift (getitem_col d label) ;;
    '(_, G', iter') <- for_each (balance_cell fuel d label round_level debug cond stop)
                                (disparities, G, iter) (np_unique labels) ;;
    ret (Groups G' iter')
  else
    match rest with
    | [] => raise IndexError
    | s :: rest' =>
        let i' := S i in
        col0 <- lift (getitem_col d s) ;;
        r1 <- sample_from rest' fuel d s_vars label round_level debug i' G
                          (cond_and cond (series_eq col0 0%Z)) stop ;;
        '(G1, k1) <- unpack2 r1 ;;
        col1 <- lift (getitem_col d s) ;;
        r2 <- sample_from rest' fuel d s_vars label round_level debug i' G
                          (cond_and cond (series_eq col1 1%Z)) stop ;;
        '(G2, k2) <- unpack2 r2 ;;
        let G' := (G ++ G1) ++ G2 in
        let iter' := Nat.max iter (Nat.max k1 k2) in
        limit <- lift (cardinality_limit d s_vars 1) ;;
        labels <- lift (getitem_col d label) ;;
        if Nat.eqb (length G') (limit * length (np_unique labels)) then
          df <- lift (assemble G') ;;
          ret (Assembled df disparities iter')
        else ret (Groups G' iter')
    end.

Definition sample (fuel : nat) (d : DataFrame) (s_vars : list string)
    (label : string) (round_level : option Z) (debug : bool) (i : nat)
    (G : list DataFrame) (cond : condition) (stop : Z) : M sample_result :=
  sample_from (skipn i s_vars) fuel d s_vars label round_level debug i G cond stop.

(** The class [DEMV]: its attributes, [disparities] being unset until
    [fit_transform] has run. *)
Record DEMV : Type := mkDEMV {
  round_level : option Z;
  debug : bool;
  stop : Z;
  iter : nat;
  disparities : option (list (list float))
}.

(** [DEMV(round_level, debug, stop)] *)
Definition DEMV_init (round_level : option Z) (debug : bool) (stop : Z) : DEMV :=
  mkDEMV round_level debug stop 0 None.

Definition fit_transform (fuel : nat) (self : DEMV) (dataset : DataFrame)
    (protected_attrs : list string) (label_name : string) : M (DataFrame * DEMV) :=
  r <- sample fuel dataset protected_attrs label_name
              (round_level self) (debug self) 0 [] PyTrue (stop self) ;;
  '(df_new, disparities, iter) <- unpack3 r ;;
  ret (df_new,
       mkDEMV (round_level self) (debug self) (stop self) iter (Some disparities)).

Definition get_iters (self : DEMV) : nat := iter self.

End Demv.

(** ** The split into features and labels ([utils.py]) *)

(** The cells of a row that stand under the columns satisfying [keep]. *)
Fixpoint cells_where (keep : string -> bool) (cols : list string) (cs : list Z)
    : list Z :=
  match cols, cs with
  | c :: cols', v :: cs' =>
      if keep c then v :: cells_where keep cols' cs' else cells_where keep cols' cs'
  | _, _ => []
  end.

(** [df.drop(label, axis=1).values]: the rows without the cells of the
    columns named [label]; [KeyError] when no column has that name. *)
Definition drop_values (df : DataFrame) (label : string) : outcome (list (list Z)) :=
  match column_position label (columns df) with
  | Some _ =>
      Ok (map (fun r => cells_where (fun c => negb (String.eqb label c))
                                    (columns df) (cells r))
              (rows df))
  | None => Raise KeyError
  end.

(** [df[label].values.ravel()]: the cells under the columns named [label],
    row after row. *)
Definition label_values (df : DataFrame) (label : string) : outcome (list Z) :=
  match column_position label (columns df) with
  | Some _ =>
      Ok (flat_map (fun r => cells_where (String.eqb label) (columns df) (cells r))
                   (rows df))
  | None => Raise KeyError
  end.

Definition _train_test_split (df_train df_test : DataFrame) (label : string)
    : outcome (list (list Z) * list (list Z) * list Z * list Z) :=
  x_train <~ drop_values df_train label ;;
  y_train <~ label_values df_train label ;;
  x_test <~ drop_values df_test label ;;
  y_test <~ label_values df_test label ;;
  Ok (x_train, x_test, y_train, y_test).


(** ** The vocabulary of the statements *)

(** How many rows of [rs] carry the label [l]. *)
Definition label_count (l : Z) (rs : list Row) : nat :=
  length (filter (fun r => Z.eqb (index r) l) rs).

(** [m] uses the state in one way only: it reads draws from the cursor on,
    one after the other, and appends to the output. It never moves the
    cursor back and leaves the stream of draws as it is; and on two states
    whose cursors are equal and whose draws agree for as long as [m] reads
    them, it gives the same outcome, reads as many draws and prints the
    same values. *)
Definition reads_forward {A} (m : M A) : Prop :=
  (forall w, cursor w <= cursor (snd (m w)) /\ stream (snd (m w)) = stream w) /\
  forall w1 w2,
    cursor w1 = cursor w2 ->
    (forall n, cursor w1 <= n < cursor (snd (m w1)) -> stream w1 n = stream w2 n) ->
    fst (m w1) = fst (m w2) /\
    cursor (snd (m w1)) = cursor (snd (m w2)) /\
    exists out, stdout (snd (m w1)) = stdout w1 ++ out /\
                stdout (snd (m w2)) = stdout w2 ++ out.

(** The value of column [s] in row [r] ([0] when there is no such column). *)
Definition value (d : DataFrame) (s : string) (r : Row) : Z :=
  match column_position s (columns d) with
  | Some j => cell j r
  | None => 0%Z
  end.

Definition column_values (d : DataFrame) (s : string) : list Z :=
  map (value d s) (rows d).

(** Row [r] has value [b_j] in the [j]-th protected attribute, for all [j]. *)
Definition in_combination (d : DataFrame) (attrs : list string) (bits : list Z)
    (r : Row) : bool :=
  forallb (fun sb => Z.eqb (value d (fst sb) r) (snd sb)) (combine attrs bits).

Definition has_label (d : DataFrame) (label : string) (l : Z) (r : Row) : bool :=
  Z.eqb (value d label r) l.

Definition in_cell (d : DataFrame) (attrs : list string) (bits : list Z)
    (label : string) (l : Z) (r : Row) : bool :=
  in_combination d attrs bits r && has_label d label l r.

(** Number of rows of [d] that satisfy [p]. *)
Definition count (p : Row -> bool) (d : DataFrame) : Z :=
  Z.of_nat (length (filter p (rows d))).

(** The condition [sample] has built when it has gone down the attributes
    [attrs] along the values [bits], starting from [cond]. *)
Definition path_cond (d : DataFrame) (attrs : list string) (bits : list Z)
    (cond : condition) : condition :=
  fold_left (fun c sb => cond_and c (series_eq (column_values d (fst sb)) (snd sb)))
            (combine attrs bits) cond.

(** The weights as the specification words them: row-count fractions of
    the whole dataset, the expected weight being the product of the two
    marginals. *)
Definition spec_cell_weights (d : DataFrame) (attrs : list string) (bits : list Z)
    (label : string) (l : Z) : outcome (DataFrame * float * float) :=
  p_cond <~ int_truediv (count (in_combination d attrs bits) d) (len d) ;;
  p_label <~ int_truediv (count (has_label d label l) d) (len d) ;;
  w_obs <~ int_truediv (count (in_cell d attrs bits label l) d) (len d) ;;
  Ok (mkDF (columns d) (filter (in_cell d attrs bits label l) (rows d)),
      PrimFloat.mul p_cond p_label, w_obs).

(** The combinations of values of [k] binary attributes, in the order in
    which the recursion visits them: value 0 first. *)
Fixpoint paths (k : nat) : list (list Z) :=
  match k with
  | O => [[]]
  | S k' => map (cons 0%Z) (paths k') ++ map (cons 1%Z) (paths k')
  end.

(** [np.unique(d[label])] *)
Definition labels_of (d : DataFrame) (label : string) : list Z :=
  np_unique (column_values d label).

(** The cells, one per combination and label value, in visiting order. *)
Definition cell_keys (d : DataFrame) (k : nat) (label : string) : list (list Z * Z) :=
  flat_map (fun bits => map (pair bits) (labels_of d label)) (paths k).

(** The base cases the recursion reaches from [cond] through the
    attributes [rest], each with the label values it loops over. *)
Fixpoint leaves (d : DataFrame) (label : string) (rest : list string)
    (cond : condition) : list (condition * Z) :=
  match rest with
  | [] => map (pair cond) (labels_of d label)
  | s :: rest' =>
      leaves d label rest' (cond_and cond (series_eq (column_values d s) 0%Z))
      ++ leaves d label rest' (cond_and cond (series_eq (column_values d s) 1%Z))
  end.

(** [gk] is what [balance_set] returned for the cell of label [l] under
    [cond]: the balanced group and the number of iterations. *)
Definition balanced (fuel : nat) (d : DataFrame) (label : string)
    (round_level : option Z) (debug : bool) (stop : Z)
    (cl : condition * Z) (gk : DataFrame * nat) : Prop :=
  exists g w_exp w_obs trace w1 w2,
    cell_weights d label (fst cl) (snd cl) = Ok (g, w_exp, w_obs) /\
    balance_set fuel w_exp w_obs g d round_level debug stop w1
      = (Ok (fst gk, trace, snd gk), w2).

(** The cell of a combination and a label value, as a frame. *)
Definition cell_frame (d : DataFrame) (attrs : list string) (label : string)
    (key : list Z * Z) : DataFrame :=
  mkDF (columns d) (filter (in_cell d attrs (fst key) label (snd key)) (rows d)).

(** [gk] is the outcome of balancing the cell [key] of the attributes
    [attrs], from the weights of the specification. *)
Definition balanced_cell (fuel : nat) (d : DataFrame) (label : string)
    (round_level : option Z) (debug : bool) (stop : Z)
    (attrs : list string) (key : list Z * Z)
    (gk : DataFrame * nat) : Prop :=
  exists w_exp w_obs trace w1 w2,
    spec_cell_weights d attrs (fst key) label (snd key)
      = Ok (cell_frame d attrs label key, w_exp, w_obs) /\
    balance_set fuel w_exp w_obs (cell_frame d attrs label key) d
                round_level debug stop w1
      = (Ok (fst gk, trace, snd gk), w2).

(** [len(np.unique(d[s]))] *)
Definition cardinality (d : DataFrame) (s : string) : nat :=
  length (np_unique (column_values d s)).

Definition product (l : list nat) : nat := fold_right Nat.mul 1 l.

(** [m] never needs more fuel than it was given. *)
Definition halts {A} (m : M A) : Prop := forall w, fst (m w) <> Diverge.

Definition settled {A} (o : outcome A) : Prop := o <> Diverge.

(** [m'] does what [m] does wherever [m] comes to an end. *)
Definition extends {A} (m m' : M A) : Prop :=
  forall w, fst (m w) <> Diverge -> m' w = m w.

(** The initial disparity of the cell of [cl] can be computed. *)
Definition disparity_defined (d : DataFrame) (label : string) (rl : option Z)
    (cl : condition * Z) : Prop :=
  exists g w_exp w_obs disp,
    cell_weights d label (fst cl) (snd cl) = Ok (g, w_exp, w_obs) /\
    compute_disp w_exp w_obs rl = Ok disp.

Definition is_cell (d : DataFrame) (label : string)
    (cl : condition * Z) (g : DataFrame) : Prop :=
  exists w_exp w_obs, cell_weights d label (fst cl) (snd cl) = Ok (g, w_exp, w_obs).

(** The initial disparity of the cell [key] can be computed: the cell has
    a row, so that its observed weight is not [0.0], and the ratio and its
    rounding are floats. *)
Definition cell_disparity_defined (d : DataFrame) (attrs : list string)
    (label : string) (rl : option Z) (key : list Z * Z) : Prop :=
  exists w_exp w_obs disp,
    spec_cell_weights d attrs (fst key) label (snd key)
      = Ok (cell_frame d attrs label key, w_exp, w_obs) /\
    compute_disp w_exp w_obs rl = Ok disp.

Definition all_cells_nonempty (d : DataFrame) (attrs : list string) (label : string) : bool :=
  forallb (fun key => match rows (cell_frame d attrs label key) with
                      | [] => false
                      | _ :: _ => true
                      end)
          (cell_keys d (length attrs) label).

(** [m] writes nothing to the standard output, whatever its outcome. *)
Definition silent {A} (m : M A) : Prop :=
  forall w, stdout (snd (m w)) = stdout w.

(** The initial disparity of the cell of [cl] is 1: nothing to balance. *)
Definition at_parity (d : DataFrame) (label : string) (rl : option Z)
    (cl : condition * Z) : Prop :=
  exists g w_exp w_obs disp,
    cell_weights d label (fst cl) (snd cl) = Ok (g, w_exp, w_obs) /\
    compute_disp w_exp w_obs rl = Ok disp /\
    PrimFloat.eqb disp 1 = true.

(** The same for the cell [key], from the weights of the specification. *)
Definition cell_at_parity (d : DataFrame) (attrs : list string)
    (label : string) (rl : option Z) (key : list Z * Z) : Prop :=
  exists w_exp w_obs disp,
    spec_cell_weights d attrs (fst key) label (snd key)
      = Ok (cell_frame d attrs label key, w_exp, w_obs) /\
    compute_disp w_exp w_obs rl = Ok disp /\
    PrimFloat.eqb disp 1 = true.

(** Every column the call reads is there. *)
Definition columns_present (d : DataFrame) (attrs : list string) (label : string) : Prop :=
  (exists j, column_position label (columns d) = Some j) /\
  forall s, In s attrs -> exists j, column_position s (columns d) = Some j.


(** Every row has one cell per column. *)
Definition well_formed (df : DataFrame) : Prop :=
  Forall (fun r => length (cells r) = length (columns df)) (rows df).

(** How many columns carry the name [label]. *)
Definition label_columns (df : DataFrame) (label : string) : nat :=
  length (filter (String.eqb label) (columns df)).

(** A row put together again: the cells [ys] under the columns marked in
    [mask], the cells [xs] under the others. *)
Fixpoint restore (mask : list bool) (xs ys : list Z) : list Z :=
  match mask with
  | [] => []
  | true :: mask' =>
      match ys with
      | y :: ys' => y :: restore mask' xs ys'
      | [] => []
      end
  | false :: mask' =>
      match xs with
      | x :: xs' => x :: restore mask' xs' ys
      | [] => []
      end
  end.


(** The first [m] pieces of [n] entries each of a flat vector. *)
Fixpoint chunks (n m : nat) (l : list Z) : list (list Z) :=
  match m with
  | O => []
  | S m' => firstn n l :: chunks n m' (skipn n l)
  end.

(** ** Example data *)

Open Scope string_scope.
Open Scope list_scope.

(** A dataset with the columns [A] (protected) and [Y] (label), its rows
    labelled 0, 1, 2, ... *)
Definition dataset_AY (rs : list (Z * Z)) : DataFrame :=
  mkDF ["A"; "Y"]
       (map (fun ir => mkRow (Z.of_nat (fst ir)) [fst (snd ir); snd (snd ir)])
            (combine (seq 0 (length rs)) rs)).

(** Eight rows, four per attribute value and four per label; the cells
    have 1, 3, 3 and 1 rows, and each is expected to have 2. *)
Definition d8 : DataFrame :=
  dataset_AY [(0,0); (0,1); (0,1); (0,1); (1,0); (1,0); (1,0); (1,1)]%Z.

(** Ten rows, five per attribute value and five per label; the cells have
    2, 3, 3 and 2 rows, and each is expected to have 2.5. *)
Definition d10 : DataFrame :=
  dataset_AY [(0,0); (0,0); (0,1); (0,1); (0,1); (1,0); (1,0); (1,0); (1,1); (1,1)]%Z.

(** Six rows whose attribute takes the three values 0, 1 and 2. *)
Definition d6 : DataFrame :=
  dataset_AY [(0,0); (0,0); (0,1); (1,0); (1,1); (2,1)]%Z.

(** No row at all. *)
Definition d0 : DataFrame := dataset_AY [].


(** Four rows, one per cell: every cell has its expected share. *)
Definition d4 : DataFrame := dataset_AY [(0,0); (0,1); (1,0); (1,1)]%Z.

(** The cell (A=0, Y=0) of [d10]. *)
Definition g10 : DataFrame := mkDF ["A"; "Y"] [mkRow 0 [0; 0]; mkRow 1 [0; 0]]%Z.

(** A dataset without the column [A]. *)
Definition dY : DataFrame := mkDF ["Y"] [mkRow 0 [0]; mkRow 1 [1]]%Z.


(** A generator that always draws position 0, and nothing printed yet. *)
Definition w0 : World := mkWorld (fun _ => 0) 0 [].

(** A shuffle: the rows in reverse order. *)
Definition reversed (n : nat) : list nat := rev (seq 0 n).

(** A generator whose first four draws are those of [w0] and whose later
    draws are not, with something printed already. *)
Definition w4 : World := mkWorld (fun n => if Nat.ltb n 4 then 0 else n) 0 [0.5%float].

(** A generator that always draws position 1. *)
Definition w_ones : World := mkWorld (fun _ => 1) 0 [].


(** [d8] after balancing without cap and without rounding, as shuffled by
    [reversed]. *)
Definition d8_balanced : DataFrame :=
  mkDF ["A"; "Y"]
       [mkRow 6 [1; 0]; mkRow 5 [1; 0]; mkRow 3 [0; 1]; mkRow 2 [0; 1];
        mkRow 0 [0; 0]; mkRow 0 [0; 0]; mkRow 7 [1; 1]; mkRow 7 [1; 1]]%Z.

(** ** Reasoning about the monads *)

Lemma obind_ok {A B} (o : outcome A) (f : A -> outcome B) (b : B) :
  obind o f = Ok b -> exists a, o = Ok a /\ f a = Ok b.
Proof.
  destruct o as [a | e | ]; simpl; intros H; try discriminate.
  exists a; split; [reflexivity | assumption].
Qed.

Lemma bind_ok {A B} (m : M A) (f : A -> M B) (w w' : World) (b : B) :
  bind m f w = (Ok b, w') ->
  exists a w1, m w = (Ok a, w1) /\ f a w1 = (Ok b, w').
Proof.
  unfold bind. destruct (m w) as [[a | e | ] w1]; intros H; try discriminate.
  exists a, w1. split; [reflexivity | assumption].
Qed.

Lemma lift_ok {A} (o : outcome A) (w w' : World) (a : A) :
  lift o w = (Ok a, w') -> o = Ok a /\ w' = w.
Proof. unfold lift. intros H. inversion H. split; reflexivity. Qed.

Lemma ret_ok {A} (a b : A) (w w' : World) :
  ret a w = (Ok b, w') -> b = a /\ w' = w.
Proof. unfold ret. intros H. inversion H. split; reflexivity. Qed.

(** Peel one successful step off a monadic run. *)
Tactic Notation "step_ok" hyp(H) "as" ident(a) ident(w1) ident(H1) :=
  apply bind_ok in H; destruct H as (a & w1 & H1 & H).

(** A successful step that does not touch the state. *)
Tactic Notation "pure_ok" hyp(H) "as" ident(a) ident(H1) :=
  let w1 := fresh "w" in
  let E := fresh "E" in
  apply bind_ok in H; destruct H as (a & w1 & H1 & H);
  apply lift_ok in H1; destruct H1 as [H1 E]; subst w1.

(** ** The Group Balancer stops only on disparity 1 when uncapped *)

Section BalanceSet.

Variables (w_exp : float) (tot_df : DataFrame) (round_level : option Z)
          (debug : bool) (k : Z).

Lemma balance_loop_exit (fuel : nat) :
  forall w_obs disp df pre i w df' trace i' w',
    (k < 0)%Z ->
    compute_disp w_exp w_obs round_level = Ok disp ->
    balance_loop fuel w_exp tot_df round_level debug k w_obs disp df
                 (pre ++ [disp]) i w = (Ok (df', trace, i'), w') ->
    exists pre' d,
      trace = pre' ++ [d] /\ PrimFloat.eqb d 1 = true /\
      (int_truediv (len df) (len tot_df) = Ok w_obs ->
       exists w_obs', int_truediv (len df') (len tot_df) = Ok w_obs' /\
                      compute_disp w_exp w_obs' round_level = Ok d).
Proof.
  induction fuel as [| fuel IH]; intros w_obs disp df pre i w df' trace i' w' Hk Hd Hrun;
    simpl in Hrun.
  - destruct (PrimFloat.eqb disp 1) eqn:E1; simpl in Hrun.
    + apply ret_ok in Hrun. destruct Hrun as [Hr _]. inversion Hr; subst.
      exists pre, disp. repeat split; try assumption.
      intros Hw. exists w_obs. split; assumption.
    + assert (Z.eqb (Z.of_nat i) k = false) as E2 by (apply Z.eqb_neq; lia).
      rewrite E2 in Hrun. simpl in Hrun. discriminate.
  - destruct (PrimFloat.eqb disp 1) eqn:E1; simpl in Hrun.
    + apply ret_ok in Hrun. destruct Hrun as [Hr _]. inversion Hr; subst.
      exists pre, disp. repeat split; try assumption.
      intros Hw. exists w_obs. split; assumption.
    + assert (Z.eqb (Z.of_nat i) k = false) as E2 by (apply Z.eqb_neq; lia).
      rewrite E2 in Hrun. simpl in Hrun.
      step_ok Hrun as df1 w1 Hres.
      pure_ok Hrun as w_obs1 Hobs.
      pure_ok Hrun as disp1 Hdisp.
      step_ok Hrun as u w2 Hprint.
      destruct (IH _ _ _ (pre ++ [disp]) _ _ _ _ _ _ Hk Hdisp Hrun) as (pre' & d & Ht & Hd1 & Hw).
      exists pre', d. repeat split; try assumption.
      intros _. apply Hw. assumption.
Qed.

End BalanceSet.

(** C1. With the cap disabled (stop = -1), whenever [balance_set] returns,
    the last disparity of its trace equals 1; that disparity is the one
    computed (rounded when a tolerance is set, the plain ratio otherwise)
    from the observed weight [len(returned group) / len(tot_df)], as soon as
    the observed weight handed in was [len(group) / len(tot_df)]. *)
Theorem balance_set_unbounded_converged
    (fuel : nat) (w_exp w_obs : float) (df tot_df : DataFrame)
    (round_level : option Z) (debug : bool) (w w' : World)
    (df' : DataFrame) (trace : list float) (i : nat) :
  balance_set fuel w_exp w_obs df tot_df round_level debug (-1) w
    = (Ok (df', trace, i), w') ->
  exists pre d,
    trace = pre ++ [d] /\ PrimFloat.eqb d 1 = true /\
    (int_truediv (len df) (len tot_df) = Ok w_obs ->
     exists w_obs', int_truediv (len df') (len tot_df) = Ok w_obs' /\
                    compute_disp w_exp w_obs' round_level = Ok d).
Proof.
  unfold balance_set. intros Hrun.
  pure_ok Hrun as disp Hdisp.
  apply (balance_loop_exit w_exp tot_df round_level debug (-1) fuel w_obs disp df []) in Hrun;
    [assumption | lia | assumption].
Qed.

(** ** One step of the balancer: what [append] and [drop] do to the size *)

Lemma df_sample_ok (df : DataFrame) (w w' : World) (r : Row) :
  df_sample df w = (Ok r, w') ->
  In r (rows df) /\ cursor w' = S (cursor w) /\
  stream w' = stream w /\ stdout w' = stdout w.
Proof.
  unfold df_sample. destruct (rows df) as [| r0 rs] eqn:E; intros H; [discriminate |].
  remember (nth _ (r0 :: rs) r0) as x eqn:Ex in H.
  injection H as <- <-.
  split; [| split; [| split]]; try reflexivity.
  rewrite Ex. apply nth_In. apply Nat.mod_upper_bound. discriminate.
Qed.

Lemma label_count_pos (r : Row) (rs : list Row) :
  In r rs -> 1 <= label_count (index r) rs.
Proof.
  unfold label_count. induction rs as [| x rs IH]; simpl; intros H; [contradiction |].
  destruct H as [-> | H].
  - rewrite Z.eqb_refl. simpl. lia.
  - destruct (Z.eqb (index x) (index r)); simpl; specialize (IH H); lia.
Qed.

Lemma df_drop_length (df : DataFrame) (l : Z) :
  length (rows (df_drop df l)) + label_count l (rows df) = length (rows df).
Proof.
  unfold df_drop, label_count. simpl.
  induction (rows df) as [| x rs IH]; simpl; [reflexivity |].
  destruct (Z.eqb (index x) l); simpl; lia.
Qed.

(** The oversampling branch adds exactly one row. *)
Lemma resample_oversample (w_exp w_obs ratio : float) (df df' : DataFrame) (w w' : World) :
  float_truediv w_exp w_obs = Ok ratio ->
  PrimFloat.ltb 1 ratio = true ->
  resample w_exp w_obs df w = (Ok df', w') ->
  length (rows df') = S (length (rows df)).
Proof.
  intros Hr Hgt Hrun. unfold resample in Hrun.
  pure_ok Hrun as r0 Hr0. rewrite Hr in Hr0. inversion Hr0; subst r0.
  rewrite Hgt in Hrun.
  step_ok Hrun as s w1 Hs. apply ret_ok in Hrun. destruct Hrun as [-> _].
  unfold df_append. simpl. rewrite length_app. simpl. lia.
Qed.

(** The undersampling branch removes every row that carries the label of
    the sampled row: at least one row, and more when the label is shared. *)
Lemma resample_undersample (w_exp w_obs ratio : float) (df df' : DataFrame) (w w' : World) :
  float_truediv w_exp w_obs = Ok ratio ->
  PrimFloat.ltb 1 ratio = false ->
  PrimFloat.ltb ratio 1 = true ->
  resample w_exp w_obs df w = (Ok df', w') ->
  exists s, In s (rows df) /\
            length (rows df') + label_count (index s) (rows df) = length (rows df) /\
            1 <= label_count (index s) (rows df).
Proof.
  intros Hr Hgt Hlt Hrun. unfold resample in Hrun.
  pure_ok Hrun as r0 Hr0. rewrite Hr in Hr0. inversion Hr0; subst r0.
  rewrite Hgt in Hrun.
  pure_ok Hrun as r1 Hr1. rewrite Hr in Hr1. inversion Hr1; subst r1.
  rewrite Hlt in Hrun.
  step_ok Hrun as s w1 Hs. apply ret_ok in Hrun. destruct Hrun as [-> _].
  apply df_sample_ok in Hs. destruct Hs as (Hin & _).
  exists s. split; [assumption |]. split.
  - apply df_drop_length.
  - apply label_count_pos. assumption.
Qed.

(** With pairwise distinct index labels the undersampling branch removes
    exactly one row. *)
Lemma resample_undersample_unique (w_exp w_obs ratio : float) (df df' : DataFrame)
    (w w' : World) :
  NoDup (map index (rows df)) ->
  float_truediv w_exp w_obs = Ok ratio ->
  PrimFloat.ltb 1 ratio = false ->
  PrimFloat.ltb ratio 1 = true ->
  resample w_exp w_obs df w = (Ok df', w') ->
  S (length (rows df')) = length (rows df).
Proof.
  intros Hnd Hr Hgt Hlt Hrun.
  destruct (resample_undersample _ _ _ _ _ _ _ Hr Hgt Hlt Hrun) as (s & Hin & Hlen & Hpos).
  assert (Hone : label_count (index s) (rows df) <= 1).
  { clear - Hnd. unfold label_count.
    induction (rows df) as [| r rs IH]; simpl; [lia |].
    inversion Hnd as [| ? ? Hnotin Hnd']; subst.
    destruct (Z.eqb (index r) (index s)) eqn:E; [| apply IH; assumption].
    apply Z.eqb_eq in E. simpl.
    assert (filter (fun r0 => Z.eqb (index r0) (index s)) rs = []) as ->; [| simpl; lia].
    clear - Hnotin E. induction rs as [| x rs IH]; simpl; [reflexivity |].
    destruct (Z.eqb (index x) (index s)) eqn:Ex.
    - apply Z.eqb_eq in Ex. exfalso. apply Hnotin. simpl. left. congruence.
    - apply IH. intros H. apply Hnotin. right. assumption. }
  lia.
Qed.

(** ** What [sample] hands back to [fit_transform] *)

Lemma insert_unique_not_nil (x : Z) (l : list Z) : insert_unique x l <> [].
Proof.
  destruct l as [| y l]; simpl; [discriminate |].
  destruct (Z.ltb x y); [discriminate |].
  destruct (Z.eqb x y); discriminate.
Qed.

Lemma np_unique_nil (col : list Z) : np_unique col = [] -> col = [].
Proof.
  destruct col as [| x col]; [reflexivity |]. simpl. intros H.
  exfalso. exact (insert_unique_not_nil _ _ H).
Qed.

Section Results.

Variable seed2_order : nat -> list nat.

(** The triple that [sample] assembles always carries the empty list as
    its [disparities]: the traces are appended to the local list of the
    base case, which returns only [G, iter]. *)
Lemma sample_from_assembled (rest : list string) (fuel : nat) (d : DataFrame)
    (s_vars : list string) (label : string) (rl : option Z) (dbg : bool)
    (i : nat) (G : list DataFrame) (cond : condition) (stop : Z)
    (w w' : World) (df : DataFrame) (ds : list (list float)) (k : nat) :
  sample_from seed2_order rest fuel d s_vars label rl dbg i G cond stop w
    = (Ok (Assembled df ds k), w') ->
  ds = [].
Proof.
  destruct rest as [| s rest]; simpl; intros Hrun.
  - destruct (Nat.eqb i (length s_vars)).
    + pure_ok Hrun as labels Hl. step_ok Hrun as acc w1 Hacc.
      destruct acc as [[ds' G'] k']. apply ret_ok in Hrun.
      destruct Hrun as [Hr _]. discriminate.
    + discriminate.
  - destruct (Nat.eqb i (length s_vars)).
    + pure_ok Hrun as labels Hl. step_ok Hrun as acc w1 Hacc.
      destruct acc as [[ds' G'] k']. apply ret_ok in Hrun.
      destruct Hrun as [Hr _]. discriminate.
    + pure_ok Hrun as col0 Hc0. step_ok Hrun as r1 w1 Hr1.
      step_ok Hrun as p1 w2 Hp1. destruct p1 as [G1 k1].
      pure_ok Hrun as col1 Hc1. step_ok Hrun as r2 w3 Hr2.
      step_ok Hrun as p2 w4 Hp2. destruct p2 as [G2 k2].
      pure_ok Hrun as limit Hlim. pure_ok Hrun as labels Hl.
      destruct (Nat.eqb _ _).
      * pure_ok Hrun as df0 Hdf. apply ret_ok in Hrun.
        destruct Hrun as [Hr _]. inversion Hr. reflexivity.
      * apply ret_ok in Hrun. destruct Hrun as [Hr _]. discriminate.
Qed.

(** C6. After every successful [fit_transform] the [disparities] kept on
    the object is the empty list, whatever was balanced. *)
Theorem fit_transform_disparities_empty (fuel : nat) (self self' : DEMV)
    (dataset df_new : DataFrame) (protected_attrs : list string)
    (label_name : string) (w w' : World) :
  fit_transform seed2_order fuel self dataset protected_attrs label_name w
    = (Ok (df_new, self'), w') ->
  disparities self' = Some [].
Proof.
  unfold fit_transform, sample. intros Hrun.
  step_ok Hrun as r w1 Hs. step_ok Hrun as t w2 Hu.
  destruct t as [[df ds] k]. apply ret_ok in Hrun. destruct Hrun as [Hr _].
  inversion Hr; subst; clear Hr. simpl.
  destruct r as [G k' | df' ds' k']; simpl in Hu; [discriminate |].
  apply ret_ok in Hu. destruct Hu as [Hu _]. inversion Hu; subst.
  apply sample_from_assembled in Hs. subst. reflexivity.
Qed.

(** With no protected attribute [sample] is in its base case at once: it
    returns the pair [G, iter] on a frame without rows, and raises from
    [d[cond]] ([cond] being [True]) on the first label otherwise. *)
Lemma sample_no_attribute (fuel : nat) (d : DataFrame) (label : string)
    (rl : option Z) (dbg : bool) (stop : Z) (w : World) :
  sample seed2_order fuel d [] label rl dbg 0 [] PyTrue stop w =
    match getitem_col d label with
    | Ok _ =>
        match rows d with
        | [] => (Ok (Groups [] 0), w)
        | _ :: _ => (Raise KeyError, w)
        end
    | _ => (Raise KeyError, w)
    end.
Proof.
  unfold sample. simpl. unfold getitem_col.
  destruct (column_position label (columns d)) as [j |]; [| reflexivity].
  unfold bind at 1. unfold lift at 1.
  destruct (rows d) as [| r rs] eqn:E; [reflexivity |].
  destruct (np_unique (map (cell j) (r :: rs))) as [| l ls] eqn:El.
  - apply np_unique_nil in El. discriminate.
  - simpl. unfold bind at 2. unfold bind at 2. unfold lift at 1.
    unfold cell_weights. unfold getitem_col. rewrite E.
    destruct (column_position label (columns d)) as [j' |]; reflexivity.
Qed.

(** C10. With an empty list of protected attributes [fit_transform] never
    returns a dataset: it raises before any state is touched, with
    [ValueError] from unpacking the pair [G, iter] when the frame has no
    rows, and with [KeyError] raised inside [sample] otherwise. *)
Theorem fit_transform_no_attribute (fuel : nat) (self : DEMV)
    (dataset : DataFrame) (label_name : string) (w : World) :
  fit_transform seed2_order fuel self dataset [] label_name w =
    match getitem_col dataset label_name, rows dataset with
    | Ok _, [] => (Raise ValueError, w)
    | _, _ => (Raise KeyError, w)
    end.
Proof.
  unfold fit_transform. unfold bind at 1. rewrite sample_no_attribute.
  destruct (getitem_col dataset label_name); try reflexivity.
  destruct (rows dataset); reflexivity.
Qed.

End Results.

(** ** Determinism: a run depends on the state through the draws it reads *)








(** Not every computation reads forward: one that looks at a draw without
    taking it does not. *)
Lemma peeking_reads_not_forward :
  ~ reads_forward (fun w : World => (Ok (stream w (S (cursor w))), w)).
Proof.
  intros [_ H].
  destruct (H w0 (mkWorld (fun n => n) 0 [])) as (E & _).
  - reflexivity.
  - simpl. intros n Hn. lia.
  - simpl in E. discriminate.
Qed.


Section Determinism.

Variable seed2_order : nat -> list nat.










End Determinism.

(** ** Conditions as row predicates *)

Lemma getitem_col_values (d : DataFrame) (s : string) (col : list Z) :
  getitem_col d s = Ok col -> col = column_values d s.
Proof.
  unfold getitem_col, column_values, value.
  destruct (column_position s (columns d)) as [j |]; intros H; inversion H.
  reflexivity.
Qed.

Lemma getitem_col_present (d : DataFrame) (s : string) (col : list Z) :
  getitem_col d s = Ok col -> exists j, column_position s (columns d) = Some j.
Proof.
  unfold getitem_col. destruct (column_position s (columns d)) as [j |]; intros H.
  - exists j. reflexivity.
  - discriminate.
Qed.

Lemma select_map (p : Row -> bool) (rs : list Row) :
  select (map p rs) rs = filter p rs.
Proof.
  induction rs as [| r rs IH]; simpl; [reflexivity |].
  rewrite IH. reflexivity.
Qed.

Lemma mask_and_map (p q : Row -> bool) (rs : list Row) :
  mask_and (map p rs) (map q rs) = map (fun r => p r && q r) rs.
Proof.
  induction rs as [| r rs IH]; simpl; [reflexivity |].
  rewrite IH. reflexivity.
Qed.

Lemma series_eq_values (d : DataFrame) (s : string) (v : Z) :
  series_eq (column_values d s) v = map (fun r => Z.eqb (value d s r) v) (rows d).
Proof. unfold series_eq, column_values. rewrite map_map. reflexivity. Qed.

Lemma path_cond_mask (d : DataFrame) (attrs : list string) :
  forall (bits : list Z) (p : Row -> bool),
    path_cond d attrs bits (Mask (map p (rows d)))
    = Mask (map (fun r => p r && in_combination d attrs bits r) (rows d)).
Proof.
  unfold path_cond, in_combination.
  induction attrs as [| s attrs IH]; intros bits p.
  - simpl. f_equal. apply map_ext. intros r. rewrite andb_true_r. reflexivity.
  - destruct bits as [| b bits].
    + simpl. f_equal. apply map_ext. intros r. rewrite andb_true_r. reflexivity.
    + simpl. rewrite series_eq_values, mask_and_map, IH.
      f_equal. apply map_ext. intros r. rewrite andb_assoc. reflexivity.
Qed.

Lemma path_cond_root (d : DataFrame) (s : string) (attrs : list string)
    (b : Z) (bits : list Z) :
  path_cond d (s :: attrs) (b :: bits) PyTrue
  = Mask (map (in_combination d (s :: attrs) (b :: bits)) (rows d)).
Proof.
  unfold path_cond. simpl. rewrite series_eq_values.
  fold (path_cond d attrs bits (Mask (map (fun r => Z.eqb (value d s r) b) (rows d)))).
  rewrite path_cond_mask. reflexivity.
Qed.

(** ** The weights the base case hands to the balancer *)

Lemma cell_weights_mask (d : DataFrame) (label : string) (p : Row -> bool) (l : Z) (j : nat) :
  column_position label (columns d) = Some j ->
  cell_weights d label (Mask (map p (rows d))) l =
    (p_cond <~ int_truediv (count p d) (len d) ;;
     p_label <~ int_truediv (count (has_label d label l) d) (len d) ;;
     w_obs <~ int_truediv (count (fun r => p r && has_label d label l r) d) (len d) ;;
     Ok (mkDF (columns d) (filter (fun r => p r && has_label d label l r) (rows d)),
         PrimFloat.mul p_cond p_label, w_obs)).
Proof.
  intros Hj. unfold cell_weights.
  assert (Hcol : getitem_col d label = Ok (column_values d label)).
  { unfold getitem_col, column_values, value. rewrite Hj. reflexivity. }
  rewrite Hcol. cbn [obind]. rewrite series_eq_values.
  cbn [cond_and getitem_mask obind]. rewrite mask_and_map.
  unfold len, count. cbn [rows]. rewrite !select_map.
  reflexivity.
Qed.

(** C5. In the base case reached along the attribute values [bits], the
    loop body for label [l] hands to [balance_set] the cell of the rows that
    satisfy the condition and carry the label, the expected weight
    (|rows satisfying cond| / |d|) * (|rows with label l| / |d|) and the
    observed weight |rows in the cell| / |d|, all counted over [d]. *)
Theorem balance_cell_weights (fuel : nat) (d : DataFrame) (s : string)
    (attrs : list string) (b : Z) (bits : list Z) (label : string) (j : nat)
    (round_level : option Z) (debug : bool) (stop : Z)
    (ds : list (list float)) (G : list DataFrame) (iter : nat) (l : Z) :
  column_position label (columns d) = Some j ->
  balance_cell fuel d label round_level debug
               (path_cond d (s :: attrs) (b :: bits) PyTrue) stop (ds, G, iter) l
  = ('(g, w_exp, w_obs) <- lift (spec_cell_weights d (s :: attrs) (b :: bits) label l) ;;
     '(g_new, disp, k) <- balance_set fuel w_exp w_obs g d round_level debug stop ;;
     ret (ds ++ [disp], G ++ [g_new], Nat.max iter k)).
Proof.
  intros Hj. unfold balance_cell.
  rewrite path_cond_root. erewrite cell_weights_mask by exact Hj.
  reflexivity.
Qed.

(** ** The cells [sample] visits *)

Lemma paths_length (k : nat) : length (paths k) = 2 ^ k.
Proof.
  induction k as [| k IH]; simpl; [reflexivity |].
  rewrite length_app, !length_map, IH. lia.
Qed.

Lemma paths_not_nil (k : nat) : paths k <> [].
Proof.
  intros H. pose proof (paths_length k) as L. rewrite H in L. simpl in L.
  pose proof (Nat.pow_nonzero 2 k). lia.
Qed.

Lemma in_paths (k : nat) (bits : list Z) :
  In bits (paths k) <->
  length bits = k /\ Forall (fun b => b = 0%Z \/ b = 1%Z) bits.
Proof.
  revert bits. induction k as [| k IH]; intros bits; simpl.
  - split.
    + intros [<- | []]. split; [reflexivity | constructor].
    + intros [L _]. left. destruct bits; [reflexivity | discriminate].
  - rewrite in_app_iff, !in_map_iff. split.
    + intros [(t & <- & Ht) | (t & <- & Ht)]; apply IH in Ht; destruct Ht as [L F];
        (split; [simpl; lia | constructor; [auto | assumption]]).
    + intros [L F]. destruct bits as [| b bits]; [discriminate |].
      inversion F as [| ? ? Hb F']; subst. simpl in L.
      assert (In bits (paths k)) as Ht by (apply IH; split; [lia | assumption]).
      destruct Hb as [-> | ->]; [left | right]; exists bits; split; auto.
Qed.

Lemma cell_keys_length (d : DataFrame) (k : nat) (label : string) :
  length (cell_keys d k label) = 2 ^ k * length (labels_of d label).
Proof.
  unfold cell_keys. rewrite <- paths_length.
  induction (paths k) as [| bits ps IH]; simpl; [reflexivity |].
  rewrite length_app, length_map, IH. lia.
Qed.

Lemma in_cell_keys (d : DataFrame) (k : nat) (label : string) (bits : list Z) (l : Z) :
  In (bits, l) (cell_keys d k label) <->
  In bits (paths k) /\ In l (labels_of d label).
Proof.
  unfold cell_keys. rewrite in_flat_map. split.
  - intros (b & Hb & Hin). apply in_map_iff in Hin.
    destruct Hin as (l' & E & Hl). inversion E; subst. split; assumption.
  - intros [Hb Hl]. exists bits. split; [assumption |].
    apply in_map. assumption.
Qed.

Section Visit.

Variable seed2_order : nat -> list nat.
Variables (fuel : nat) (d : DataFrame) (s_vars : list string) (label : string)
          (round_level : option Z) (debug : bool) (stop : Z).

Lemma for_each_cells (cond : condition) (ls : list Z) :
  forall ds G it w ds' G' it' w',
    for_each (balance_cell fuel d label round_level debug cond stop)
             (ds, G, it) ls w = (Ok (ds', G', it'), w') ->
    exists res,
      Forall2 (balanced fuel d label round_level debug stop) (map (pair cond) ls) res /\
      G' = G ++ map fst res /\
      it' = Nat.max it (list_max (map snd res)).
Proof.
  induction ls as [| l ls IH]; intros ds G it w ds' G' it' w' Hrun; simpl in Hrun.
  - apply ret_ok in Hrun. destruct Hrun as [E _]. inversion E; subst.
    exists []. simpl. repeat split.
    + constructor.
    + rewrite app_nil_r. reflexivity.
    + rewrite Nat.max_0_r. reflexivity.
  - step_ok Hrun as acc w1 Hcell. unfold balance_cell in Hcell.
    pure_ok Hcell as t Hw. destruct t as [[g w_exp] w_obs].
    step_ok Hcell as t w2 Hbal. destruct t as [[g_new disp] k].
    apply ret_ok in Hcell. destruct Hcell as [-> ->].
    apply IH in Hrun. destruct Hrun as (res & HF & HG & Hit).
    exists ((g_new, k) :: res). simpl. repeat split.
    + constructor; [| assumption].
      exists g, w_exp, w_obs, disp, w, w2. simpl. split; assumption.
    + rewrite HG, <- app_assoc. reflexivity.
    + rewrite Hit, Nat.max_assoc. reflexivity.
Qed.

(** What a successful call of [sample] with an empty [G] has done: it
    balanced the cells of all the base cases below it, in order, and
    returned them as the pair, or assembled them when their number is the
    product of the attribute cardinalities and the number of labels. *)
Lemma sample_from_ok (rest : list string) :
  forall i cond w r w',
    i + length rest = length s_vars ->
    sample_from seed2_order rest fuel d s_vars label round_level debug
                i [] cond stop w = (Ok r, w') ->
    exists res,
      Forall2 (balanced fuel d label round_level debug stop) (leaves d label rest cond) res /\
      (r = Groups (map fst res) (list_max (map snd res)) \/
       (rest <> [] /\
        exists df limit,
          cardinality_limit d s_vars 1 = Ok limit /\
          length res = limit * length (labels_of d label) /\
          assemble seed2_order (map fst res) = Ok df /\
          r = Assembled df [] (list_max (map snd res)))).
Proof.
  induction rest as [| s rest IH]; intros i cond w r w' Hi Hrun; simpl in Hrun.
  - simpl in Hi. replace (Nat.eqb i (length s_vars)) with true in Hrun
      by (symmetry; apply Nat.eqb_eq; lia).
    pure_ok Hrun as labels Hl. apply getitem_col_values in Hl. subst labels.
    step_ok Hrun as acc w1 Hacc. destruct acc as [[ds' G'] it'].
    apply ret_ok in Hrun. destruct Hrun as [-> _].
    apply for_each_cells in Hacc. destruct Hacc as (res & HF & -> & ->).
    exists res. split; [exact HF |]. left. reflexivity.
  - simpl in Hi. replace (Nat.eqb i (length s_vars)) with false in Hrun
      by (symmetry; apply Nat.eqb_neq; lia).
    pure_ok Hrun as col0 Hc0. apply getitem_col_values in Hc0. subst col0.
    step_ok Hrun as r1 w1 Hr1. step_ok Hrun as p1 w2 Hp1. destruct p1 as [G1 k1].
    pure_ok Hrun as col1 Hc1. apply getitem_col_values in Hc1. subst col1.
    step_ok Hrun as r2 w3 Hr2. step_ok Hrun as p2 w4 Hp2. destruct p2 as [G2 k2].
    pure_ok Hrun as limit Hlim. pure_ok Hrun as labels Hl.
    apply getitem_col_values in Hl. subst labels.
    apply IH in Hr1; [| lia]. destruct Hr1 as (res1 & HF1 & Hres1).
    apply IH in Hr2; [| lia]. destruct Hr2 as (res2 & HF2 & Hres2).
    destruct Hres1 as [-> | (_ & df1 & lim1 & _ & _ & _ & ->)];
      [| simpl in Hp1; discriminate].
    destruct Hres2 as [-> | (_ & df2 & lim2 & _ & _ & _ & ->)];
      [| simpl in Hp2; discriminate].
    simpl in Hp1, Hp2.
    apply ret_ok in Hp1. destruct Hp1 as [E1 _]. inversion E1; subst G1 k1.
    apply ret_ok in Hp2. destruct Hp2 as [E2 _]. inversion E2; subst G2 k2.
    exists (res1 ++ res2). split; [apply Forall2_app; assumption |].
    rewrite !map_app, list_max_app. cbn [app] in Hrun.
    destruct (Nat.eqb _ _) eqn:Ecount.
    + pure_ok Hrun as df Hdf. apply ret_ok in Hrun. destruct Hrun as [-> _].
      right. split; [discriminate |]. exists df, limit.
      apply Nat.eqb_eq in Ecount.
      rewrite length_app, !length_map in Ecount.
      repeat split; try assumption.
      rewrite length_app. exact Ecount.
    + apply ret_ok in Hrun. destruct Hrun as [-> _]. left. reflexivity.
Qed.

End Visit.

(** ** From visited base cases to cells *)

Lemma cell_keys_S (d : DataFrame) (k : nat) (label : string) :
  cell_keys d (S k) label
  = map (fun key => (0%Z :: fst key, snd key)) (cell_keys d k label)
    ++ map (fun key => (1%Z :: fst key, snd key)) (cell_keys d k label).
Proof.
  assert (H : forall b ps,
             flat_map (fun bits => map (pair bits) (labels_of d label)) (map (cons b) ps)
             = map (fun key : list Z * Z => (b :: fst key, snd key))
                   (flat_map (fun bits => map (pair bits) (labels_of d label)) ps)).
  { intros b ps. induction ps as [| bits ps IH]; simpl; [reflexivity |].
    rewrite map_app, map_map, IH. reflexivity. }
  unfold cell_keys. simpl. rewrite flat_map_app, !H. reflexivity.
Qed.

Lemma leaves_keys (d : DataFrame) (label : string) (rest : list string) :
  forall cond,
    leaves d label rest cond
    = map (fun key => (path_cond d rest (fst key) cond, snd key))
          (cell_keys d (length rest) label).
Proof.
  induction rest as [| s rest IH]; intros cond.
  - unfold cell_keys. simpl. rewrite app_nil_r, map_map. reflexivity.
  - cbn [leaves length]. rewrite cell_keys_S, map_app, !map_map, !IH.
    reflexivity.
Qed.

Lemma int_truediv_zero (n : Z) (w : float) :
  int_truediv 0 n = Ok w -> PrimFloat.eqb w 0 = true.
Proof.
  unfold int_truediv. destruct n as [| n | n]; simpl; intros H;
    [discriminate | | ]; inversion H; reflexivity.
Qed.

Lemma compute_disp_nonzero (w_exp w_obs : float) (rl : option Z) (disp : float) :
  compute_disp w_exp w_obs rl = Ok disp -> PrimFloat.eqb w_obs 0 = false.
Proof.
  unfold compute_disp, float_truediv.
  destruct (PrimFloat.eqb w_obs 0); [| reflexivity].
  destruct rl as [n |]; [destruct (Z.eqb n 0) |]; simpl; discriminate.
Qed.

Lemma balance_set_nonzero (fuel : nat) (w_exp w_obs : float) (g tot : DataFrame)
    (rl : option Z) (dbg : bool) (k : Z) (w w' : World) r :
  balance_set fuel w_exp w_obs g tot rl dbg k w = (Ok r, w') ->
  PrimFloat.eqb w_obs 0 = false.
Proof.
  unfold balance_set. intros Hrun. pure_ok Hrun as disp Hd.
  exact (compute_disp_nonzero _ _ _ _ Hd).
Qed.

Lemma spec_cell_weights_ok (d : DataFrame) (attrs : list string) (bits : list Z)
    (label : string) (l : Z) (g : DataFrame) (w_exp w_obs : float) :
  spec_cell_weights d attrs bits label l = Ok (g, w_exp, w_obs) ->
  g = cell_frame d attrs label (bits, l) /\
  int_truediv (len g) (len d) = Ok w_obs.
Proof.
  unfold spec_cell_weights. intros H.
  apply obind_ok in H. destruct H as (pc & _ & H).
  apply obind_ok in H. destruct H as (pl & _ & H).
  apply obind_ok in H. destruct H as (wo & Hwo & H).
  inversion H; subst. split; [reflexivity | exact Hwo].
Qed.

Section Cells.

Variables (fuel : nat) (d : DataFrame) (label : string)
          (round_level : option Z) (debug : bool) (stop : Z).

Lemma balanced_label_present (cl : condition * Z) (gk : DataFrame * nat) :
  balanced fuel d label round_level debug stop cl gk ->
  exists j, column_position label (columns d) = Some j.
Proof.
  intros (g & w_exp & w_obs & trace & w1 & w2 & Hw & _).
  unfold cell_weights in Hw. apply obind_ok in Hw.
  destruct Hw as (lab & Hlab & _).
  exact (getitem_col_present _ _ _ Hlab).
Qed.

Lemma balanced_at_root (s : string) (attrs : list string) (b : Z) (bits : list Z)
    (l : Z) (gk : DataFrame * nat) :
  balanced fuel d label round_level debug stop
           (path_cond d (s :: attrs) (b :: bits) PyTrue, l) gk ->
  balanced_cell fuel d label round_level debug stop (s :: attrs) (b :: bits, l) gk.
Proof.
  intros Hb. destruct (balanced_label_present _ _ Hb) as [j Hj].
  destruct Hb as (g & w_exp & w_obs & trace & w1 & w2 & Hw & Hrun).
  cbn [fst snd] in Hw. rewrite path_cond_root in Hw.
  erewrite cell_weights_mask in Hw by exact Hj.
  fold (spec_cell_weights d (s :: attrs) (b :: bits) label l) in Hw.
  destruct (spec_cell_weights_ok _ _ _ _ _ _ _ _ Hw) as [-> _].
  exists w_exp, w_obs, trace, w1, w2. split; assumption.
Qed.

(** A balanced cell has at least one row: on an empty cell the observed
    weight is [0.0] and [w_exp / w_obs] raises [ZeroDivisionError]. *)
Lemma balanced_cell_nonempty (attrs : list string) (key : list Z * Z)
    (gk : DataFrame * nat) :
  balanced_cell fuel d label round_level debug stop attrs key gk -> rows (cell_frame d attrs label key) <> [].
Proof.
  intros (w_exp & w_obs & trace & w1 & w2 & Hw & Hrun) Hnil.
  apply spec_cell_weights_ok in Hw. destruct Hw as [_ Hobs].
  apply balance_set_nonzero in Hrun.
  unfold len in Hobs at 1. rewrite Hnil in Hobs. simpl in Hobs.
  apply int_truediv_zero in Hobs. congruence.
Qed.

End Cells.

(** ** [np.unique] and the cardinality check *)

Lemma insert_unique_in (x y : Z) (l : list Z) :
  In y (insert_unique x l) <-> y = x \/ In y l.
Proof.
  induction l as [| z l IH]; simpl.
  - intuition.
  - destruct (Z.ltb x z) eqn:E1; simpl; [intuition |].
    destruct (Z.eqb x z) eqn:E2; simpl.
    + apply Z.eqb_eq in E2. subst. intuition.
    + rewrite IH. intuition.
Qed.

Lemma np_unique_in (x : Z) (col : list Z) : In x (np_unique col) <-> In x col.
Proof.
  unfold np_unique. induction col as [| y col IH]; simpl; [reflexivity |].
  rewrite insert_unique_in, IH. intuition.
Qed.

Lemma insert_unique_sorted (x : Z) (l : list Z) :
  StronglySorted Z.lt l -> StronglySorted Z.lt (insert_unique x l).
Proof.
  induction l as [| z l IH]; intros Hs; simpl.
  - constructor; constructor.
  - inversion Hs as [| ? ? Hs' Hall]; subst.
    destruct (Z.ltb x z) eqn:E1.
    + apply Z.ltb_lt in E1. constructor; [assumption |].
      constructor; [assumption |].
      eapply Forall_impl; [| exact Hall]. intros a Ha. simpl in Ha. lia.
    + destruct (Z.eqb x z) eqn:E2; [assumption |].
      apply Z.ltb_ge in E1. apply Z.eqb_neq in E2.
      constructor; [apply IH; assumption |].
      apply Forall_forall. intros a Ha. apply insert_unique_in in Ha.
      destruct Ha as [-> | Ha]; [lia |].
      rewrite Forall_forall in Hall. apply Hall. assumption.
Qed.

Lemma np_unique_sorted (col : list Z) : StronglySorted Z.lt (np_unique col).
Proof.
  unfold np_unique. induction col as [| y col IH]; simpl.
  - constructor.
  - apply insert_unique_sorted. assumption.
Qed.

Lemma np_unique_nodup (col : list Z) : NoDup (np_unique col).
Proof.
  induction (np_unique_sorted col) as [| x l Hs IH Hall]; constructor.
  - intros Hin. rewrite Forall_forall in Hall. specialize (Hall _ Hin). lia.
  - assumption.
Qed.

Lemma cardinality_limit_ok (d : DataFrame) (attrs : list string) :
  forall acc limit,
    cardinality_limit d attrs acc = Ok limit ->
    limit = acc * product (map (cardinality d) attrs).
Proof.
  induction attrs as [| s attrs IH]; intros acc limit H; simpl in H.
  - inversion H. simpl. lia.
  - apply obind_ok in H. destruct H as (col & Hcol & H).
    apply getitem_col_values in Hcol. subst col.
    apply IH in H. subst limit. simpl. unfold cardinality at 2. lia.
Qed.

Lemma cardinality_limit_present (d : DataFrame) (attrs : list string) :
  forall acc,
    (forall s, In s attrs -> exists j, column_position s (columns d) = Some j) ->
    cardinality_limit d attrs acc
    = Ok (acc * product (map (cardinality d) attrs)).
Proof.
  induction attrs as [| s attrs IH]; intros acc Hp; simpl.
  - f_equal. lia.
  - destruct (Hp s (or_introl eq_refl)) as [j Hj].
    assert (Hcol : getitem_col d s = Ok (column_values d s)).
    { unfold getitem_col, column_values, value. rewrite Hj. reflexivity. }
    rewrite Hcol. cbn [obind]. rewrite IH.
    + f_equal. unfold cardinality at 2. lia.
    + intros s' Hs'. apply Hp. right. assumption.
Qed.

Lemma product_lower (us : list nat) :
  Forall (fun u => 2 <= u) us -> 2 ^ length us <= product us.
Proof.
  induction 1 as [| u us Hu _ IH]; [simpl; lia |].
  cbn [length]. rewrite Nat.pow_succ_r'.
  change (product (u :: us)) with (u * product us). nia.
Qed.

Lemma product_all_two (us : list nat) :
  Forall (fun u => 2 <= u) us ->
  product us = 2 ^ length us ->
  Forall (fun u => u = 2) us.
Proof.
  induction 1 as [| u us Hu Hall IH]; intros Heq; [constructor |].
  pose proof (product_lower us Hall) as Hlow.
  cbn [length] in Heq. rewrite Nat.pow_succ_r' in Heq.
  change (product (u :: us)) with (u * product us) in Heq.
  assert (0 < 2 ^ length us) by (apply Nat.neq_0_lt_0, Nat.pow_nonzero; lia).
  constructor; [nia | apply IH; nia].
Qed.

Lemma two_values (l : list Z) :
  NoDup l -> In 0%Z l -> In 1%Z l ->
  2 <= length l /\
  (length l = 2 -> forall x, In x l -> x = 0%Z \/ x = 1%Z).
Proof.
  intros Hnd H0 H1.
  assert (Hnd2 : NoDup [0%Z; 1%Z]).
  { constructor; [simpl; intros [H | []]; discriminate |].
    constructor; [intros [] | constructor]. }
  assert (Hincl : incl [0%Z; 1%Z] l).
  { intros x [<- | [<- | []]]; assumption. }
  split.
  - apply (NoDup_incl_length Hnd2 Hincl).
  - intros Hlen x Hx.
    assert (incl l [0%Z; 1%Z]) as Hback.
    { apply NoDup_length_incl; [assumption | simpl; lia | assumption]. }
    specialize (Hback x Hx). simpl in Hback. intuition.
Qed.

(** When every cell has a row, both values 0 and 1 occur in every
    attribute's column. *)
Lemma nonempty_cells_values (d : DataFrame) (label : string) (rest : list string) :
  labels_of d label <> [] ->
  (forall key, In key (cell_keys d (length rest) label) ->
     exists r, In r (rows d) /\ in_cell d rest (fst key) label (snd key) r = true) ->
  forall s b, In s rest -> b = 0%Z \/ b = 1%Z ->
    exists r, In r (rows d) /\ value d s r = b.
Proof.
  intros Hlab. induction rest as [| s0 rest IH]; intros H s b Hs Hb; [destruct Hs |].
  destruct (labels_of d label) as [| l0 ls] eqn:El; [contradiction |].
  destruct (paths (length rest)) as [| bits0 ps] eqn:Ep;
    [exact (False_ind _ (paths_not_nil _ Ep)) |].
  destruct Hs as [<- | Hs].
  - destruct (H (b :: bits0, l0)) as (r & Hr & Hc).
    { apply in_cell_keys. split.
      - apply in_paths. assert (In bits0 (paths (length rest))) as Hin
          by (rewrite Ep; left; reflexivity).
        apply in_paths in Hin. destruct Hin as [L F]. split; [simpl; lia |].
        constructor; assumption.
      - rewrite El. left. reflexivity. }
    exists r. split; [assumption |].
    unfold in_cell, in_combination in Hc. simpl in Hc.
    apply andb_prop in Hc. destruct Hc as [Hc _].
    apply andb_prop in Hc. destruct Hc as [Hc _].
    apply Z.eqb_eq. assumption.
  - apply IH; try assumption. intros [bits l] Hkey.
    apply in_cell_keys in Hkey. destruct Hkey as [Hbits Hl].
    destruct (H (0%Z :: bits, l)) as (r & Hr & Hc).
    { apply in_cell_keys. split; [| assumption].
      apply in_paths. apply in_paths in Hbits. destruct Hbits as [L F].
      split; [simpl; lia | constructor; auto]. }
    exists r. split; [assumption |].
    unfold in_cell, in_combination in *. simpl in Hc. simpl.
    apply andb_prop in Hc. destruct Hc as [Hc Hl'].
    apply andb_prop in Hc. destruct Hc as [_ Hc].
    rewrite Hc, Hl'. reflexivity.
Qed.

(** ** Lists: relating, splitting and reordering *)

Lemma Forall2_map_left {A B C} (R : B -> C -> Prop) (f : A -> B) (l : list A) (l' : list C) :
  Forall2 R (map f l) l' -> Forall2 (fun a c => R (f a) c) l l'.
Proof.
  revert l'. induction l as [| a l IH]; intros l' H; inversion H; subst;
    constructor; auto.
Qed.

Lemma Forall2_impl_in {A B} (P Q : A -> B -> Prop) (l : list A) (l' : list B) :
  (forall a b, In a l -> P a b -> Q a b) -> Forall2 P l l' -> Forall2 Q l l'.
Proof.
  intros H HF. induction HF as [| a b l l' Hab HF IH]; constructor.
  - apply H; [left; reflexivity | assumption].
  - apply IH. intros a' b' Hin. apply H. right. assumption.
Qed.

Lemma Forall2_in_left {A B} (P : A -> B -> Prop) (l : list A) (l' : list B) (a : A) :
  Forall2 P l l' -> In a l -> exists b, In b l' /\ P a b.
Proof.
  intros HF. induction HF as [| a0 b l l' Hab HF IH]; intros Hin; [destruct Hin |].
  destruct Hin as [<- | Hin].
  - exists b. split; [left; reflexivity | assumption].
  - destruct (IH Hin) as (b' & Hb' & HP). exists b'. split; [right |]; assumption.
Qed.

Lemma pop_some {A} (l : list A) (x : A) (l' : list A) :
  pop l = Some (x, l') -> l = l' ++ [x].
Proof.
  unfold pop. destruct (rev l) as [| y r] eqn:E; intros H; [discriminate |].
  inversion H; subst. rewrite <- (rev_involutive l), E. reflexivity.
Qed.

Lemma pop_none {A} (l : list A) : pop l = None -> l = [].
Proof.
  unfold pop. destruct (rev l) as [| y r] eqn:E; intros H; [| discriminate].
  rewrite <- (rev_involutive l), E. reflexivity.
Qed.

Lemma take_seq (rs pre : list Row) :
  take (seq (length pre) (length rs)) (pre ++ rs) = rs.
Proof.
  revert pre. induction rs as [| r rs IH]; intros pre; [reflexivity |].
  cbn [length seq]. unfold take. cbn [flat_map].
  rewrite nth_error_app2, Nat.sub_diag by lia. cbn [nth_error app].
  f_equal. specialize (IH (pre ++ [r])).
  rewrite length_app, <- app_assoc in IH. cbn [length app] in IH.
  rewrite Nat.add_1_r in IH. exact IH.
Qed.

Lemma take_permutation (order : list nat) (rs : list Row) :
  Permutation order (seq 0 (length rs)) -> Permutation (take order rs) rs.
Proof.
  intros H. unfold take. rewrite H.
  exact (eq_ind _ (fun l => Permutation l rs) (Permutation_refl rs) _
                (eq_sym (take_seq rs []))).
Qed.

(** Filtering a list by a family of tests of which exactly one accepts
    each element splits the list. *)
Lemma partition_by_count {K} (f : K -> Row -> bool) (keys : list K) (rs : list Row) :
  (forall r, In r rs -> length (filter (fun key => f key r) keys) = 1) ->
  Permutation (flat_map (fun key => filter (f key) rs) keys) rs.
Proof.
  induction rs as [| r rs IH]; intros H.
  - clear H. induction keys as [| key keys IHk]; simpl; [apply perm_nil | assumption].
  - assert (Hstep : forall ks,
              Permutation (flat_map (fun key => filter (f key) (r :: rs)) ks)
                          (map (fun _ => r) (filter (fun key => f key r) ks)
                           ++ flat_map (fun key => filter (f key) rs) ks)).
    { induction ks as [| key ks IHk]; simpl; [apply perm_nil |].
      destruct (f key r); simpl.
      - apply perm_skip. rewrite IHk.
        rewrite !app_assoc. apply Permutation_app_tail. apply Permutation_app_comm.
      - rewrite IHk. rewrite !app_assoc. apply Permutation_app_tail.
        apply Permutation_app_comm. }
    rewrite Hstep.
    pose proof (H r (or_introl eq_refl)) as H1.
    destruct (filter (fun key => f key r) keys) as [| k0 [| k1 ks]]; try discriminate.
    simpl. apply perm_skip. apply IH. intros r' Hr'. apply H. right. assumption.
Qed.

Lemma count_label (v : Z) (ls : list Z) :
  NoDup ls -> In v ls -> length (filter (fun l => Z.eqb v l) ls) = 1.
Proof.
  induction 1 as [| l ls Hnotin Hnd IH]; intros Hin; [destruct Hin |].
  simpl. destruct (Z.eqb v l) eqn:E.
  - apply Z.eqb_eq in E. subst l. simpl. f_equal.
    clear IH Hin Hnd. induction ls as [| l ls IH]; [reflexivity |].
    simpl. destruct (Z.eqb v l) eqn:E.
    + apply Z.eqb_eq in E. subst. exfalso. apply Hnotin. left. reflexivity.
    + apply IH. intros Hin. apply Hnotin. right. assumption.
  - apply Z.eqb_neq in E. destruct Hin as [-> | Hin]; [congruence |].
    apply IH. assumption.
Qed.

(** Every row of binary attributes lies in exactly one cell. *)
Lemma count_keys (d : DataFrame) (label : string) (r : Row) (rest : list string) :
  (forall s, In s rest -> value d s r = 0%Z \/ value d s r = 1%Z) ->
  In (value d label r) (labels_of d label) ->
  length (filter (fun key => in_cell d rest (fst key) label (snd key) r)
                 (cell_keys d (length rest) label)) = 1.
Proof.
  intros Hbin Hlab. induction rest as [| s rest IH].
  - unfold cell_keys. simpl. rewrite app_nil_r, filter_map_swap, length_map.
    unfold in_cell, in_combination, has_label. simpl.
    apply count_label; [apply np_unique_nodup | assumption].
  - cbn [length]. rewrite cell_keys_S, filter_app, length_app.
    rewrite !filter_map_swap, !length_map.
    assert (IH' : length (filter (fun key => in_cell d rest (fst key) label (snd key) r)
                                 (cell_keys d (length rest) label)) = 1).
    { apply IH. intros s' Hs'. apply Hbin. right. assumption. }
    assert (Hcase : forall b,
              length (filter (fun key : list Z * Z =>
                                in_cell d (s :: rest) (fst (b :: fst key, snd key)) label
                                        (snd (b :: fst key, snd key)) r)
                             (cell_keys d (length rest) label))
              = if Z.eqb (value d s r) b then 1 else 0).
    { intros b. destruct (Z.eqb (value d s r) b) eqn:E.
      - rewrite <- IH'. f_equal. apply filter_ext. intros key.
        unfold in_cell, in_combination. simpl. rewrite E. reflexivity.
      - erewrite filter_ext with (g := fun _ => false).
        + clear. induction (cell_keys d (length rest) label); simpl; auto.
        + intros key. unfold in_cell, in_combination. simpl. rewrite E. reflexivity. }
    rewrite !Hcase.
    destruct (Hbin s (or_introl eq_refl)) as [-> | ->]; reflexivity.
Qed.

Lemma in_combination_eq (d : DataFrame) (r : Row) (attrs : list string) :
  forall bits,
    length bits = length attrs ->
    in_combination d attrs bits r = true ->
    bits = map (fun s => value d s r) attrs.
Proof.
  unfold in_combination.
  induction attrs as [| s attrs IH]; intros bits L H; destruct bits as [| b bits];
    try discriminate; [reflexivity |].
  simpl in *. apply andb_prop in H. destruct H as [Hb H].
  apply Z.eqb_eq in Hb. subst b. f_equal. apply IH; [lia | assumption].
Qed.

(** ** What a successful [fit_transform] has done *)

Section Success.

Variable seed2_order : nat -> list nat.

Variables (fuel : nat) (self : DEMV) (d : DataFrame)
          (attrs : list string) (label : string).

(** A successful call has at least one protected attribute, has balanced
    every cell once, in visiting order, has found their number equal to
    the product of the cardinalities and the number of labels, and has
    assembled the balanced groups. *)
Lemma fit_transform_ok_inv (w w' : World) (df_new : DataFrame) (self' : DEMV) :
  fit_transform seed2_order fuel self d attrs label w = (Ok (df_new, self'), w') ->
  exists res limit,
    attrs <> [] /\
    Forall2 (balanced_cell fuel d label (round_level self) (debug self) (stop self) attrs)
            (cell_keys d (length attrs) label) res /\
    cardinality_limit d attrs 1 = Ok limit /\
    length res = limit * length (labels_of d label) /\
    assemble seed2_order (map fst res) = Ok df_new /\
    self' = mkDEMV (round_level self) (debug self) (stop self)
                   (list_max (map snd res)) (Some []).
Proof.
  unfold fit_transform, sample. cbn [skipn]. intros Hrun.
  step_ok Hrun as r w1 Hs. step_ok Hrun as t w2 Hu. destruct t as [[df ds] k].
  apply ret_ok in Hrun. destruct Hrun as [E _]. inversion E; subst; clear E.
  apply sample_from_ok in Hs; [| reflexivity].
  destruct Hs as (res & HF & [-> | (Hne & df' & limit & Hlim & Hlen & Hasm & ->)]);
    [simpl in Hu; discriminate |].
  simpl in Hu. apply ret_ok in Hu. destruct Hu as [E _]. inversion E; subst; clear E.
  exists res, limit. repeat split; try assumption.
  rewrite leaves_keys in HF. apply Forall2_map_left in HF.
  eapply Forall2_impl_in; [| exact HF].
  intros [bits l] gk Hin Hb. cbn [fst snd] in Hb.
  apply in_cell_keys in Hin. destruct Hin as [Hbits _].
  apply in_paths in Hbits. destruct Hbits as [L _].
  destruct attrs as [| s attrs']; [contradiction |].
  destruct bits as [| b bits]; [discriminate |].
  apply balanced_at_root. assumption.
Qed.

(** On a successful call the dataset has rows and labels, and every
    protected attribute takes exactly the two values 0 and 1. *)
Lemma fit_transform_ok_binary (w w' : World) (df_new : DataFrame) (self' : DEMV) :
  fit_transform seed2_order fuel self d attrs label w = (Ok (df_new, self'), w') ->
  labels_of d label <> [] /\
  forall s, In s attrs ->
    cardinality d s = 2 /\
    forall r, In r (rows d) -> value d s r = 0%Z \/ value d s r = 1%Z.
Proof.
  intros Hrun. apply fit_transform_ok_inv in Hrun.
  destruct Hrun as (res & limit & Hne & HF & Hlim & Hlen & Hasm & _).
  pose proof (Forall2_length HF) as HL. rewrite cell_keys_length in HL.
  assert (Hres : res <> []).
  { intros ->. unfold assemble in Hasm. simpl in Hasm. discriminate. }
  assert (Hlab : labels_of d label <> []).
  { intros E. rewrite E in HL. rewrite Nat.mul_0_r in HL.
    destruct res; [contradiction | discriminate]. }
  split; [assumption |].
  assert (Hcells : forall key, In key (cell_keys d (length attrs) label) ->
            exists r, In r (rows d) /\
                      in_cell d attrs (fst key) label (snd key) r = true).
  { intros key Hkey. destruct (Forall2_in_left _ _ _ _ HF Hkey) as (gk & _ & Hb).
    apply balanced_cell_nonempty in Hb. unfold cell_frame in Hb. cbn [rows] in Hb.
    destruct (filter _ (rows d)) as [| r rs] eqn:E; [contradiction |].
    assert (In r (filter (in_cell d attrs (fst key) label (snd key)) (rows d))) as Hin
      by (rewrite E; left; reflexivity).
    apply filter_In in Hin. exists r. exact Hin. }
  pose proof (nonempty_cells_values d label attrs Hlab Hcells) as Hvals.
  assert (Hboth : forall s, In s attrs ->
            In 0%Z (np_unique (column_values d s)) /\
            In 1%Z (np_unique (column_values d s))).
  { intros s Hs. split; apply np_unique_in; unfold column_values; apply in_map_iff.
    - destruct (Hvals s 0%Z Hs (or_introl eq_refl)) as (r & Hr & Hv).
      exists r. split; assumption.
    - destruct (Hvals s 1%Z Hs (or_intror eq_refl)) as (r & Hr & Hv).
      exists r. split; assumption. }
  assert (Hge : Forall (fun u => 2 <= u) (map (cardinality d) attrs)).
  { apply Forall_forall. intros u Hu. apply in_map_iff in Hu.
    destruct Hu as (s & <- & Hs). destruct (Hboth s Hs) as [H0 H1].
    apply (two_values _ (np_unique_nodup _) H0 H1). }
  apply cardinality_limit_ok in Hlim. rewrite Nat.mul_1_l in Hlim.
  assert (Hprod : product (map (cardinality d) attrs)
                  = 2 ^ length (map (cardinality d) attrs)).
  { rewrite length_map. rewrite <- Hlim.
    assert (0 < length (labels_of d label))
      by (destruct (labels_of d label); [contradiction | simpl; lia]).
    nia. }
  pose proof (product_all_two _ Hge Hprod) as Hall.
  intros s Hs. rewrite Forall_forall in Hall.
  assert (Hc : cardinality d s = 2) by (apply Hall, in_map; assumption).
  split; [assumption |]. intros r Hr.
  destruct (Hboth s Hs) as [H0 H1].
  apply (proj2 (two_values _ (np_unique_nodup _) H0 H1) Hc).
  apply np_unique_in. unfold column_values. apply in_map. assumption.
Qed.

(** C7 (as amended). A dataset in which some protected attribute has more
    than two distinct values is never returned rebalanced: the call does
    not return a dataset, whatever the fuel and the draws. *)
Theorem fit_transform_cardinality (w : World) (s : string) :
  In s attrs -> 2 < cardinality d s ->
  forall x, fst (fit_transform seed2_order fuel self d attrs label w) <> Ok x.
Proof.
  intros Hs Hcard [df_new self'] Hrun.
  destruct (fit_transform seed2_order fuel self d attrs label w) as [o w'] eqn:E.
  simpl in Hrun. subst o.
  apply fit_transform_ok_binary in E. destruct E as [_ Hbin].
  destruct (Hbin s Hs) as [Hc _]. lia.
Qed.


Hypothesis seed2_order_permutation :
  forall n, Permutation (seed2_order n) (seq 0 n).

Lemma assemble_permutation (G : list DataFrame) (df : DataFrame) :
  assemble seed2_order G = Ok df ->
  Permutation (rows df) (flat_map rows G).
Proof.
  unfold assemble. destruct (pop G) as [[last G'] |] eqn:E; intros H; [| discriminate].
  inversion H; subst; clear H. apply pop_some in E. subst G.
  unfold df_shuffle, df_append_all. cbn [rows].
  rewrite take_permutation by apply seed2_order_permutation.
  rewrite flat_map_app. simpl. rewrite app_nil_r. apply Permutation_app_comm.
Qed.

(** C2 (as amended). Whenever the call returns a dataset, it has balanced
    exactly 2^k * L groups, one per
    pair of a combination of attribute values and a label value; the
    cells they come from are pairwise disjoint and cover the dataset; and
    the rows of the returned dataset are those of the balanced groups,
    each group taken once. *)
Theorem fit_transform_partition (w w' : World) (df_new : DataFrame) (self' : DEMV) :
  fit_transform seed2_order fuel self d attrs label w = (Ok (df_new, self'), w') ->
  let keys := cell_keys d (length attrs) label in
  exists res : list (DataFrame * nat),
    length res = 2 ^ length attrs * length (labels_of d label) /\
    Forall2 (balanced_cell fuel d label (round_level self) (debug self) (stop self) attrs)
            keys res /\
    (forall r, In r (rows d) ->
       exists key, In key keys /\ in_cell d attrs (fst key) label (snd key) r = true) /\
    (forall key key' r, In key keys -> In key' keys ->
       in_cell d attrs (fst key) label (snd key) r = true ->
       in_cell d attrs (fst key') label (snd key') r = true ->
       key = key') /\
    Permutation (flat_map (fun key => rows (cell_frame d attrs label key)) keys)
                (rows d) /\
    Permutation (rows df_new) (flat_map (fun gk => rows (fst gk)) res).
Proof.
  intros Hrun keys.
  destruct (fit_transform_ok_binary _ _ _ _ Hrun) as [Hlab Hbin].
  apply fit_transform_ok_inv in Hrun.
  destruct Hrun as (res & limit & Hne & HF & Hlim & Hlen & Hasm & _).
  assert (Hcount : forall r, In r (rows d) ->
            length (filter (fun key => in_cell d attrs (fst key) label (snd key) r) keys)
            = 1).
  { intros r Hr. apply count_keys.
    - intros s Hs. apply (proj2 (Hbin s Hs)). assumption.
    - apply np_unique_in. unfold column_values. apply in_map. assumption. }
  exists res. split; [| split; [| split; [| split; [| split]]]].
  - rewrite <- (Forall2_length HF). apply cell_keys_length.
  - exact HF.
  - intros r Hr. specialize (Hcount r Hr).
    destruct (filter _ keys) as [| key ks] eqn:E; [discriminate |].
    assert (In key (filter (fun key => in_cell d attrs (fst key) label (snd key) r) keys))
      as Hin by (rewrite E; left; reflexivity).
    apply filter_In in Hin. exists key. exact Hin.
  - intros [bits l] [bits' l'] r Hk Hk' Hc Hc'. cbn [fst snd] in *.
    apply in_cell_keys in Hk, Hk'. destruct Hk as [Hb _], Hk' as [Hb' _].
    apply in_paths in Hb, Hb'. destruct Hb as [L _], Hb' as [L' _].
    unfold in_cell in Hc, Hc'.
    apply andb_prop in Hc, Hc'. destruct Hc as [Hc Hl], Hc' as [Hc' Hl'].
    apply in_combination_eq in Hc, Hc'; try assumption.
    unfold has_label in Hl, Hl'. apply Z.eqb_eq in Hl, Hl'. congruence.
  - unfold cell_frame. cbn [rows].
    apply (partition_by_count
             (fun key => in_cell d attrs (fst key) label (snd key))). exact Hcount.
  - rewrite (assemble_permutation _ _ Hasm). rewrite flat_map_concat_map.
    rewrite map_map. rewrite <- flat_map_concat_map. reflexivity.
Qed.

End Success.

(** ** A capped run comes to an end *)

Lemma settled_obind {A B} (o : outcome A) (f : A -> outcome B) :
  settled o -> (forall a, settled (f a)) -> settled (obind o f).
Proof.
  unfold settled. intros Ho Hf. destruct o as [a | e | ]; simpl;
    [apply Hf | discriminate | contradiction].
Qed.

Lemma halts_ret {A} (a : A) : halts (ret a).
Proof. intros w. simpl. discriminate. Qed.

Lemma halts_lift {A} (o : outcome A) : settled o -> halts (lift o).
Proof. intros H w. exact H. Qed.

Lemma halts_bind {A B} (m : M A) (f : A -> M B) :
  halts m -> (forall a, halts (f a)) -> halts (bind m f).
Proof.
  intros Hm Hf w. unfold bind. specialize (Hm w).
  destruct (m w) as [[a | e | ] w1]; simpl in *;
    [apply Hf | discriminate | contradiction].
Qed.

Lemma halts_for_each {A B} (f : A -> B -> M A) (l : list B) :
  (forall acc x, halts (f acc x)) -> forall acc, halts (for_each f acc l).
Proof.
  intros Hf. induction l as [| x l IH]; intros acc; simpl.
  - apply halts_ret.
  - apply halts_bind; [apply Hf | intros acc'; apply IH].
Qed.

Lemma settled_int_truediv (a b : Z) : settled (int_truediv a b).
Proof.
  unfold int_truediv, settled. destruct (Z.eqb b 0); [discriminate |].
  destruct (is_infinity _); discriminate.
Qed.

Lemma settled_float_truediv (x y : float) : settled (float_truediv x y).
Proof. unfold float_truediv, settled. destruct (PrimFloat.eqb y 0); discriminate. Qed.

Lemma settled_py_round (x : float) (n : Z) : settled (py_round x n).
Proof.
  unfold py_round, settled. destruct (Prim2SF x); try discriminate.
  destruct (Z.ltb 323 n); [discriminate |].
  destruct (Z.ltb n (-308)); [discriminate |].
  destruct (is_infinity _); discriminate.
Qed.

Lemma settled_compute_disp (w_exp w_obs : float) (rl : option Z) :
  settled (compute_disp w_exp w_obs rl).
Proof.
  unfold compute_disp. destruct rl as [n |]; [| apply settled_float_truediv].
  destruct (Z.eqb n 0); [apply settled_float_truediv |].
  apply settled_obind; [apply settled_float_truediv | intros r; apply settled_py_round].
Qed.

Lemma settled_getitem_col (d : DataFrame) (s : string) : settled (getitem_col d s).
Proof.
  unfold getitem_col, settled. destruct (column_position s (columns d)); discriminate.
Qed.

Lemma settled_getitem_mask (d : DataFrame) (c : condition) : settled (getitem_mask d c).
Proof. unfold settled. destruct c; discriminate. Qed.

Lemma settled_cell_weights (d : DataFrame) (label : string) (cond : condition) (l : Z) :
  settled (cell_weights d label cond l).
Proof.
  unfold cell_weights.
  repeat first
    [ apply settled_obind; [| intros ?]
    | apply settled_getitem_col | apply settled_getitem_mask
    | apply settled_int_truediv ].
  discriminate.
Qed.

Lemma settled_cardinality_limit (d : DataFrame) (s_vars : list string) :
  forall acc, settled (cardinality_limit d s_vars acc).
Proof.
  induction s_vars as [| s s_vars IH]; intros acc; simpl; [discriminate |].
  apply settled_obind; [apply settled_getitem_col | intros col; apply IH].
Qed.

Lemma halts_df_sample (df : DataFrame) : halts (df_sample df).
Proof. intros w. unfold df_sample. destruct (rows df); simpl; discriminate. Qed.

Lemma halts_resample (w_exp w_obs : float) (df : DataFrame) :
  halts (resample w_exp w_obs df).
Proof.
  unfold resample.
  apply halts_bind; [apply halts_lift, settled_float_truediv | intros ratio].
  destruct (PrimFloat.ltb 1 ratio).
  - apply halts_bind; [apply halts_df_sample | intros s; apply halts_ret].
  - apply halts_bind; [apply halts_lift, settled_float_truediv | intros ratio'].
    destruct (PrimFloat.ltb ratio' 1); [| apply halts_ret].
    apply halts_bind; [apply halts_df_sample | intros s; apply halts_ret].
Qed.

(** With a cap [k >= 0], fuel [k] is enough for the loop. *)
Lemma halts_balance_loop (w_exp : float) (tot_df : DataFrame) (rl : option Z)
    (dbg : bool) (k : Z) (fuel : nat) :
  forall w_obs disp df disparity i,
    (Z.of_nat i <= k)%Z -> (k <= Z.of_nat (fuel + i))%Z ->
    halts (balance_loop fuel w_exp tot_df rl dbg k w_obs disp df disparity i).
Proof.
  induction fuel as [| fuel IH]; intros w_obs disp df disparity i Hi Hk; simpl.
  - replace (Z.eqb (Z.of_nat i) k) with true by (symmetry; apply Z.eqb_eq; lia).
    rewrite andb_false_r. apply halts_ret.
  - destruct (Z.eqb (Z.of_nat i) k) eqn:E.
    + rewrite andb_false_r. apply halts_ret.
    + apply Z.eqb_neq in E. destruct (negb _ && negb false); [| apply halts_ret].
      apply halts_bind; [apply halts_resample | intros df'].
      apply halts_bind; [apply halts_lift, settled_int_truediv | intros w_obs'].
      apply halts_bind; [apply halts_lift, settled_compute_disp | intros disp'].
      apply halts_bind.
      * destruct dbg; [| apply halts_ret].
        apply halts_bind; [apply halts_lift, settled_float_truediv | intros r].
        intros w. simpl. discriminate.
      * intros _. apply IH; lia.
Qed.

Section Capped.

Variable seed2_order : nat -> list nat.
Variables (fuel : nat) (d : DataFrame) (s_vars : list string) (label : string)
          (rl : option Z) (dbg : bool) (stop : Z).
Hypothesis stop_nonneg : (0 <= stop)%Z.
Hypothesis enough_fuel : (stop <= Z.of_nat fuel)%Z.

Lemma halts_balance_set (w_exp w_obs : float) (g : DataFrame) :
  halts (balance_set fuel w_exp w_obs g d rl dbg stop).
Proof.
  unfold balance_set.
  apply halts_bind; [apply halts_lift, settled_compute_disp | intros disp].
  apply halts_balance_loop; lia.
Qed.

Lemma halts_balance_cell (cond : condition) acc (l : Z) :
  halts (balance_cell fuel d label rl dbg cond stop acc l).
Proof.
  unfold balance_cell. destruct acc as [[ds G] it].
  apply halts_bind; [apply halts_lift, settled_cell_weights | intros [[g w_exp] w_obs]].
  apply halts_bind; [apply halts_balance_set | intros [[g_new disp] k]].
  apply halts_ret.
Qed.

Lemma halts_sample_from (rest : list string) :
  forall i G cond,
    halts (sample_from seed2_order rest fuel d s_vars label rl dbg i G cond stop).
Proof.
  assert (Hleaf : forall G cond,
            halts (labels <- lift (getitem_col d label) ;;
                   '(_, G', iter') <-
                     for_each (balance_cell fuel d label rl dbg cond stop)
                              ([], G, 0) (np_unique labels) ;;
                   ret (Groups G' iter'))).
  { intros G cond.
    apply halts_bind; [apply halts_lift, settled_getitem_col | intros labels].
    apply halts_bind; [| intros [[ds G'] it]; apply halts_ret].
    apply halts_for_each. intros acc x. apply halts_balance_cell. }
  assert (Hunpack : forall r, halts (unpack2 r)).
  { intros [G k | df ds k]; simpl; [apply halts_ret |].
    apply halts_lift. discriminate. }
  induction rest as [| s rest IH]; intros i G cond; simpl.
  - destruct (Nat.eqb i (length s_vars)); [apply Hleaf |].
    apply halts_lift. discriminate.
  - destruct (Nat.eqb i (length s_vars)); [apply Hleaf |].
    apply halts_bind; [apply halts_lift, settled_getitem_col | intros col0].
    apply halts_bind; [apply IH | intros r1].
    apply halts_bind; [apply Hunpack | intros [G1 k1]].
    apply halts_bind; [apply halts_lift, settled_getitem_col | intros col1].
    apply halts_bind; [apply IH | intros r2].
    apply halts_bind; [apply Hunpack | intros [G2 k2]].
    apply halts_bind; [apply halts_lift, settled_cardinality_limit | intros limit].
    apply halts_bind; [apply halts_lift, settled_getitem_col | intros labels].
    destruct (Nat.eqb _ _); [| apply halts_ret].
    apply halts_bind; [| intros df; apply halts_ret].
    apply halts_lift. unfold assemble, settled.
    destruct (pop _) as [[last G'] |]; discriminate.
Qed.

End Capped.

Lemma halts_fit_transform (seed2_order : nat -> list nat) (fuel : nat) (self : DEMV)
    (d : DataFrame) (attrs : list string) (label : string) :
  (0 <= stop self)%Z -> (stop self <= Z.of_nat fuel)%Z ->
  halts (fit_transform seed2_order fuel self d attrs label).
Proof.
  intros H0 Hf. unfold fit_transform, sample.
  apply halts_bind; [apply halts_sample_from; assumption | intros r].
  apply halts_bind; [| intros [[df ds] k]; apply halts_ret].
  destruct r; simpl; [apply halts_lift; discriminate | apply halts_ret].
Qed.



(** ** More fuel changes nothing *)

Lemma extends_refl {A} (m : M A) : extends m m.
Proof. intros w _. reflexivity. Qed.

Lemma extends_bind {A B} (m m' : M A) (f f' : A -> M B) :
  extends m m' -> (forall a, extends (f a) (f' a)) ->
  extends (bind m f) (bind m' f').
Proof.
  intros Hm Hf w Hend. unfold bind in *.
  assert (Hmw : fst (m w) <> Diverge).
  { intros E. destruct (m w) as [[a | e | ] w1]; simpl in E; try discriminate.
    apply Hend. reflexivity. }
  rewrite (Hm w Hmw).
  destruct (m w) as [[a | e | ] w1]; try reflexivity.
  apply Hf. exact Hend.
Qed.

Lemma extends_for_each {A B} (f f' : A -> B -> M A) (l : list B) :
  (forall acc x, extends (f acc x) (f' acc x)) ->
  forall acc, extends (for_each f acc l) (for_each f' acc l).
Proof.
  intros Hf. induction l as [| x l IH]; intros acc; simpl.
  - apply extends_refl.
  - apply extends_bind; [apply Hf | intros acc'; apply IH].
Qed.

Section MoreFuel.

Variable seed2_order : nat -> list nat.
Variables (d : DataFrame) (s_vars : list string) (label : string)
          (rl : option Z) (dbg : bool) (stop : Z).

Lemma extends_balance_loop (w_exp : float) (fuel : nat) :
  forall fuel' w_obs disp df disparity i,
    fuel <= fuel' ->
    extends (balance_loop fuel w_exp d rl dbg stop w_obs disp df disparity i)
            (balance_loop fuel' w_exp d rl dbg stop w_obs disp df disparity i).
Proof.
  induction fuel as [| fuel IH]; intros fuel' w_obs disp df disparity i Hle.
  - destruct fuel' as [| fuel']; [apply extends_refl |].
    cbn [balance_loop]. destruct (negb _ && negb _).
    + intros w Hend. exfalso. apply Hend. reflexivity.
    + apply extends_refl.
  - destruct fuel' as [| fuel']; [lia |].
    cbn [balance_loop]. destruct (negb _ && negb _); [| apply extends_refl].
    apply extends_bind; [apply extends_refl | intros df'].
    apply extends_bind; [apply extends_refl | intros w_obs'].
    apply extends_bind; [apply extends_refl | intros disp'].
    apply extends_bind; [apply extends_refl | intros u].
    apply IH. lia.
Qed.

Lemma extends_balance_cell (fuel fuel' : nat) (cond : condition) acc (l : Z) :
  fuel <= fuel' ->
  extends (balance_cell fuel d label rl dbg cond stop acc l)
          (balance_cell fuel' d label rl dbg cond stop acc l).
Proof.
  intros Hle. unfold balance_cell. destruct acc as [[ds G] it].
  apply extends_bind; [apply extends_refl | intros [[g w_exp] w_obs]].
  apply extends_bind; [| intros r; apply extends_refl].
  unfold balance_set.
  apply extends_bind; [apply extends_refl | intros disp].
  apply extends_balance_loop. exact Hle.
Qed.

Lemma extends_sample_from (fuel fuel' : nat) (rest : list string) :
  fuel <= fuel' ->
  forall i G cond,
    extends (sample_from seed2_order rest fuel d s_vars label rl dbg i G cond stop)
            (sample_from seed2_order rest fuel' d s_vars label rl dbg i G cond stop).
Proof.
  intros Hle.
  assert (Hleaf : forall G cond,
            extends (labels <- lift (getitem_col d label) ;;
                     '(_, G', iter') <-
                       for_each (balance_cell fuel d label rl dbg cond stop)
                                ([], G, 0) (np_unique labels) ;;
                     ret (Groups G' iter'))
                    (labels <- lift (getitem_col d label) ;;
                     '(_, G', iter') <-
                       for_each (balance_cell fuel' d label rl dbg cond stop)
                                ([], G, 0) (np_unique labels) ;;
                     ret (Groups G' iter'))).
  { intros G cond.
    apply extends_bind; [apply extends_refl | intros labels].
    apply extends_bind; [| intros r; apply extends_refl].
    apply extends_for_each. intros acc x. apply extends_balance_cell. exact Hle. }
  induction rest as [| s rest IH]; intros i G cond; cbn [sample_from].
  - destruct (Nat.eqb i (length s_vars)); [apply Hleaf | apply extends_refl].
  - destruct (Nat.eqb i (length s_vars)); [apply Hleaf |].
    apply extends_bind; [apply extends_refl | intros col0].
    apply extends_bind; [apply IH | intros r1].
    apply extends_bind; [apply extends_refl | intros [G1 k1]].
    apply extends_bind; [apply extends_refl | intros col1].
    apply extends_bind; [apply IH | intros r2].
    apply extends_refl.
Qed.

End MoreFuel.

(** A run of [fit_transform] that has come to an end, with a dataset or an
    exception, is the same run under any larger fuel. *)
Lemma fit_transform_more_fuel (seed2_order : nat -> list nat) (fuel fuel' : nat)
    (self : DEMV) (d : DataFrame) (attrs : list string) (label : string) :
  fuel <= fuel' ->
  extends (fit_transform seed2_order fuel self d attrs label)
          (fit_transform seed2_order fuel' self d attrs label).
Proof.
  intros Hle. unfold fit_transform, sample.
  apply extends_bind; [apply extends_sample_from; exact Hle | intros r].
  apply extends_refl.
Qed.

(** ** The cap at zero: nothing is resampled *)

Lemma bind_run {A B} (m : M A) (f : A -> M B) (w w1 : World) (a : A) :
  m w = (Ok a, w1) -> bind m f w = f a w1.
Proof. intros H. unfold bind. rewrite H. reflexivity. Qed.

Lemma bind_lift {A B} (o : outcome A) (f : A -> M B) (w : World) (a : A) :
  o = Ok a -> bind (lift o) f w = f a w.
Proof. intros ->. reflexivity. Qed.

Lemma getitem_col_some (d : DataFrame) (s : string) :
  (exists j, column_position s (columns d) = Some j) ->
  getitem_col d s = Ok (column_values d s).
Proof.
  intros [j Hj]. unfold getitem_col, column_values, value. rewrite Hj. reflexivity.
Qed.

Lemma leaves_length (d : DataFrame) (label : string) (rest : list string) (cond : condition) :
  length (leaves d label rest cond) = 2 ^ length rest * length (labels_of d label).
Proof. rewrite leaves_keys, length_map. apply cell_keys_length. Qed.

Lemma product_twos (us : list nat) :
  Forall (fun u => u = 2) us -> product us = 2 ^ length us.
Proof.
  induction 1 as [| u us Hu _ IH]; [reflexivity |].
  cbn [length]. rewrite Nat.pow_succ_r'.
  change (product (u :: us)) with (u * product us). rewrite IH, Hu. reflexivity.
Qed.

Section StopZero.

Variable seed2_order : nat -> list nat.
Variables (fuel : nat) (d : DataFrame) (s_vars : list string) (label : string)
          (rl : option Z) (dbg : bool).

(** With [k = 0] the loop is not entered. *)
Lemma balance_set_stop0 (w_exp w_obs disp : float) (g : DataFrame) (w : World) :
  compute_disp w_exp w_obs rl = Ok disp ->
  balance_set fuel w_exp w_obs g d rl dbg 0 w = (Ok (g, [disp], 0), w).
Proof.
  intros Hd. unfold balance_set. rewrite (bind_lift _ _ _ _ Hd).
  destruct fuel; simpl; rewrite andb_false_r; reflexivity.
Qed.

Lemma for_each_stop0 (cond : condition) (ls : list Z) :
  forall ds G w,
    (forall l, In l ls -> disparity_defined d label rl (cond, l)) ->
    exists ds' cells,
      Forall2 (is_cell d label) (map (pair cond) ls) cells /\
      for_each (balance_cell fuel d label rl dbg cond 0) (ds, G, 0) ls w
        = (Ok (ds', G ++ cells, 0), w).
Proof.
  induction ls as [| l ls IH]; intros ds G w H.
  - exists ds, []. split; [constructor |]. simpl. rewrite app_nil_r. reflexivity.
  - destruct (H l (or_introl eq_refl)) as (g & w_exp & w_obs & disp & Hw & Hd).
    cbn [fst snd] in Hw.
    destruct (IH (ds ++ [[disp]]) (G ++ [g]) w) as (ds' & cells & HF & Hrun).
    { intros l' Hl'. apply H. right. assumption. }
    exists ds', (g :: cells). split.
    + constructor; [| assumption]. exists w_exp, w_obs. assumption.
    + assert (Hcell : balance_cell fuel d label rl dbg cond 0 (ds, G, 0) l w
                      = (Ok (ds ++ [[disp]], G ++ [g], 0), w)).
      { unfold balance_cell. rewrite (bind_lift _ _ _ _ Hw).
        rewrite (bind_run _ _ _ _ _ (balance_set_stop0 w_exp w_obs disp g w Hd)).
        reflexivity. }
      cbn [for_each]. rewrite (bind_run _ _ _ _ _ Hcell).
      rewrite Hrun, <- app_assoc. reflexivity.
Qed.

Hypothesis label_present : exists j, column_position label (columns d) = Some j.
Hypothesis limit_binary : cardinality_limit d s_vars 1 = Ok (2 ^ length s_vars).
Hypothesis some_label : labels_of d label <> [].

(** Below the root the cells come back as the pair [G, iter]; at the root
    their number passes the check and they are assembled. *)
Lemma sample_from_stop0 (rest : list string) :
  forall i cond w,
    i + length rest = length s_vars ->
    (forall s, In s rest -> exists j, column_position s (columns d) = Some j) ->
    (forall cl, In cl (leaves d label rest cond) -> disparity_defined d label rl cl) ->
    exists G,
      Forall2 (is_cell d label) (leaves d label rest cond) G /\
      (rest = [] \/ i <> 0 ->
       sample_from seed2_order rest fuel d s_vars label rl dbg i [] cond 0 w
         = (Ok (Groups G 0), w)) /\
      (rest <> [] -> i = 0 ->
       exists df, assemble seed2_order G = Ok df /\
         sample_from seed2_order rest fuel d s_vars label rl dbg i [] cond 0 w
           = (Ok (Assembled df [] 0), w)).
Proof.
  induction rest as [| s rest IH]; intros i cond w Hi Hp Hd.
  - simpl in Hi. cbn [leaves] in *.
    destruct (for_each_stop0 cond (labels_of d label) [] [] w) as (ds' & cells & HF & Hrun).
    { intros l Hl. apply Hd. apply in_map. assumption. }
    exists cells. split; [assumption |]. split; [| intros H; contradiction].
    intros _. cbn [sample_from].
    replace (Nat.eqb i (length s_vars)) with true by (symmetry; apply Nat.eqb_eq; lia).
    rewrite (bind_lift _ _ _ _ (getitem_col_some d label label_present)).
    fold (labels_of d label). unfold bind. rewrite Hrun. reflexivity.
  - cbn [length] in Hi. cbn [leaves] in *.
    set (c0 := cond_and cond (series_eq (column_values d s) 0%Z)) in *.
    set (c1 := cond_and cond (series_eq (column_values d s) 1%Z)) in *.
    assert (Hs : getitem_col d s = Ok (column_values d s))
      by (apply getitem_col_some, Hp; left; reflexivity).
    assert (Hp' : forall s', In s' rest -> exists j, column_position s' (columns d) = Some j)
      by (intros s' Hs'; apply Hp; right; assumption).
    destruct (IH (S i) c0 w) as (G0 & HF0 & Hg0 & _);
      [lia | assumption | intros cl Hcl; apply Hd, in_or_app; left; assumption |].
    destruct (IH (S i) c1 w) as (G1 & HF1 & Hg1 & _);
      [lia | assumption | intros cl Hcl; apply Hd, in_or_app; right; assumption |].
    specialize (Hg0 (or_intror (Nat.neq_succ_0 i))).
    specialize (Hg1 (or_intror (Nat.neq_succ_0 i))).
    exists (G0 ++ G1). split; [apply Forall2_app; assumption |].
    assert (Hrun : sample_from seed2_order (s :: rest) fuel d s_vars label rl dbg
                               i [] cond 0 w
                   = (if Nat.eqb (length (G0 ++ G1))
                                 (2 ^ length s_vars * length (labels_of d label))
                      then (df <- lift (assemble seed2_order (G0 ++ G1)) ;;
                            ret (Assembled df [] 0)) w
                      else (Ok (Groups (G0 ++ G1) 0), w))).
    { cbn [sample_from].
      replace (Nat.eqb i (length s_vars)) with false by (symmetry; apply Nat.eqb_neq; lia).
      rewrite (bind_lift _ _ _ _ Hs). fold c0.
      rewrite (bind_run _ _ _ _ _ Hg0). cbn [unpack2].
      unfold bind at 1. unfold ret at 1.
      rewrite (bind_lift _ _ _ _ Hs). fold c1.
      rewrite (bind_run _ _ _ _ _ Hg1). cbn [unpack2].
      unfold bind at 1. unfold ret at 1.
      rewrite (bind_lift _ _ _ _ limit_binary).
      rewrite (bind_lift _ _ _ _ (getitem_col_some d label label_present)).
      fold (labels_of d label). cbn [app Nat.max].
      destruct (Nat.eqb _ _); reflexivity. }
    assert (Hlen : length (G0 ++ G1)
                   = 2 ^ S (length rest) * length (labels_of d label)).
    { rewrite length_app, <- (Forall2_length HF0), <- (Forall2_length HF1).
      rewrite !leaves_length, Nat.pow_succ_r'. lia. }
    assert (HL : 0 < length (labels_of d label))
      by (destruct (labels_of d label); [contradiction | simpl; lia]).
    split.
    + intros [H | Hne]; [discriminate |].
      rewrite Hrun.
      replace (Nat.eqb _ _) with false; [reflexivity |].
      symmetry. apply Nat.eqb_neq. rewrite Hlen, <- Hi.
      replace (i + S (length rest)) with (S (length rest) + i) by lia.
      rewrite (Nat.pow_add_r 2 (S (length rest)) i).
      assert (2 <= 2 ^ i).
      { destruct i as [| i]; [contradiction |]. rewrite Nat.pow_succ_r'.
        assert (0 < 2 ^ i) by (apply Nat.neq_0_lt_0, Nat.pow_nonzero; lia). lia. }
      assert (0 < 2 ^ S (length rest))
        by (apply Nat.neq_0_lt_0, Nat.pow_nonzero; lia).
      nia.
    + intros _ ->. cbn [Nat.add] in Hi.
      rewrite Hrun. rewrite Hlen, Hi, Nat.eqb_refl.
      assert (Hne : G0 ++ G1 <> []).
      { intros E. rewrite E in Hlen. simpl in Hlen.
        assert (0 < 2 ^ length rest) by (apply Nat.neq_0_lt_0, Nat.pow_nonzero; lia).
        nia. }
      unfold assemble. destruct (pop (G0 ++ G1)) as [[last G'] |] eqn:E.
      * eexists. split; reflexivity.
      * apply pop_none in E. contradiction.
Qed.

End StopZero.

Lemma cell_weights_at_root (d : DataFrame) (label : string) (s : string)
    (attrs : list string) (b : Z) (bits : list Z) (l : Z) :
  (exists j, column_position label (columns d) = Some j) ->
  cell_weights d label (path_cond d (s :: attrs) (b :: bits) PyTrue) l
  = spec_cell_weights d (s :: attrs) (b :: bits) label l.
Proof.
  intros [j Hj]. rewrite path_cond_root.
  erewrite cell_weights_mask by exact Hj. reflexivity.
Qed.

Lemma exactly_two (l : list Z) :
  NoDup l -> In 0%Z l -> In 1%Z l ->
  (forall x, In x l -> x = 0%Z \/ x = 1%Z) ->
  length l = 2.
Proof.
  intros Hnd H0 H1 Hall.
  pose proof (proj1 (two_values l Hnd H0 H1)) as Hge.
  assert (incl l [0%Z; 1%Z]) as Hincl.
  { intros x Hx. destruct (Hall x Hx) as [-> | ->]; simpl; auto. }
  pose proof (NoDup_incl_length Hnd Hincl) as Hle. simpl in Hle. lia.
Qed.

Lemma Forall2_eq_map {A B} (f : A -> B) (l : list A) (l' : list B) :
  Forall2 (fun a b => b = f a) l l' -> l' = map f l.
Proof. induction 1 as [| a b l l' -> _ IH]; simpl; [| rewrite IH]; reflexivity. Qed.

Lemma cell_disparity_defined_nonempty (d : DataFrame) (attrs : list string)
    (label : string) (rl : option Z) (key : list Z * Z) :
  cell_disparity_defined d attrs label rl key ->
  rows (cell_frame d attrs label key) <> [].
Proof.
  intros (w_exp & w_obs & disp & Hw & Hd) Hnil.
  apply spec_cell_weights_ok in Hw. destruct Hw as [_ Hobs].
  apply compute_disp_nonzero in Hd.
  unfold len in Hobs at 1. rewrite Hnil in Hobs. simpl in Hobs.
  apply int_truediv_zero in Hobs. congruence.
Qed.

(** C3 (as amended). On a dataset with rows, with at least one protected
    attribute, whose protected attributes take no value other than 0 and 1,
    and all of whose 2^k * L cells have a defined disparity (so none is
    empty), [fit_transform] with [stop = 0] draws nothing, prints nothing,
    records 0 iterations and returns the rows of the input, permuted. *)
Theorem fit_transform_stop_zero (seed2_order : nat -> list nat) (fuel : nat)
    (self : DEMV) (d : DataFrame) (attrs : list string) (label : string) (w : World) :
  (forall n, Permutation (seed2_order n) (seq 0 n)) ->
  attrs <> [] ->
  rows d <> [] ->
  (exists j, column_position label (columns d) = Some j) ->
  (forall s, In s attrs -> exists j, column_position s (columns d) = Some j) ->
  (forall s r, In s attrs -> In r (rows d) -> value d s r = 0%Z \/ value d s r = 1%Z) ->
  (forall key, In key (cell_keys d (length attrs) label) ->
     cell_disparity_defined d attrs label (round_level self) key) ->
  stop self = 0%Z ->
  exists df_new,
    fit_transform seed2_order fuel self d attrs label w
      = (Ok (df_new, mkDEMV (round_level self) (debug self) 0 0 (Some [])), w) /\
    Permutation (rows df_new) (rows d).
Proof.
  intros Hperm Hne Hrows Hlabel Hattrs Hbin Hcells Hstop.
  assert (Hlab : labels_of d label <> []).
  { intros E. apply np_unique_nil in E. unfold column_values in E.
    apply map_eq_nil in E. contradiction. }
  assert (Hrow : forall key, In key (cell_keys d (length attrs) label) ->
            exists r, In r (rows d) /\
                      in_cell d attrs (fst key) label (snd key) r = true).
  { intros key Hkey. pose proof (cell_disparity_defined_nonempty _ _ _ _ _ (Hcells key Hkey)) as Hn.
    unfold cell_frame in Hn. cbn [rows] in Hn.
    destruct (filter _ (rows d)) as [| r rs] eqn:E; [contradiction |].
    assert (In r (filter (in_cell d attrs (fst key) label (snd key)) (rows d))) as Hin
      by (rewrite E; left; reflexivity).
    apply filter_In in Hin. exists r. exact Hin. }
  pose proof (nonempty_cells_values d label attrs Hlab Hrow) as Hvals.
  assert (Hcard : Forall (fun u => u = 2) (map (cardinality d) attrs)).
  { apply Forall_forall. intros u Hu. apply in_map_iff in Hu.
    destruct Hu as (s & <- & Hs). unfold cardinality.
    apply exactly_two.
    - apply np_unique_nodup.
    - apply np_unique_in. unfold column_values. apply in_map_iff.
      destruct (Hvals s 0%Z Hs (or_introl eq_refl)) as (r & Hr & Hv). exists r. auto.
    - apply np_unique_in. unfold column_values. apply in_map_iff.
      destruct (Hvals s 1%Z Hs (or_intror eq_refl)) as (r & Hr & Hv). exists r. auto.
    - intros x Hx. apply (proj1 (np_unique_in _ _)) in Hx. unfold column_values in Hx.
      apply in_map_iff in Hx. destruct Hx as (r & <- & Hr). apply Hbin; assumption. }
  assert (Hlimit : cardinality_limit d attrs 1 = Ok (2 ^ length attrs)).
  { rewrite (cardinality_limit_present d attrs 1 Hattrs).
    rewrite (product_twos _ Hcard), length_map. f_equal. lia. }
  destruct attrs as [| s attrs'] eqn:Eattrs; [contradiction |]. rewrite <- Eattrs in *.
  assert (Hkeybits : forall key, In key (cell_keys d (length attrs) label) ->
            exists b bits, fst key = b :: bits).
  { intros [bits l] Hkey. apply in_cell_keys in Hkey. destruct Hkey as [Hb _].
    apply in_paths in Hb. destruct Hb as [L _]. rewrite Eattrs in L.
    destruct bits as [| b bits]; [discriminate |]. exists b, bits. reflexivity. }
  assert (Hleaves : forall cl, In cl (leaves d label attrs PyTrue) ->
            disparity_defined d label (round_level self) cl).
  { intros cl Hcl. rewrite leaves_keys in Hcl. apply in_map_iff in Hcl.
    destruct Hcl as (key & <- & Hkey).
    destruct (Hkeybits key Hkey) as (b & bits & Eb).
    destruct (Hcells key Hkey) as (w_exp & w_obs & disp & Hw & Hd).
    exists (cell_frame d attrs label key), w_exp, w_obs, disp.
    split; [| assumption]. cbn [fst snd]. rewrite Eb, Eattrs.
    rewrite cell_weights_at_root by assumption.
    rewrite <- Eb, <- Eattrs. exact Hw. }
  destruct (sample_from_stop0 seed2_order fuel d attrs label (round_level self)
              (debug self) Hlabel Hlimit Hlab attrs 0 PyTrue w
              eq_refl Hattrs Hleaves) as (G & HF & _ & Hroot).
  destruct Hroot as (df & Hasm & Hrun); [rewrite Eattrs; discriminate | reflexivity |].
  exists df. split.
  - unfold fit_transform, sample. cbn [skipn]. rewrite Hstop.
    rewrite (bind_run _ _ _ _ _ Hrun). reflexivity.
  - rewrite (assemble_permutation seed2_order Hperm G df Hasm).
    assert (HG : G = map (cell_frame d attrs label) (cell_keys d (length attrs) label)).
    { apply Forall2_eq_map. rewrite leaves_keys in HF. apply Forall2_map_left in HF.
      eapply Forall2_impl_in; [| exact HF].
      intros key g Hkey (w_exp & w_obs & Hw). cbn [fst snd] in Hw.
      destruct (Hkeybits key Hkey) as (b & bits & Eb).
      rewrite Eb, Eattrs in Hw. rewrite cell_weights_at_root in Hw by assumption.
      rewrite <- Eb, <- Eattrs in Hw.
      apply spec_cell_weights_ok in Hw. destruct Hw as [-> _].
      destruct key; reflexivity. }
    rewrite HG, flat_map_concat_map, map_map, <- flat_map_concat_map.
    unfold cell_frame. cbn [rows].
    apply (partition_by_count (fun key => in_cell d attrs (fst key) label (snd key))).
    intros r Hr. apply count_keys.
    + intros s' Hs'. apply Hbin; assumption.
    + apply np_unique_in. unfold column_values. apply in_map. assumption.
Qed.

(** ** What a run of the balancer keeps *)

Lemma resample_ok_facts (w_exp w_obs : float) (df df' : DataFrame) (w w' : World) :
  resample w_exp w_obs df w = (Ok df', w') ->
  incl (rows df') (rows df) /\
  columns df' = columns df /\
  length (rows df') <= S (length (rows df)) /\
  stream w' = stream w /\
  stdout w' = stdout w /\
  cursor w <= cursor w' <= S (cursor w).
Proof.
  unfold resample. intros Hrun. pure_ok Hrun as ratio Hr.
  destruct (PrimFloat.ltb 1 ratio).
  - step_ok Hrun as s w1 Hs. apply ret_ok in Hrun. destruct Hrun as [-> ->].
    apply df_sample_ok in Hs. destruct Hs as (Hin & Hc & Hst & Ho).
    unfold df_append. cbn [rows columns]. repeat split; try assumption; try lia.
    + intros r Hr'. apply in_app_or in Hr'. destruct Hr' as [Hr' | [<- | []]]; assumption.
    + rewrite length_app. simpl. lia.
  - pure_ok Hrun as ratio' Hr'.
    destruct (PrimFloat.ltb ratio' 1).
    + step_ok Hrun as s w1 Hs. apply ret_ok in Hrun. destruct Hrun as [-> ->].
      apply df_sample_ok in Hs. destruct Hs as (Hin & Hc & Hst & Ho).
      unfold df_drop. cbn [rows columns]. repeat split; try assumption; try lia.
      * intros r Hr0. apply filter_In in Hr0. apply Hr0.
      * pose proof (filter_length_le (fun r => negb (Z.eqb (index r) (index s))) (rows df)).
        lia.
    + apply ret_ok in Hrun. destruct Hrun as [-> ->].
      repeat split; try reflexivity; try lia. apply incl_refl.
Qed.

Section LoopFacts.

Variables (w_exp : float) (tot_df : DataFrame) (round_level : option Z)
          (debug : bool) (k : Z).

(** What the loop has done when it returns after [i' - i] more iterations:
    one more trace entry per iteration, rows taken from the group it
    started from, at most one row more and one draw per iteration, one
    printed value per iteration when [debug] is set and none otherwise. *)
Lemma balance_loop_ok_facts (fuel : nat) :
  forall w_obs disp df disparity i w df' trace i' w',
    balance_loop fuel w_exp tot_df round_level debug k w_obs disp df disparity i w
      = (Ok (df', trace, i'), w') ->
    i <= i' /\
    length trace = length disparity + (i' - i) /\
    incl (rows df') (rows df) /\
    columns df' = columns df /\
    length (rows df') <= length (rows df) + (i' - i) /\
    stream w' = stream w /\
    cursor w <= cursor w' <= cursor w + (i' - i) /\
    (exists out, stdout w' = stdout w ++ out /\
                 length out = if debug then i' - i else 0) /\
    ((Z.of_nat i <= k)%Z -> (Z.of_nat i' <= k)%Z).
Proof.
  induction fuel as [| fuel IH]; intros w_obs disp df disparity i w df' trace i' w' Hrun;
    cbn [balance_loop] in Hrun.
  - destruct (negb _ && negb _); [discriminate |].
    apply ret_ok in Hrun. destruct Hrun as [E ->]. inversion E; subst.
    rewrite Nat.sub_diag, !Nat.add_0_r. repeat split; try lia; try apply incl_refl.
    exists []. rewrite app_nil_r. split; [reflexivity | destruct debug; reflexivity].
  - destruct (negb (PrimFloat.eqb disp 1) && negb (Z.eqb (Z.of_nat i) k)) eqn:Econd.
    + apply andb_prop in Econd. destruct Econd as [_ Ek].
      apply negb_true_iff in Ek. apply Z.eqb_neq in Ek.
      step_ok Hrun as df1 w1 Hres.
      pure_ok Hrun as w_obs1 Hobs.
      pure_ok Hrun as disp1 Hdisp.
      step_ok Hrun as u w2 Hprint.
      apply resample_ok_facts in Hres.
      destruct Hres as (Hincl & Hcols & Hlen & Hstream & Hout & Hcur).
      apply IH in Hrun.
      destruct Hrun as (Hi & Htr & Hincl' & Hcols' & Hlen' & Hstream' & Hcur' & Hout' & Hcap).
      assert (Hp : stream w2 = stream w1 /\ cursor w2 = cursor w1 /\
                   exists o, stdout w2 = stdout w1 ++ o /\
                             length o = if debug then 1 else 0).
      { destruct debug.
        - pure_ok Hprint as r Hr. unfold print in Hprint. inversion Hprint; subst.
          cbn [stream cursor stdout]. repeat split. exists [r]. split; reflexivity.
        - apply ret_ok in Hprint. destruct Hprint as [_ ->].
          repeat split. exists []. rewrite app_nil_r. split; reflexivity. }
      destruct Hp as (Hs2 & Hc2 & o & Ho2 & Hlo).
      destruct Hout' as (out & Hout' & Hlout).
      rewrite length_app in Htr. cbn [length] in Htr.
      repeat split; try lia.
      * intros r Hr. apply Hincl, Hincl'. assumption.
      * congruence.
      * congruence.
      * exists (o ++ out). split.
        -- rewrite Hout', Ho2, Hout, app_assoc. reflexivity.
        -- rewrite length_app, Hlo, Hlout. destruct debug; lia.
    + apply ret_ok in Hrun. destruct Hrun as [E ->]. inversion E; subst.
      rewrite Nat.sub_diag, !Nat.add_0_r. repeat split; try lia; try apply incl_refl.
      exists []. rewrite app_nil_r. split; [reflexivity | destruct debug; reflexivity].
Qed.

(** Why the loop has stopped: the last disparity is 1, or the cap is reached. *)
Lemma balance_loop_exit_reason (fuel : nat) :
  forall w_obs disp df pre i w df' trace i' w',
    balance_loop fuel w_exp tot_df round_level debug k w_obs disp df
                 (pre ++ [disp]) i w = (Ok (df', trace, i'), w') ->
    exists pre' d,
      trace = pre' ++ [d] /\
      (PrimFloat.eqb d 1 = true \/ Z.of_nat i' = k).
Proof.
  induction fuel as [| fuel IH]; intros w_obs disp df pre i w df' trace i' w' Hrun;
    cbn [balance_loop] in Hrun.
  - destruct (PrimFloat.eqb disp 1) eqn:E1; cbn [negb andb] in Hrun.
    + apply ret_ok in Hrun. destruct Hrun as [E _]. inversion E; subst.
      exists pre, disp. split; [reflexivity | left; assumption].
    + destruct (Z.eqb (Z.of_nat i) k) eqn:E2; cbn [negb] in Hrun; [| discriminate].
      apply ret_ok in Hrun. destruct Hrun as [E _]. inversion E; subst.
      exists pre, disp. split; [reflexivity | right; apply Z.eqb_eq; assumption].
  - destruct (PrimFloat.eqb disp 1) eqn:E1; cbn [negb andb] in Hrun.
    + apply ret_ok in Hrun. destruct Hrun as [E _]. inversion E; subst.
      exists pre, disp. split; [reflexivity | left; assumption].
    + destruct (Z.eqb (Z.of_nat i) k) eqn:E2; cbn [negb] in Hrun.
      * apply ret_ok in Hrun. destruct Hrun as [E _]. inversion E; subst.
        exists pre, disp. split; [reflexivity | right; apply Z.eqb_eq; assumption].
      * step_ok Hrun as df1 w1 Hres.
        pure_ok Hrun as w_obs1 Hobs.
        pure_ok Hrun as disp1 Hdisp.
        step_ok Hrun as u w2 Hprint.
        exact (IH _ _ _ (pre ++ [disp]) _ _ _ _ _ _ Hrun).
Qed.

(** A group whose weight is observed from its own size is never returned
    empty: the disparity of an empty group cannot be computed. *)
Lemma balance_loop_nonempty (fuel : nat) :
  forall w_obs disp df disparity i w df' trace i' w',
    int_truediv (len df) (len tot_df) = Ok w_obs ->
    compute_disp w_exp w_obs round_level = Ok disp ->
    balance_loop fuel w_exp tot_df round_level debug k w_obs disp df disparity i w
      = (Ok (df', trace, i'), w') ->
    rows df' <> [].
Proof.
  induction fuel as [| fuel IH]; intros w_obs disp df disparity i w df' trace i' w'
    Hobs Hdisp Hrun; cbn [balance_loop] in Hrun.
  - destruct (negb _ && negb _); [discriminate |].
    apply ret_ok in Hrun. destruct Hrun as [E _]. inversion E; subst.
    intros Hnil. apply compute_disp_nonzero in Hdisp.
    unfold len in Hobs at 1. rewrite Hnil in Hobs. simpl in Hobs.
    apply int_truediv_zero in Hobs. congruence.
  - destruct (negb _ && negb _).
    + step_ok Hrun as df1 w1 Hres.
      pure_ok Hrun as w_obs1 Hobs1.
      pure_ok Hrun as disp1 Hdisp1.
      step_ok Hrun as u w2 Hprint.
      exact (IH _ _ _ _ _ _ _ _ _ _ Hobs1 Hdisp1 Hrun).
    + apply ret_ok in Hrun. destruct Hrun as [E _]. inversion E; subst.
      intros Hnil. apply compute_disp_nonzero in Hdisp.
      unfold len in Hobs at 1. rewrite Hnil in Hobs. simpl in Hobs.
      apply int_truediv_zero in Hobs. congruence.
Qed.

End LoopFacts.


(** X1. When [balance_set] returns, its trace holds the initial disparity
    and one more per iteration: [len(disparity) = i + 1]. *)
Theorem balance_set_trace_length (fuel : nat) (w_exp w_obs : float)
    (df tot_df : DataFrame) (round_level : option Z) (debug : bool) (k : Z)
    (w w' : World) (df' : DataFrame) (trace : list float) (i : nat) :
  balance_set fuel w_exp w_obs df tot_df round_level debug k w
    = (Ok (df', trace, i), w') ->
  length trace = S i.
Proof.
  unfold balance_set. intros Hrun. pure_ok Hrun as disp Hdisp.
  apply balance_loop_ok_facts in Hrun.
  destruct Hrun as (_ & Htr & _). simpl in Htr. lia.
Qed.

(** X2. When [balance_set] returns under a cap [k >= 0], it has made at most
    [k] iterations; and, capped or not, it has stopped because the last
    disparity of the trace is 1 or because the iteration count is [k]. *)
Theorem balance_set_cap (fuel : nat) (w_exp w_obs : float)
    (df tot_df : DataFrame) (round_level : option Z) (debug : bool) (k : Z)
    (w w' : World) (df' : DataFrame) (trace : list float) (i : nat) :
  balance_set fuel w_exp w_obs df tot_df round_level debug k w
    = (Ok (df', trace, i), w') ->
  ((0 <= k)%Z -> (Z.of_nat i <= k)%Z) /\
  exists pre d,
    trace = pre ++ [d] /\ (PrimFloat.eqb d 1 = true \/ Z.of_nat i = k).
Proof.
  unfold balance_set. intros Hrun. pure_ok Hrun as disp Hdisp. split.
  - intros Hk. apply balance_loop_ok_facts in Hrun.
    destruct Hrun as (_ & _ & _ & _ & _ & _ & _ & _ & Hcap). apply Hcap. simpl. exact Hk.
  - exact (balance_loop_exit_reason w_exp tot_df round_level debug k fuel
             w_obs disp df [] 0 w df' trace i w' Hrun).
Qed.

(** X3. A group whose initial disparity already equals 1 is returned as it
    is, with the one-element trace, after 0 iterations, without a draw and
    without output, whatever the cap. *)
Theorem balance_set_already_balanced (fuel : nat) (w_exp w_obs disp : float)
    (df tot_df : DataFrame) (round_level : option Z) (debug : bool) (k : Z)
    (w : World) :
  compute_disp w_exp w_obs round_level = Ok disp ->
  PrimFloat.eqb disp 1 = true ->
  balance_set fuel w_exp w_obs df tot_df round_level debug k w
    = (Ok (df, [disp], 0), w).
Proof.
  intros Hd H1. unfold balance_set. rewrite (bind_lift _ _ _ _ Hd).
  destruct fuel; cbn [balance_loop]; rewrite H1; reflexivity.
Qed.

(** X4. The group [balance_set] returns is made of rows of the group it was
    given (copies included, nothing new), under the same columns. *)
Theorem balance_set_rows_from_group (fuel : nat) (w_exp w_obs : float)
    (df tot_df : DataFrame) (round_level : option Z) (debug : bool) (k : Z)
    (w w' : World) (df' : DataFrame) (trace : list float) (i : nat) :
  balance_set fuel w_exp w_obs df tot_df round_level debug k w
    = (Ok (df', trace, i), w') ->
  incl (rows df') (rows df) /\ columns df' = columns df.
Proof.
  unfold balance_set. intros Hrun. pure_ok Hrun as disp Hdisp.
  apply balance_loop_ok_facts in Hrun.
  destruct Hrun as (_ & _ & Hincl & Hcols & _). split; assumption.
Qed.

(** X5. The group [balance_set] returns has at most [i] rows more than the
    group it was given, [i] being the number of iterations; and it has at
    least one row when the observed weight handed in was
    [len(group) / len(tot_df)]. *)
Theorem balance_set_size (fuel : nat) (w_exp w_obs : float)
    (df tot_df : DataFrame) (round_level : option Z) (debug : bool) (k : Z)
    (w w' : World) (df' : DataFrame) (trace : list float) (i : nat) :
  balance_set fuel w_exp w_obs df tot_df round_level debug k w
    = (Ok (df', trace, i), w') ->
  length (rows df') <= length (rows df) + i /\
  (int_truediv (len df) (len tot_df) = Ok w_obs -> rows df' <> []).
Proof.
  unfold balance_set. intros Hrun. pure_ok Hrun as disp Hdisp. split.
  - apply balance_loop_ok_facts in Hrun.
    destruct Hrun as (_ & _ & _ & _ & Hlen & _). lia.
  - intros Hobs.
    exact (balance_loop_nonempty w_exp tot_df round_level debug k fuel
             w_obs disp df [disp] 0 w df' trace i w' Hobs Hdisp Hrun).
Qed.

(** X6. A returning [balance_set] has drawn at most one row per iteration
    from the global generator, and has printed exactly one value per
    iteration when [debug] is set, nothing otherwise. *)
Theorem balance_set_effects (fuel : nat) (w_exp w_obs : float)
    (df tot_df : DataFrame) (round_level : option Z) (debug : bool) (k : Z)
    (w w' : World) (df' : DataFrame) (trace : list float) (i : nat) :
  balance_set fuel w_exp w_obs df tot_df round_level debug k w
    = (Ok (df', trace, i), w') ->
  cursor w <= cursor w' <= cursor w + i /\
  exists out, stdout w' = stdout w ++ out /\
              length out = if debug then i else 0.
Proof.
  unfold balance_set. intros Hrun. pure_ok Hrun as disp Hdisp.
  apply balance_loop_ok_facts in Hrun.
  destruct Hrun as (_ & _ & _ & _ & _ & _ & Hcur & (out & Hout & Hlen) & _).
  split; [lia |]. exists out. split; [assumption |].
  rewrite Hlen. destruct debug; [lia | reflexivity].
Qed.

(** X7. The oversampling branch appends a copy of one row of the group:
    the group grows by exactly that row. *)
Theorem resample_oversample_copy (w_exp w_obs ratio : float) (df df' : DataFrame)
    (w w' : World) :
  float_truediv w_exp w_obs = Ok ratio ->
  PrimFloat.ltb 1 ratio = true ->
  resample w_exp w_obs df w = (Ok df', w') ->
  exists s, In s (rows df) /\ rows df' = rows df ++ [s] /\ columns df' = columns df.
Proof.
  intros Hr Hgt Hrun. unfold resample in Hrun.
  pure_ok Hrun as r0 Hr0. rewrite Hr in Hr0. inversion Hr0; subst r0.
  rewrite Hgt in Hrun.
  step_ok Hrun as s w1 Hs. apply ret_ok in Hrun. destruct Hrun as [-> _].
  apply df_sample_ok in Hs. destruct Hs as (Hin & _).
  exists s. repeat split. assumption.
Qed.

(** X8. On a group whose index labels are pairwise distinct the
    undersampling branch removes exactly one row, keeps the others in their
    order, and leaves the labels pairwise distinct. *)
Theorem resample_undersample_distinct (w_exp w_obs ratio : float) (df df' : DataFrame)
    (w w' : World) :
  NoDup (map index (rows df)) ->
  float_truediv w_exp w_obs = Ok ratio ->
  PrimFloat.ltb 1 ratio = false ->
  PrimFloat.ltb ratio 1 = true ->
  resample w_exp w_obs df w = (Ok df', w') ->
  S (length (rows df')) = length (rows df) /\
  NoDup (map index (rows df')) /\
  exists s, In s (rows df) /\
            rows df' = filter (fun r => negb (Z.eqb (index r) (index s))) (rows df).
Proof.
  intros Hnd Hr Hgt Hlt Hrun.
  pose proof (resample_undersample_unique _ _ _ _ _ _ _ Hnd Hr Hgt Hlt Hrun) as Hlen.
  unfold resample in Hrun.
  pure_ok Hrun as r0 Hr0. rewrite Hr in Hr0. inversion Hr0; subst r0.
  rewrite Hgt in Hrun.
  pure_ok Hrun as r1 Hr1. rewrite Hr in Hr1. inversion Hr1; subst r1.
  rewrite Hlt in Hrun.
  step_ok Hrun as s w1 Hs. apply ret_ok in Hrun. destruct Hrun as [-> _].
  apply df_sample_ok in Hs. destruct Hs as (Hin & _).
  split; [exact Hlen | split].
  - unfold df_drop. cbn [rows]. clear - Hnd.
    induction (rows df) as [| r rs IH]; simpl; [constructor |].
    inversion Hnd as [| ? ? Hnotin Hnd']; subst.
    destruct (negb (Z.eqb (index r) (index s))); simpl; [| apply IH; assumption].
    constructor; [| apply IH; assumption].
    intros Hin. apply Hnotin. apply in_map_iff in Hin.
    destruct Hin as (x & Hx & Hxin). apply filter_In in Hxin.
    apply in_map_iff. exists x. split; [assumption | apply Hxin].
  - exists s. split; [assumption | reflexivity].
Qed.


(** ** What the returned dataset is made of *)

Lemma Forall2_in_right {A B} (P : A -> B -> Prop) (l : list A) (l' : list B) (b : B) :
  Forall2 P l l' -> In b l' -> exists a, In a l /\ P a b.
Proof.
  intros HF. induction HF as [| a0 b0 l l' Hab HF IH]; intros Hin; [destruct Hin |].
  destruct Hin as [<- | Hin].
  - exists a0. split; [left; reflexivity | assumption].
  - destruct (IH Hin) as (a' & Ha' & HP). exists a'. split; [right |]; assumption.
Qed.

Lemma Forall2_and_right {A B} (P : A -> B -> Prop) (Q : B -> Prop)
    (l : list A) (l' : list B) :
  Forall2 P l l' -> Forall Q l' -> Forall2 (fun a b => P a b /\ Q b) l l'.
Proof.
  induction 1 as [| a b l l' Hab _ IH]; intros HQ; [constructor |].
  inversion HQ; subst. constructor; auto.
Qed.

Lemma take_incl (order : list nat) (rs : list Row) : incl (take order rs) rs.
Proof.
  intros r Hr. unfold take in Hr. apply in_flat_map in Hr.
  destruct Hr as (j & _ & Hj).
  destruct (nth_error rs j) as [r' |] eqn:E; [| destruct Hj].
  destruct Hj as [<- | []]. exact (nth_error_In _ _ E).
Qed.

Lemma list_max_in (l : list nat) : l <> [] -> In (list_max l) l.
Proof.
  induction l as [| x l IH]; intros Hne; [contradiction |].
  destruct l as [| y l].
  - simpl. left. lia.
  - change (list_max (x :: y :: l)) with (Nat.max x (list_max (y :: l))).
    destruct (Nat.max_spec x (list_max (y :: l))) as [[_ ->] | [_ ->]].
    + right. apply IH. discriminate.
    + left. reflexivity.
Qed.

Lemma assemble_from (seed2_order : nat -> list nat) (G : list DataFrame) (df : DataFrame) :
  assemble seed2_order G = Ok df ->
  incl (rows df) (flat_map rows G) /\
  exists last, In last G /\ columns df = columns last.
Proof.
  unfold assemble. destruct (pop G) as [[last G'] |] eqn:E; intros H; [| discriminate].
  inversion H; subst; clear H. apply pop_some in E. subst G. split.
  - unfold df_shuffle, df_append_all. cbn [rows].
    intros r Hr. apply take_incl in Hr.
    rewrite flat_map_app. simpl. rewrite app_nil_r.
    apply in_or_app. apply in_app_or in Hr. tauto.
  - exists last. split; [apply in_or_app; right; left; reflexivity | reflexivity].
Qed.

(** What balancing a cell leaves of it: rows of the cell, under the columns
    of the dataset, at least one, at most one more per iteration, and no
    more iterations than the cap allows. *)
Lemma balanced_cell_facts (fuel : nat) (d : DataFrame) (label : string)
    (rl : option Z) (dbg : bool) (stop : Z) (attrs : list string)
    (key : list Z * Z) (gk : DataFrame * nat) :
  balanced_cell fuel d label rl dbg stop attrs key gk ->
  incl (rows (fst gk)) (rows (cell_frame d attrs label key)) /\
  columns (fst gk) = columns d /\
  rows (fst gk) <> [] /\
  length (rows (fst gk)) <= length (rows (cell_frame d attrs label key)) + snd gk /\
  ((0 <= stop)%Z -> (Z.of_nat (snd gk) <= stop)%Z).
Proof.
  intros (w_exp & w_obs & trace & w1 & w2 & Hw & Hrun).
  apply spec_cell_weights_ok in Hw. destruct Hw as [_ Hobs].
  unfold balance_set in Hrun. pure_ok Hrun as disp Hdisp.
  pose proof (balance_loop_nonempty _ _ _ _ _ _ _ _ _ _ _ _ _ _ _ _ Hobs Hdisp Hrun) as Hne.
  apply balance_loop_ok_facts in Hrun.
  destruct Hrun as (_ & _ & Hincl & Hcols & Hlen & _ & _ & _ & Hcap).
  rewrite Nat.sub_0_r in Hlen.
  split; [assumption | split; [assumption | split; [assumption | split; [assumption |]]]].
  intros Hk. apply Hcap. simpl. exact Hk.
Qed.

Lemma cell_frame_incl (d : DataFrame) (attrs : list string) (label : string)
    (key : list Z * Z) :
  incl (rows (cell_frame d attrs label key)) (rows d).
Proof. intros r Hr. unfold cell_frame in Hr. cbn [rows] in Hr. apply filter_In in Hr. apply Hr. Qed.

(** Sizes of the balanced groups against sizes of their cells. *)
Lemma balanced_sizes {K} (cell_rows : K -> list Row) (m : nat)
    (keys : list K) (res : list (DataFrame * nat)) :
  Forall2 (fun key gk =>
             rows (fst gk) <> [] /\
             length (rows (fst gk)) <= length (cell_rows key) + snd gk /\
             snd gk <= m) keys res ->
  length res <= length (flat_map rows (map fst res)) /\
  length (flat_map rows (map fst res))
    <= length (flat_map cell_rows keys) + length res * m.
Proof.
  induction 1 as [| key gk keys res (Hne & Hlen & Hm) _ IH]; [simpl; lia |].
  cbn [map flat_map length]. rewrite !length_app.
  destruct (rows (fst gk)) as [| r rs] eqn:E; [contradiction |].
  cbn [length] in *. nia.
Qed.

Section Output.

Variable seed2_order : nat -> list nat.

Variables (fuel : nat) (self : DEMV) (d : DataFrame)
          (attrs : list string) (label : string).

(** X9. Every row of a returned dataset is a row of the input, index label
    and cells, and its columns are those of the input: [fit_transform]
    copies and removes rows, it makes none. *)
Theorem fit_transform_rows_from_input (w w' : World) (df_new : DataFrame) (self' : DEMV) :
  fit_transform seed2_order fuel self d attrs label w = (Ok (df_new, self'), w') ->
  incl (rows df_new) (rows d) /\ columns df_new = columns d.
Proof.
  intros Hrun. apply fit_transform_ok_inv in Hrun.
  destruct Hrun as (res & limit & _ & HF & _ & _ & Hasm & _).
  apply assemble_from in Hasm. destruct Hasm as (Hincl & last & Hlast & Hcols).
  assert (Hgk : forall g, In g (map fst res) ->
            incl (rows g) (rows d) /\ columns g = columns d).
  { intros g Hg. apply in_map_iff in Hg. destruct Hg as (gk & <- & Hgk).
    destruct (Forall2_in_right _ _ _ _ HF Hgk) as (key & _ & Hb).
    apply balanced_cell_facts in Hb. destruct Hb as (Hi & Hc & _).
    split; [| exact Hc].
    intros r Hr. exact (cell_frame_incl _ _ _ _ _ (Hi r Hr)). }
  split.
  - intros r Hr. apply Hincl in Hr. apply in_flat_map in Hr.
    destruct Hr as (g & Hg & Hr). exact (proj1 (Hgk g Hg) r Hr).
  - rewrite Hcols. exact (proj2 (Hgk last Hlast)).
Qed.

(** X10. After a successful call the object keeps its three settings, and
    [get_iters] is the largest number of iterations any cell took: some
    cell took exactly that many, none took more; under a cap [stop >= 0] it
    is at most [stop]. *)
Theorem fit_transform_iterations (w w' : World) (df_new : DataFrame) (self' : DEMV) :
  fit_transform seed2_order fuel self d attrs label w = (Ok (df_new, self'), w') ->
  (round_level self' = round_level self /\ debug self' = debug self /\
   stop self' = stop self) /\
  ((0 <= stop self)%Z -> (Z.of_nat (get_iters self') <= stop self)%Z) /\
  exists res,
    Forall2 (balanced_cell fuel d label (round_level self) (debug self) (stop self) attrs)
            (cell_keys d (length attrs) label) res /\
    Forall (fun gk => snd gk <= get_iters self') res /\
    Exists (fun gk => snd gk = get_iters self') res.
Proof.
  intros Hrun. apply fit_transform_ok_inv in Hrun.
  destruct Hrun as (res & limit & _ & HF & _ & _ & Hasm & ->).
  unfold get_iters. cbn [round_level debug stop iter].
  assert (Hres : map snd res <> []).
  { destruct res; [unfold assemble in Hasm; simpl in Hasm; discriminate | discriminate]. }
  pose proof (list_max_in _ Hres) as Hmax. apply in_map_iff in Hmax.
  destruct Hmax as (gk0 & Hgk0 & Hin0).
  split; [repeat split |]. split.
  - intros Hk. destruct (Forall2_in_right _ _ _ _ HF Hin0) as (key & _ & Hb).
    apply balanced_cell_facts in Hb. destruct Hb as (_ & _ & _ & _ & Hcap).
    rewrite <- Hgk0. apply Hcap. exact Hk.
  - exists res. split; [exact HF |]. split.
    + apply Forall_forall. intros gk Hgk.
      assert (Hle : Forall (fun k => k <= list_max (map snd res)) (map snd res))
        by (apply list_max_le; lia).
      rewrite Forall_forall in Hle. apply Hle. apply in_map. assumption.
    + apply Exists_exists. exists gk0. split; assumption.
Qed.

Hypothesis seed2_order_permutation :
  forall n, Permutation (seed2_order n) (seq 0 n).

(** X11. A returned dataset has at least one row per cell, [2^k * L] of
    them, and at most [get_iters] rows per cell more than the input. *)
Theorem fit_transform_size (w w' : World) (df_new : DataFrame) (self' : DEMV) :
  fit_transform seed2_order fuel self d attrs label w = (Ok (df_new, self'), w') ->
  2 ^ length attrs * length (labels_of d label) <= length (rows df_new) /\
  length (rows df_new)
    <= length (rows d) + 2 ^ length attrs * length (labels_of d label) * get_iters self'.
Proof.
  intros Hrun.
  destruct (fit_transform_ok_binary _ _ _ _ _ _ _ _ _ _ Hrun) as [Hlab Hbin].
  apply fit_transform_ok_inv in Hrun.
  destruct Hrun as (res & limit & _ & HF & _ & _ & Hasm & ->).
  unfold get_iters. cbn [iter].
  pose proof (Forall2_length HF) as HL. rewrite cell_keys_length in HL.
  rewrite (Permutation_length (assemble_permutation seed2_order seed2_order_permutation _ _ Hasm)).
  assert (Hcells : Permutation
                     (flat_map (fun key => rows (cell_frame d attrs label key))
                               (cell_keys d (length attrs) label))
                     (rows d)).
  { unfold cell_frame. cbn [rows].
    apply (partition_by_count (fun key => in_cell d attrs (fst key) label (snd key))).
    intros r Hr. apply count_keys.
    - intros s Hs. apply (proj2 (Hbin s Hs)). assumption.
    - apply np_unique_in. unfold column_values. apply in_map. assumption. }
  rewrite <- (Permutation_length Hcells), HL.
  apply (balanced_sizes (fun key => rows (cell_frame d attrs label key))
                        (list_max (map snd res))).
  assert (Hle : Forall (fun gk : DataFrame * nat => snd gk <= list_max (map snd res)) res).
  { apply Forall_forall. intros gk Hgk.
    assert (Hall : Forall (fun k => k <= list_max (map snd res)) (map snd res))
      by (apply list_max_le; lia).
    rewrite Forall_forall in Hall. apply Hall. apply in_map. assumption. }
  eapply Forall2_impl_in; [| exact (Forall2_and_right _ _ _ _ HF Hle)].
  intros key gk _ [Hb Hm].
  pose proof (balanced_cell_facts _ _ _ _ _ _ _ _ _ Hb) as (_ & _ & Hne & Hlen & _).
  repeat split; assumption.
Qed.

End Output.

(** ** Calls that cannot start *)

Lemma getitem_col_none (d : DataFrame) (s : string) :
  column_position s (columns d) = None -> getitem_col d s = Raise KeyError.
Proof. intros H. unfold getitem_col. rewrite H. reflexivity. Qed.

Lemma column_present_dec (d : DataFrame) (s : string) :
  column_position s (columns d) = None \/
  exists j, column_position s (columns d) = Some j.
Proof. destruct (column_position s (columns d)) as [j |]; [right; exists j |left]; reflexivity. Qed.

Section Errors.

Variable seed2_order : nat -> list nat.
Variables (fuel : nat) (d : DataFrame) (s_vars : list string) (label : string)
          (rl : option Z) (dbg : bool) (stop : Z).

(** The first column that is not there stops the recursion where it is
    read: [d[s]] on the way down, [d[label]] in the base case. *)
Lemma sample_from_missing_column (rest : list string) :
  forall i G cond w,
    i + length rest = length s_vars ->
    column_position label (columns d) = None \/
    (exists s, In s rest /\ column_position s (columns d) = None) ->
    sample_from seed2_order rest fuel d s_vars label rl dbg i G cond stop w
      = (Raise KeyError, w).
Proof.
  induction rest as [| s rest IH]; intros i G cond w Hi Hmiss.
  - destruct Hmiss as [Hl | (s & [] & _)].
    simpl in Hi. cbn [sample_from].
    replace (Nat.eqb i (length s_vars)) with true by (symmetry; apply Nat.eqb_eq; lia).
    rewrite (getitem_col_none _ _ Hl). reflexivity.
  - cbn [length] in Hi. cbn [sample_from].
    replace (Nat.eqb i (length s_vars)) with false by (symmetry; apply Nat.eqb_neq; lia).
    destruct (column_present_dec d s) as [Hs | Hs].
    + rewrite (getitem_col_none _ _ Hs). reflexivity.
    + rewrite (bind_lift _ _ _ _ (getitem_col_some d s Hs)).
      unfold bind at 1. rewrite IH; [reflexivity | lia |].
      destruct Hmiss as [Hl | (s' & [<- | Hin] & Hs')].
      * left. assumption.
      * destruct Hs as [j Hj]. congruence.
      * right. exists s'. split; assumption.
Qed.

Hypothesis no_rows : rows d = [].
Hypothesis present : columns_present d s_vars label.

Lemma labels_of_no_rows : labels_of d label = [].
Proof. unfold labels_of, column_values. rewrite no_rows. reflexivity. Qed.

(** On a frame without rows the base case has no label to loop over and
    hands [G] back; one level up the two empty lists pass the count check,
    [0 == limit * 0], and [G.pop()] finds nothing. *)
Lemma sample_from_no_rows (rest : list string) :
  forall i cond w,
    i + length rest = length s_vars ->
    (forall s, In s rest -> exists j, column_position s (columns d) = Some j) ->
    sample_from seed2_order rest fuel d s_vars label rl dbg i [] cond stop w
      = match rest with
        | [] => (Ok (Groups [] 0), w)
        | _ :: _ => (Raise IndexError, w)
        end.
Proof.
  destruct present as [Hlabel Hattrs].
  induction rest as [| s rest IH]; intros i cond w Hi Hp.
  - simpl in Hi. cbn [sample_from].
    replace (Nat.eqb i (length s_vars)) with true by (symmetry; apply Nat.eqb_eq; lia).
    rewrite (bind_lift _ _ _ _ (getitem_col_some d label Hlabel)).
    fold (labels_of d label). rewrite labels_of_no_rows. reflexivity.
  - cbn [length] in Hi. cbn [sample_from].
    replace (Nat.eqb i (length s_vars)) with false by (symmetry; apply Nat.eqb_neq; lia).
    assert (Hs : getitem_col d s = Ok (column_values d s))
      by (apply getitem_col_some, Hp; left; reflexivity).
    assert (Hp' : forall s', In s' rest -> exists j, column_position s' (columns d) = Some j)
      by (intros s' Hs'; apply Hp; right; assumption).
    rewrite (bind_lift _ _ _ _ Hs).
    unfold bind at 1. rewrite IH by (lia || assumption).
    destruct rest as [| s' rest']; [| reflexivity].
    cbn [unpack2]. unfold bind at 1. unfold ret at 1.
    rewrite (bind_lift _ _ _ _ Hs).
    unfold bind at 1. rewrite IH by (lia || assumption).
    cbn [unpack2]. unfold bind at 1. unfold ret at 1.
    rewrite (bind_lift _ _ _ _ (cardinality_limit_present d s_vars 1 Hattrs)).
    rewrite (bind_lift _ _ _ _ (getitem_col_some d label Hlabel)).
    fold (labels_of d label). rewrite labels_of_no_rows.
    cbn [app length]. rewrite Nat.mul_0_r. reflexivity.
Qed.

End Errors.

(** X12. When the label column or the column of a protected attribute is
    missing, [fit_transform] raises [KeyError]; nothing has been drawn or
    printed by then. *)
Theorem fit_transform_missing_column (seed2_order : nat -> list nat) (fuel : nat)
    (self : DEMV) (d : DataFrame) (attrs : list string) (label : string) (w : World) :
  column_position label (columns d) = None \/
  (exists s, In s attrs /\ column_position s (columns d) = None) ->
  fit_transform seed2_order fuel self d attrs label w = (Raise KeyError, w).
Proof.
  intros Hmiss. unfold fit_transform, sample. cbn [skipn]. unfold bind at 1.
  rewrite sample_from_missing_column; [reflexivity | reflexivity | assumption].
Qed.

(** X13. On a dataset without rows, with at least one protected attribute
    and all columns there, [fit_transform] raises [IndexError] (the [pop]
    from the empty list of groups); nothing has been drawn or printed. *)
Theorem fit_transform_no_rows (seed2_order : nat -> list nat) (fuel : nat)
    (self : DEMV) (d : DataFrame) (attrs : list string) (label : string) (w : World) :
  rows d = [] ->
  attrs <> [] ->
  columns_present d attrs label ->
  fit_transform seed2_order fuel self d attrs label w = (Raise IndexError, w).
Proof.
  intros Hrows Hne Hp. unfold fit_transform, sample. cbn [skipn]. unfold bind at 1.
  rewrite (sample_from_no_rows seed2_order fuel d attrs label (round_level self)
             (debug self) (stop self) Hrows Hp attrs 0 PyTrue w eq_refl (proj2 Hp)).
  destruct attrs; [contradiction | reflexivity].
Qed.

(** ** Nothing is printed unless [debug] is set *)

Lemma silent_ret {A} (a : A) : silent (ret a).
Proof. intros w. reflexivity. Qed.

Lemma silent_lift {A} (o : outcome A) : silent (lift o).
Proof. intros w. reflexivity. Qed.

Lemma silent_bind {A B} (m : M A) (f : A -> M B) :
  silent m -> (forall a, silent (f a)) -> silent (bind m f).
Proof.
  intros Hm Hf w. unfold bind. specialize (Hm w).
  destruct (m w) as [[a | e | ] w1]; simpl in *; [| assumption | assumption].
  rewrite (Hf a w1). assumption.
Qed.

Lemma silent_df_sample (df : DataFrame) : silent (df_sample df).
Proof. intros w. unfold df_sample. destruct (rows df); reflexivity. Qed.

Lemma silent_for_each {A B} (f : A -> B -> M A) (l : list B) :
  (forall a b, silent (f a b)) -> forall acc, silent (for_each f acc l).
Proof.
  intros Hf. induction l as [| x l IH]; intros acc; simpl.
  - apply silent_ret.
  - apply silent_bind; [apply Hf | assumption].
Qed.

Lemma silent_resample (w_exp w_obs : float) (df : DataFrame) :
  silent (resample w_exp w_obs df).
Proof.
  unfold resample. apply silent_bind; [apply silent_lift | intros ratio].
  destruct (PrimFloat.ltb 1 ratio).
  - apply silent_bind; [apply silent_df_sample | intros s; apply silent_ret].
  - apply silent_bind; [apply silent_lift | intros ratio'].
    destruct (PrimFloat.ltb ratio' 1).
    + apply silent_bind; [apply silent_df_sample | intros s; apply silent_ret].
    + apply silent_ret.
Qed.

Lemma silent_balance_loop (fuel : nat) (w_exp : float) (tot_df : DataFrame)
    (rl : option Z) (k : Z) :
  forall w_obs disp df disparity i,
    silent (balance_loop fuel w_exp tot_df rl false k w_obs disp df disparity i).
Proof.
  induction fuel as [| fuel IH]; intros w_obs disp df disparity i; cbn [balance_loop];
    destruct (negb _ && negb _); try apply silent_ret; try apply silent_lift.
  apply silent_bind; [apply silent_resample | intros df'].
  apply silent_bind; [apply silent_lift | intros w_obs'].
  apply silent_bind; [apply silent_lift | intros disp'].
  apply silent_bind; [apply silent_ret | intros _]. apply IH.
Qed.

Lemma silent_balance_set (fuel : nat) (w_exp w_obs : float) (df tot_df : DataFrame)
    (rl : option Z) (k : Z) :
  silent (balance_set fuel w_exp w_obs df tot_df rl false k).
Proof.
  unfold balance_set. apply silent_bind; [apply silent_lift | intros disp].
  apply silent_balance_loop.
Qed.

Lemma silent_sample_from (seed2_order : nat -> list nat) (fuel : nat) (d : DataFrame)
    (s_vars : list string) (label : string) (rl : option Z) (stop : Z)
    (rest : list string) :
  forall i G cond,
    silent (sample_from seed2_order rest fuel d s_vars label rl false i G cond stop).
Proof.
  assert (Hbase : forall G cond,
            silent (labels <- lift (getitem_col d label) ;;
                    '(_, G', iter') <- for_each (balance_cell fuel d label rl false cond stop)
                                                ([], G, 0) (np_unique labels) ;;
                    ret (Groups G' iter'))).
  { intros G cond. apply silent_bind; [apply silent_lift | intros labels].
    apply silent_bind.
    - apply silent_for_each. intros [[ds G0] it] l. unfold balance_cell.
      apply silent_bind; [apply silent_lift | intros [[g w_exp] w_obs]].
      apply silent_bind; [apply silent_balance_set | intros [[g_new disp] k]].
      apply silent_ret.
    - intros [[ds G'] it']. apply silent_ret. }
  induction rest as [| s rest IH]; intros i G cond; cbn [sample_from];
    destruct (Nat.eqb i (length s_vars)); try apply Hbase; try apply silent_lift.
  apply silent_bind; [apply silent_lift | intros col0].
  apply silent_bind; [apply IH | intros r1].
  apply silent_bind; [destruct r1; [apply silent_ret | apply silent_lift] | intros [G1 k1]].
  apply silent_bind; [apply silent_lift | intros col1].
  apply silent_bind; [apply IH | intros r2].
  apply silent_bind; [destruct r2; [apply silent_ret | apply silent_lift] | intros [G2 k2]].
  apply silent_bind; [apply silent_lift | intros limit].
  apply silent_bind; [apply silent_lift | intros labels].
  destruct (Nat.eqb _ _); [| apply silent_ret].
  apply silent_bind; [apply silent_lift | intros df; apply silent_ret].
Qed.

(** X14. With [debug] off [fit_transform] writes nothing to the standard
    output, whether it returns, raises or runs on. *)
Theorem fit_transform_silent (seed2_order : nat -> list nat) (fuel : nat)
    (self : DEMV) (d : DataFrame) (attrs : list string) (label : string) :
  debug self = false ->
  silent (fit_transform seed2_order fuel self d attrs label).
Proof.
  intros Hdbg. unfold fit_transform, sample. rewrite Hdbg.
  apply silent_bind; [apply silent_sample_from | intros r].
  apply silent_bind.
  - destruct r; [apply silent_lift | apply silent_ret].
  - intros [[df ds] k]. apply silent_ret.
Qed.


(** ** A dataset that is balanced already *)

Section Idle.

Variable seed2_order : nat -> list nat.
Variables (fuel : nat) (d : DataFrame) (s_vars : list string) (label : string)
          (rl : option Z) (dbg : bool) (stop : Z).

Lemma for_each_idle (cond : condition) (ls : list Z) :
  forall ds G w,
    (forall l, In l ls -> at_parity d label rl (cond, l)) ->
    exists ds' cells,
      Forall2 (is_cell d label) (map (pair cond) ls) cells /\
      for_each (balance_cell fuel d label rl dbg cond stop) (ds, G, 0) ls w
        = (Ok (ds', G ++ cells, 0), w).
Proof.
  induction ls as [| l ls IH]; intros ds G w H.
  - exists ds, []. split; [constructor |]. simpl. rewrite app_nil_r. reflexivity.
  - destruct (H l (or_introl eq_refl)) as (g & w_exp & w_obs & disp & Hw & Hd & H1).
    cbn [fst snd] in Hw.
    destruct (IH (ds ++ [[disp]]) (G ++ [g]) w) as (ds' & cells & HF & Hrun).
    { intros l' Hl'. apply H. right. assumption. }
    exists ds', (g :: cells). split.
    + constructor; [| assumption]. exists w_exp, w_obs. assumption.
    + assert (Hbal : balance_set fuel w_exp w_obs g d rl dbg stop w
                     = (Ok (g, [disp], 0), w)).
      { unfold balance_set. rewrite (bind_lift _ _ _ _ Hd).
        destruct fuel; cbn [balance_loop]; rewrite H1; reflexivity. }
      assert (Hcell : balance_cell fuel d label rl dbg cond stop (ds, G, 0) l w
                      = (Ok (ds ++ [[disp]], G ++ [g], 0), w)).
      { unfold balance_cell. rewrite (bind_lift _ _ _ _ Hw).
        rewrite (bind_run _ _ _ _ _ Hbal). reflexivity. }
      cbn [for_each]. rewrite (bind_run _ _ _ _ _ Hcell).
      rewrite Hrun, <- app_assoc. reflexivity.
Qed.

Hypothesis label_present : exists j, column_position label (columns d) = Some j.
Hypothesis limit_binary : cardinality_limit d s_vars 1 = Ok (2 ^ length s_vars).
Hypothesis some_label : labels_of d label <> [].

Lemma sample_from_idle (rest : list string) :
  forall i cond w,
    i + length rest = length s_vars ->
    (forall s, In s rest -> exists j, column_position s (columns d) = Some j) ->
    (forall cl, In cl (leaves d label rest cond) -> at_parity d label rl cl) ->
    exists G,
      Forall2 (is_cell d label) (leaves d label rest cond) G /\
      (rest = [] \/ i <> 0 ->
       sample_from seed2_order rest fuel d s_vars label rl dbg i [] cond stop w
         = (Ok (Groups G 0), w)) /\
      (rest <> [] -> i = 0 ->
       exists df, assemble seed2_order G = Ok df /\
         sample_from seed2_order rest fuel d s_vars label rl dbg i [] cond stop w
           = (Ok (Assembled df [] 0), w)).
Proof.
  induction rest as [| s rest IH]; intros i cond w Hi Hp Hd.
  - simpl in Hi. cbn [leaves] in *.
    destruct (for_each_idle cond (labels_of d label) [] [] w) as (ds' & cells & HF & Hrun).
    { intros l Hl. apply Hd. apply in_map. assumption. }
    exists cells. split; [assumption |]. split; [| intros H; contradiction].
    intros _. cbn [sample_from].
    replace (Nat.eqb i (length s_vars)) with true by (symmetry; apply Nat.eqb_eq; lia).
    rewrite (bind_lift _ _ _ _ (getitem_col_some d label label_present)).
    fold (labels_of d label). unfold bind. rewrite Hrun. reflexivity.
  - cbn [length] in Hi. cbn [leaves] in *.
    set (c0 := cond_and cond (series_eq (column_values d s) 0%Z)) in *.
    set (c1 := cond_and cond (series_eq (column_values d s) 1%Z)) in *.
    assert (Hs : getitem_col d s = Ok (column_values d s))
      by (apply getitem_col_some, Hp; left; reflexivity).
    assert (Hp' : forall s', In s' rest -> exists j, column_position s' (columns d) = Some j)
      by (intros s' Hs'; apply Hp; right; assumption).
    destruct (IH (S i) c0 w) as (G0 & HF0 & Hg0 & _);
      [lia | assumption | intros cl Hcl; apply Hd, in_or_app; left; assumption |].
    destruct (IH (S i) c1 w) as (G1 & HF1 & Hg1 & _);
      [lia | assumption | intros cl Hcl; apply Hd, in_or_app; right; assumption |].
    specialize (Hg0 (or_intror (Nat.neq_succ_0 i))).
    specialize (Hg1 (or_intror (Nat.neq_succ_0 i))).
    exists (G0 ++ G1). split; [apply Forall2_app; assumption |].
    assert (Hrun : sample_from seed2_order (s :: rest) fuel d s_vars label rl dbg
                               i [] cond stop w
                   = (if Nat.eqb (length (G0 ++ G1))
                                 (2 ^ length s_vars * length (labels_of d label))
                      then (df <- lift (assemble seed2_order (G0 ++ G1)) ;;
                            ret (Assembled df [] 0)) w
                      else (Ok (Groups (G0 ++ G1) 0), w))).
    { cbn [sample_from].
      replace (Nat.eqb i (length s_vars)) with false by (symmetry; apply Nat.eqb_neq; lia).
      rewrite (bind_lift _ _ _ _ Hs). fold c0.
      rewrite (bind_run _ _ _ _ _ Hg0). cbn [unpack2].
      unfold bind at 1. unfold ret at 1.
      rewrite (bind_lift _ _ _ _ Hs). fold c1.
      rewrite (bind_run _ _ _ _ _ Hg1). cbn [unpack2].
      unfold bind at 1. unfold ret at 1.
      rewrite (bind_lift _ _ _ _ limit_binary).
      rewrite (bind_lift _ _ _ _ (getitem_col_some d label label_present)).
      fold (labels_of d label). cbn [app Nat.max].
      destruct (Nat.eqb _ _); reflexivity. }
    assert (Hlen : length (G0 ++ G1)
                   = 2 ^ S (length rest) * length (labels_of d label)).
    { rewrite length_app, <- (Forall2_length HF0), <- (Forall2_length HF1).
      rewrite !leaves_length, Nat.pow_succ_r'. lia. }
    assert (HL : 0 < length (labels_of d label))
      by (destruct (labels_of d label); [contradiction | simpl; lia]).
    split.
    + intros [H | Hne]; [discriminate |].
      rewrite Hrun.
      replace (Nat.eqb _ _) with false; [reflexivity |].
      symmetry. apply Nat.eqb_neq. rewrite Hlen, <- Hi.
      replace (i + S (length rest)) with (S (length rest) + i) by lia.
      rewrite (Nat.pow_add_r 2 (S (length rest)) i).
      assert (2 <= 2 ^ i).
      { destruct i as [| i]; [contradiction |]. rewrite Nat.pow_succ_r'.
        assert (0 < 2 ^ i) by (apply Nat.neq_0_lt_0, Nat.pow_nonzero; lia). lia. }
      assert (0 < 2 ^ S (length rest))
        by (apply Nat.neq_0_lt_0, Nat.pow_nonzero; lia).
      nia.
    + intros _ ->. cbn [Nat.add] in Hi.
      rewrite Hrun. rewrite Hlen, Hi, Nat.eqb_refl.
      assert (Hne : G0 ++ G1 <> []).
      { intros E. rewrite E in Hlen. simpl in Hlen.
        assert (0 < 2 ^ length rest) by (apply Nat.neq_0_lt_0, Nat.pow_nonzero; lia).
        nia. }
      unfold assemble. destruct (pop (G0 ++ G1)) as [[last G'] |] eqn:E.
      * eexists. split; reflexivity.
      * apply pop_none in E. contradiction.
Qed.

End Idle.

Lemma cell_at_parity_nonempty (d : DataFrame) (attrs : list string)
    (label : string) (rl : option Z) (key : list Z * Z) :
  cell_at_parity d attrs label rl key ->
  exists r, In r (rows d) /\ in_cell d attrs (fst key) label (snd key) r = true.
Proof.
  intros (w_exp & w_obs & disp & Hw & Hd & _).
  apply spec_cell_weights_ok in Hw. destruct Hw as [_ Hobs].
  apply compute_disp_nonzero in Hd.
  unfold len in Hobs at 1. unfold cell_frame in Hobs. cbn [rows] in Hobs.
  destruct (filter _ (rows d)) as [| r rs] eqn:E.
  - simpl in Hobs. apply int_truediv_zero in Hobs. congruence.
  - assert (In r (filter (in_cell d attrs (fst key) label (snd key)) (rows d))) as Hin
      by (rewrite E; left; reflexivity).
    apply filter_In in Hin. exists r. exact Hin.
Qed.

(** On binary attributes of which every combination with a label occurs,
    the cardinality check expects [2^k] combinations. *)
Lemma cardinality_limit_binary (d : DataFrame) (attrs : list string) (label : string) :
  labels_of d label <> [] ->
  (forall s, In s attrs -> exists j, column_position s (columns d) = Some j) ->
  (forall s r, In s attrs -> In r (rows d) -> value d s r = 0%Z \/ value d s r = 1%Z) ->
  (forall key, In key (cell_keys d (length attrs) label) ->
     exists r, In r (rows d) /\ in_cell d attrs (fst key) label (snd key) r = true) ->
  cardinality_limit d attrs 1 = Ok (2 ^ length attrs).
Proof.
  intros Hlab Hattrs Hbin Hrow.
  pose proof (nonempty_cells_values d label attrs Hlab Hrow) as Hvals.
  assert (Hcard : Forall (fun u => u = 2) (map (cardinality d) attrs)).
  { apply Forall_forall. intros u Hu. apply in_map_iff in Hu.
    destruct Hu as (s & <- & Hs). unfold cardinality.
    apply exactly_two.
    - apply np_unique_nodup.
    - apply np_unique_in. unfold column_values. apply in_map_iff.
      destruct (Hvals s 0%Z Hs (or_introl eq_refl)) as (r & Hr & Hv). exists r. auto.
    - apply np_unique_in. unfold column_values. apply in_map_iff.
      destruct (Hvals s 1%Z Hs (or_intror eq_refl)) as (r & Hr & Hv). exists r. auto.
    - intros x Hx. apply (proj1 (np_unique_in _ _)) in Hx. unfold column_values in Hx.
      apply in_map_iff in Hx. destruct Hx as (r & <- & Hr). apply Hbin; assumption. }
  rewrite (cardinality_limit_present d attrs 1 Hattrs).
  rewrite (product_twos _ Hcard), length_map. f_equal. lia.
Qed.

(** X15. A dataset with binary protected attributes all of whose cells
    have disparity 1 goes through [fit_transform] untouched, whatever the
    cap: no row is drawn, nothing is printed, 0 iterations are recorded and
    the rows come back permuted. *)
Theorem fit_transform_already_balanced (seed2_order : nat -> list nat) (fuel : nat)
    (self : DEMV) (d : DataFrame) (attrs : list string) (label : string) (w : World) :
  (forall n, Permutation (seed2_order n) (seq 0 n)) ->
  attrs <> [] ->
  rows d <> [] ->
  columns_present d attrs label ->
  (forall s r, In s attrs -> In r (rows d) -> value d s r = 0%Z \/ value d s r = 1%Z) ->
  (forall key, In key (cell_keys d (length attrs) label) ->
     cell_at_parity d attrs label (round_level self) key) ->
  exists df_new,
    fit_transform seed2_order fuel self d attrs label w
      = (Ok (df_new, mkDEMV (round_level self) (debug self) (stop self) 0 (Some [])), w) /\
    Permutation (rows df_new) (rows d).
Proof.
  intros Hperm Hne Hrows [Hlabel Hattrs] Hbin Hcells.
  assert (Hlab : labels_of d label <> []).
  { intros E. apply np_unique_nil in E. unfold column_values in E.
    apply map_eq_nil in E. contradiction. }
  assert (Hlimit : cardinality_limit d attrs 1 = Ok (2 ^ length attrs)).
  { apply (cardinality_limit_binary d attrs label); try assumption.
    intros key Hkey. exact (cell_at_parity_nonempty _ _ _ _ _ (Hcells key Hkey)). }
  destruct attrs as [| s attrs'] eqn:Eattrs; [contradiction |]. rewrite <- Eattrs in *.
  assert (Hkeybits : forall key, In key (cell_keys d (length attrs) label) ->
            exists b bits, fst key = b :: bits).
  { intros [bits l] Hkey. apply in_cell_keys in Hkey. destruct Hkey as [Hb _].
    apply in_paths in Hb. destruct Hb as [L _]. rewrite Eattrs in L.
    destruct bits as [| b bits]; [discriminate |]. exists b, bits. reflexivity. }
  assert (Hleaves : forall cl, In cl (leaves d label attrs PyTrue) ->
            at_parity d label (round_level self) cl).
  { intros cl Hcl. rewrite leaves_keys in Hcl. apply in_map_iff in Hcl.
    destruct Hcl as (key & <- & Hkey).
    destruct (Hkeybits key Hkey) as (b & bits & Eb).
    destruct (Hcells key Hkey) as (w_exp & w_obs & disp & Hw & Hd & H1).
    exists (cell_frame d attrs label key), w_exp, w_obs, disp.
    split; [| split; assumption]. cbn [fst snd]. rewrite Eb, Eattrs.
    rewrite cell_weights_at_root by assumption.
    rewrite <- Eb, <- Eattrs. exact Hw. }
  destruct (sample_from_idle seed2_order fuel d attrs label (round_level self)
              (debug self) (stop self) Hlabel Hlimit Hlab attrs 0 PyTrue w
              eq_refl Hattrs Hleaves) as (G & HF & _ & Hroot).
  destruct Hroot as (df & Hasm & Hrun); [rewrite Eattrs; discriminate | reflexivity |].
  exists df. split.
  - unfold fit_transform, sample. cbn [skipn].
    rewrite (bind_run _ _ _ _ _ Hrun). reflexivity.
  - rewrite (assemble_permutation seed2_order Hperm G df Hasm).
    assert (HG : G = map (cell_frame d attrs label) (cell_keys d (length attrs) label)).
    { apply Forall2_eq_map. rewrite leaves_keys in HF. apply Forall2_map_left in HF.
      eapply Forall2_impl_in; [| exact HF].
      intros key g Hkey (w_exp & w_obs & Hw). cbn [fst snd] in Hw.
      destruct (Hkeybits key Hkey) as (b & bits & Eb).
      rewrite Eb, Eattrs in Hw. rewrite cell_weights_at_root in Hw by assumption.
      rewrite <- Eb, <- Eattrs in Hw.
      apply spec_cell_weights_ok in Hw. destruct Hw as [-> _].
      destruct key; reflexivity. }
    rewrite HG, flat_map_concat_map, map_map, <- flat_map_concat_map.
    unfold cell_frame. cbn [rows].
    apply (partition_by_count (fun key => in_cell d attrs (fst key) label (snd key))).
    intros r Hr. apply count_keys.
    + intros s' Hs'. apply Hbin; assumption.
    + apply np_unique_in. unfold column_values. apply in_map. assumption.
Qed.


(** ** The base case, the cap and the object's state *)

(** X16. In its base case ([i = len(s_vars)]) [sample] never assembles:
    on success it returns the pair, whose list is the [G] it was given
    followed by one balanced group per label value, in increasing order of
    the label values, and whose count is the largest number of iterations
    of these groups. *)
Theorem sample_base_case (seed2_order : nat -> list nat) (fuel : nat) (d : DataFrame)
    (s_vars : list string) (label : string) (rl : option Z) (dbg : bool)
    (G : list DataFrame) (cond : condition) (stop : Z)
    (w w' : World) (r : sample_result) :
  sample seed2_order fuel d s_vars label rl dbg (length s_vars) G cond stop w
    = (Ok r, w') ->
  exists res,
    Forall2 (balanced fuel d label rl dbg stop)
            (map (pair cond) (labels_of d label)) res /\
    r = Groups (G ++ map fst res) (list_max (map snd res)).
Proof.
  unfold sample. rewrite skipn_all. cbn [sample_from]. rewrite Nat.eqb_refl.
  intros Hrun. pure_ok Hrun as labels Hl. apply getitem_col_values in Hl. subst labels.
  step_ok Hrun as acc w1 Hacc. destruct acc as [[ds' G'] it'].
  apply ret_ok in Hrun. destruct Hrun as [-> _].
  apply for_each_cells in Hacc. destruct Hacc as (res & HF & -> & ->).
  exists res. split; [exact HF | reflexivity].
Qed.

(** X17. Under a cap [stop >= 0] a call comes to an end, each cell after at
    most [stop] iterations: it returns a dataset or raises. *)
Theorem fit_transform_capped_ends (seed2_order : nat -> list nat) (fuel : nat)
    (self : DEMV) (d : DataFrame) (attrs : list string) (label : string) (w : World) :
  (0 <= stop self)%Z -> (stop self <= Z.of_nat fuel)%Z ->
  (exists x, fst (fit_transform seed2_order fuel self d attrs label w) = Ok x) \/
  (exists e, fst (fit_transform seed2_order fuel self d attrs label w) = Raise e).
Proof.
  intros H0 Hf.
  pose proof (halts_fit_transform seed2_order fuel self d attrs label H0 Hf w) as Hh.
  destruct (fst (fit_transform seed2_order fuel self d attrs label w)) as [x | e | ].
  - left. exists x. reflexivity.
  - right. exists e. reflexivity.
  - contradiction.
Qed.

(** X18. [fit_transform] reads the three settings of the object and
    nothing else: what an earlier call left in [iter] and [disparities]
    has no influence on the next call, which overwrites both. *)
Theorem fit_transform_forgets_state (seed2_order : nat -> list nat) (fuel : nat)
    (self1 self2 : DEMV) (d : DataFrame) (attrs : list string) (label : string)
    (w : World) :
  round_level self1 = round_level self2 ->
  debug self1 = debug self2 ->
  stop self1 = stop self2 ->
  fit_transform seed2_order fuel self1 d attrs label w
    = fit_transform seed2_order fuel self2 d attrs label w.
Proof.
  intros Hr Hd Hs. unfold fit_transform. rewrite Hr, Hd, Hs. reflexivity.
Qed.


(** ** The split into features and labels *)

Lemma cells_where_length (keep : string -> bool) (cols : list string) :
  forall cs, length cs = length cols ->
    length (cells_where keep cols cs) = length (filter keep cols).
Proof.
  induction cols as [| c cols IH]; intros cs L; destruct cs as [| v cs];
    try discriminate; [reflexivity |].
  simpl in *. destruct (keep c); simpl; rewrite IH by lia; reflexivity.
Qed.

Lemma cells_where_split (keep : string -> bool) (cols : list string) :
  forall cs, length cs = length cols ->
    length (cells_where (fun c => negb (keep c)) cols cs)
    + length (cells_where keep cols cs) = length cols.
Proof.
  induction cols as [| c cols IH]; intros cs L; destruct cs as [| v cs];
    try discriminate; [reflexivity |].
  simpl in *. specialize (IH cs ltac:(lia)).
  destruct (keep c); simpl; lia.
Qed.

Lemma restore_cells (keep : string -> bool) (cols : list string) :
  forall cs, length cs = length cols ->
    restore (map keep cols) (cells_where (fun c => negb (keep c)) cols cs)
            (cells_where keep cols cs) = cs.
Proof.
  induction cols as [| c cols IH]; intros cs L; destruct cs as [| v cs];
    try discriminate; [reflexivity |].
  simpl in *. destruct (keep c); simpl; rewrite IH by lia; reflexivity.
Qed.

Lemma split_ok (df_train df_test : DataFrame) (label : string)
    (x_train x_test : list (list Z)) (y_train y_test : list Z) :
  _train_test_split df_train df_test label = Ok (x_train, x_test, y_train, y_test) ->
  drop_values df_train label = Ok x_train /\
  label_values df_train label = Ok y_train /\
  drop_values df_test label = Ok x_test /\
  label_values df_test label = Ok y_test.
Proof.
  unfold _train_test_split. intros H.
  apply obind_ok in H. destruct H as (a & Ha & H).
  apply obind_ok in H. destruct H as (b & Hb & H).
  apply obind_ok in H. destruct H as (c & Hc & H).
  apply obind_ok in H. destruct H as (e & He & H).
  inversion H; subst. repeat split; assumption.
Qed.

Lemma drop_values_ok (df : DataFrame) (label : string) (x : list (list Z)) :
  drop_values df label = Ok x ->
  x = map (fun r => cells_where (fun c => negb (String.eqb label c))
                                (columns df) (cells r)) (rows df).
Proof.
  unfold drop_values. destruct (column_position label (columns df)); intros H;
    inversion H. reflexivity.
Qed.

Lemma label_values_ok (df : DataFrame) (label : string) (y : list Z) :
  label_values df label = Ok y ->
  y = flat_map (fun r => cells_where (String.eqb label) (columns df) (cells r)) (rows df).
Proof.
  unfold label_values. destruct (column_position label (columns df)); intros H;
    inversion H. reflexivity.
Qed.

Lemma split_shape (df : DataFrame) (label : string) :
  well_formed df ->
  length (map (fun r => cells_where (fun c => negb (String.eqb label c))
                                    (columns df) (cells r)) (rows df))
    = length (rows df) /\
  Forall (fun x => length x + label_columns df label = length (columns df))
         (map (fun r => cells_where (fun c => negb (String.eqb label c))
                                    (columns df) (cells r)) (rows df)) /\
  length (flat_map (fun r => cells_where (String.eqb label) (columns df) (cells r))
                   (rows df))
    = length (rows df) * label_columns df label.
Proof.
  unfold well_formed, label_columns. intros Hwf. split; [apply length_map |].
  induction Hwf as [| r rs Hr _ [IH1 IH2]]; simpl; [split; [constructor | reflexivity] |].
  split.
  - constructor; [| exact IH1].
    rewrite <- (cells_where_length (String.eqb label) (columns df) (cells r) Hr).
    apply cells_where_split. exact Hr.
  - rewrite length_app, IH2, (cells_where_length _ _ _ Hr). reflexivity.
Qed.

Lemma firstn_skipn_app (l1 l2 : list Z) (n : nat) :
  length l1 = n -> firstn n (l1 ++ l2) = l1 /\ skipn n (l1 ++ l2) = l2.
Proof.
  intros <-. split.
  - rewrite firstn_app, Nat.sub_diag, firstn_all. simpl. apply app_nil_r.
  - rewrite skipn_app, Nat.sub_diag, skipn_all. reflexivity.
Qed.

(** Features and labels, the labels cut into one piece per row, give the
    rows back. *)
Lemma split_content (df : DataFrame) (label : string) :
  well_formed df ->
  map cells (rows df)
  = map (fun xy => restore (map (String.eqb label) (columns df)) (fst xy) (snd xy))
        (combine
           (map (fun r => cells_where (fun c => negb (String.eqb label c))
                                      (columns df) (cells r)) (rows df))
           (chunks (label_columns df label) (length (rows df))
                   (flat_map (fun r => cells_where (String.eqb label) (columns df) (cells r))
                             (rows df)))).
Proof.
  unfold well_formed, label_columns. intros Hwf.
  induction Hwf as [| r rs Hr _ IH]; [reflexivity |].
  cbn [map flat_map length chunks combine fst snd].
  pose proof (cells_where_length (String.eqb label) (columns df) (cells r) Hr) as L.
  destruct (firstn_skipn_app
              (cells_where (String.eqb label) (columns df) (cells r))
              (flat_map (fun r => cells_where (String.eqb label) (columns df) (cells r)) rs)
              _ L) as [-> ->].
  rewrite <- IH. f_equal. symmetry. apply restore_cells. exact Hr.
Qed.

(** X19. A successful split keeps one feature row per row of either frame;
    each feature row has lost the cells of the label columns and nothing
    else, and the label vectors hold exactly those cells, row after row:
    putting the labels of a row back under the label columns of its
    feature row gives the row of the frame. *)
Theorem train_test_split_shapes (df_train df_test : DataFrame) (label : string)
    (x_train x_test : list (list Z)) (y_train y_test : list Z) :
  well_formed df_train -> well_formed df_test ->
  _train_test_split df_train df_test label = Ok (x_train, x_test, y_train, y_test) ->
  (length x_train = length (rows df_train) /\
   Forall (fun x => length x + label_columns df_train label
                    = length (columns df_train)) x_train /\
   length y_train = length (rows df_train) * label_columns df_train label /\
   map cells (rows df_train)
   = map (fun xy => restore (map (String.eqb label) (columns df_train))
                            (fst xy) (snd xy))
         (combine x_train
                  (chunks (label_columns df_train label) (length (rows df_train))
                          y_train))) /\
  (length x_test = length (rows df_test) /\
   Forall (fun x => length x + label_columns df_test label
                    = length (columns df_test)) x_test /\
   length y_test = length (rows df_test) * label_columns df_test label /\
   map cells (rows df_test)
   = map (fun xy => restore (map (String.eqb label) (columns df_test))
                            (fst xy) (snd xy))
         (combine x_test
                  (chunks (label_columns df_test label) (length (rows df_test))
                          y_test))).
Proof.
  intros Hwf1 Hwf2 H. apply split_ok in H. destruct H as (Hx1 & Hy1 & Hx2 & Hy2).
  apply drop_values_ok in Hx1, Hx2. apply label_values_ok in Hy1, Hy2. subst.
  split.
  - destruct (split_shape df_train label Hwf1) as (H1 & H2 & H3).
    repeat split; try assumption. apply split_content. assumption.
  - destruct (split_shape df_test label Hwf2) as (H1 & H2 & H3).
    repeat split; try assumption. apply split_content. assumption.
Qed.

(** X20. When either frame has no column named [label] the split raises
    [KeyError]. *)
Theorem train_test_split_missing_label (df_train df_test : DataFrame) (label : string) :
  column_position label (columns df_train) = None \/
  column_position label (columns df_test) = None ->
  _train_test_split df_train df_test label = Raise KeyError.
Proof.
  intros H. unfold _train_test_split, drop_values, label_values.
  destruct (column_position label (columns df_train)) as [j |]; [| reflexivity].
  destruct H as [H | H]; [discriminate |]. rewrite H. reflexivity.
Qed.

(** X21. With exactly one label column nothing is lost in the split: the
    label vector has one entry per row, and every row of the training frame
    is its feature row with its label put back under the label column. *)
Theorem train_test_split_round_trip (df_train df_test : DataFrame) (label : string)
    (x_train x_test : list (list Z)) (y_train y_test : list Z) :
  well_formed df_train ->
  label_columns df_train label = 1 ->
  _train_test_split df_train df_test label = Ok (x_train, x_test, y_train, y_test) ->
  length y_train = length (rows df_train) /\
  map cells (rows df_train)
  = map (fun xy => restore (map (String.eqb label) (columns df_train)) (fst xy) [snd xy])
        (combine x_train y_train).
Proof.
  intros Hwf Hone H. apply split_ok in H. destruct H as (Hx1 & Hy1 & _ & _).
  apply drop_values_ok in Hx1. apply label_values_ok in Hy1. subst.
  unfold well_formed, label_columns in *.
  induction Hwf as [| r rs Hr _ [IH1 IH2]]; [split; reflexivity |].
  cbn [map flat_map].
  pose proof (cells_where_length (String.eqb label) (columns df_train) (cells r) Hr) as L.
  rewrite Hone in L.
  destruct (cells_where (String.eqb label) (columns df_train) (cells r))
    as [| y [| y' ys]] eqn:E; try discriminate.
  cbn [app length combine map fst snd]. split; [rewrite IH1; reflexivity |].
  rewrite <- IH2. f_equal. rewrite <- E. symmetry. apply restore_cells. exact Hr.
Qed.


(** ** An uncapped run need not end *)



(** ** Worked examples *)

(** *** C1 *)

Lemma balance_set_unbounded_converged_witness :
  exists pre d,
    [2%float; 1%float] = pre ++ [d] /\ PrimFloat.eqb d 1 = true /\
    (int_truediv (len (cell_frame d8 ["A"] "Y" ([0%Z], 0%Z))) (len d8) = Ok 0.125%float ->
     exists w_obs',
       int_truediv (len (mkDF ["A"; "Y"] [mkRow 0 [0; 0]; mkRow 0 [0; 0]]%Z)) (len d8)
         = Ok w_obs' /\
       compute_disp 0.25 w_obs' None = Ok d).
Proof.
  apply (balance_set_unbounded_converged 1 0.25 0.125
           (cell_frame d8 ["A"] "Y" ([0%Z], 0%Z)) d8 None false
           w0 (mkWorld (fun _ => 0) 1 [])
           (mkDF ["A"; "Y"] [mkRow 0 [0; 0]; mkRow 0 [0; 0]]%Z) [2%float; 1%float] 1).
  vm_compute. reflexivity.
Defined.

(** *** C2 *)

(** On [d10] the attribute is binary and no cell is empty, yet no group
    comes back: every cell is expected to hold 2.5 rows, the balancer goes
    up and down around it, and the run ends in [ZeroDivisionError] once a
    group has lost its last rows; with less fuel it has not ended yet. *)
Lemma fit_transform_partition_counterexample :
  all_cells_nonempty d10 ["A"] "Y" = true /\
  cardinality d10 "A" = 2 /\
  fit_transform reversed 5 (DEMV_init None false (-1)) d10 ["A"] "Y" w0
    = (Raise ZeroDivisionError, mkWorld (fun _ => 0) 5 []) /\
  forall fuel,
    is_ok (fst (fit_transform reversed fuel (DEMV_init None false (-1)) d10 ["A"] "Y" w0))
    = false.
Proof.
  assert (Hrun : fit_transform reversed 5 (DEMV_init None false (-1)) d10 ["A"] "Y" w0
                 = (Raise ZeroDivisionError, mkWorld (fun _ => 0) 5 []))
    by (vm_compute; reflexivity).
  split; [vm_compute; reflexivity |]. split; [vm_compute; reflexivity |].
  split; [exact Hrun |]. intros fuel.
  destruct (le_lt_dec 5 fuel) as [Hle | Hlt].
  - rewrite (fit_transform_more_fuel reversed 5 fuel (DEMV_init None false (-1))
               d10 ["A"] "Y" Hle w0); rewrite Hrun; [reflexivity | discriminate].
  - do 5 (destruct fuel as [| fuel]; [vm_compute; reflexivity |]). lia.
Qed.

Lemma fit_transform_partition_witness :
  exists res : list (DataFrame * nat),
    length res = 4 /\
    Permutation (flat_map (fun key => rows (cell_frame d8 ["A"] "Y" key))
                          (cell_keys d8 1 "Y"))
                (rows d8) /\
    Permutation (rows d8_balanced) (flat_map (fun gk => rows (fst gk)) res).
Proof.
  assert (Hperm : forall n, Permutation (reversed n) (seq 0 n))
    by (intros n; apply Permutation_sym, Permutation_rev).
  assert (Hrun : fit_transform reversed 5 (DEMV_init None false (-1)) d8 ["A"] "Y" w0
                 = (Ok (d8_balanced, mkDEMV None false (-1) 1 (Some [])),
                    mkWorld (fun _ => 0) 4 []))
    by (vm_compute; reflexivity).
  destruct (fit_transform_partition reversed 5 (DEMV_init None false (-1)) d8 ["A"] "Y"
              Hperm w0 (mkWorld (fun _ => 0) 4 []) d8_balanced
              (mkDEMV None false (-1) 1 (Some [])) Hrun)
    as (res & Hlen & _ & _ & _ & Hcells & Hrows).
  exists res. split; [exact Hlen | split; [exact Hcells | exact Hrows]].
Defined.

(** *** C3 *)

(** With no protected attribute every cell of [d8] has a row and the call
    with [stop = 0] raises; so does the call on [d6], whose attribute takes
    a third value, although its four cells of values 0/1 all have rows; and
    so does the call on [d0], which has no row and hence no cell. *)
Lemma fit_transform_stop_zero_counterexample :
  (all_cells_nonempty d8 [] "Y" = true /\
   fst (fit_transform reversed 0 (DEMV_init None false 0) d8 [] "Y" w0) = Raise KeyError) /\
  (all_cells_nonempty d6 ["A"] "Y" = true /\
   fst (fit_transform reversed 0 (DEMV_init None false 0) d6 ["A"] "Y" w0) = Raise ValueError) /\
  (all_cells_nonempty d0 ["A"] "Y" = true /\
   fst (fit_transform reversed 0 (DEMV_init None false 0) d0 ["A"] "Y" w0) = Raise IndexError).
Proof. vm_compute. repeat split. Qed.

Lemma fit_transform_stop_zero_witness :
  exists df_new,
    fit_transform reversed 0 (DEMV_init None false 0) d8 ["A"] "Y" w0
      = (Ok (df_new, mkDEMV None false 0 0 (Some [])), w0) /\
    Permutation (rows df_new) (rows d8).
Proof.
  apply (fit_transform_stop_zero reversed 0 (DEMV_init None false 0) d8 ["A"] "Y" w0).
  - intros n. apply Permutation_sym, Permutation_rev.
  - discriminate.
  - discriminate.
  - exists 1. reflexivity.
  - intros s [<- | []]. exists 0. reflexivity.
  - intros s r [<- | []] Hr. vm_compute in Hr.
    repeat (destruct Hr as [<- | Hr]; [vm_compute; auto |]). destruct Hr.
  - intros key Hkey. vm_compute in Hkey.
    repeat (destruct Hkey as [<- | Hkey];
            [unfold cell_disparity_defined; do 3 eexists; split; lazy; reflexivity |]).
    destruct Hkey.
  - reflexivity.
Defined.

(** *** C4 *)

(** C4. The cell (A=0, Y=0) of [d10] has the rows labelled 0 and 1. Its first
    iteration appends a copy of row 0, label included; its second samples
    row 0 again, drops the label 0 and with it two rows: the group goes
    from three rows to one. *)
Theorem balance_set_drop_removes_two_rows :
  spec_cell_weights d10 ["A"] [0%Z] "Y" 0
    = Ok (mkDF ["A"; "Y"] [mkRow 0 [0; 0]; mkRow 1 [0; 0]]%Z, 0.25%float, nearest_quotient 2 10) /\
  fst (balance_set 1 0.25 (nearest_quotient 2 10)
                   (mkDF ["A"; "Y"] [mkRow 0 [0; 0]; mkRow 1 [0; 0]]%Z) d10 None false 1 w0)
    = Ok (mkDF ["A"; "Y"] [mkRow 0 [0; 0]; mkRow 1 [0; 0]; mkRow 0 [0; 0]]%Z,
          [1.25%float; PrimFloat.div 0.25 (nearest_quotient 3 10)], 1) /\
  fst (resample 0.25 (nearest_quotient 3 10)
                (mkDF ["A"; "Y"] [mkRow 0 [0; 0]; mkRow 1 [0; 0]; mkRow 0 [0; 0]]%Z) w0)
    = Ok (mkDF ["A"; "Y"] [mkRow 1 [0; 0]]%Z) /\
  fst (balance_set 2 0.25 (nearest_quotient 2 10)
                   (mkDF ["A"; "Y"] [mkRow 0 [0; 0]; mkRow 1 [0; 0]]%Z) d10 None false 2 w0)
    = Ok (mkDF ["A"; "Y"] [mkRow 1 [0; 0]]%Z,
          [1.25%float; PrimFloat.div 0.25 (nearest_quotient 3 10); 2.5%float], 2).
Proof. vm_compute. repeat split. Qed.

(** *** C5 *)

Lemma balance_cell_weights_witness :
  balance_cell 1 d8 "Y" None false (path_cond d8 ["A"] [0%Z] PyTrue) (-1) ([], [], 0) 0 w0
  = ('(g, w_exp, w_obs) <- lift (spec_cell_weights d8 ["A"] [0%Z] "Y" 0) ;;
     '(g_new, disp, k) <- balance_set 1 w_exp w_obs g d8 None false (-1) ;;
     ret ([] ++ [disp], [] ++ [g_new], Nat.max 0 k)) w0.
Proof.
  exact (f_equal (fun m => m w0)
           (balance_cell_weights 1 d8 "A" [] 0 [] "Y" 1 None false (-1) [] [] 0 0 eq_refl)).
Defined.

(** *** C6 *)

Lemma fit_transform_disparities_empty_witness :
  fit_transform reversed 5 (DEMV_init None false (-1)) d8 ["A"] "Y" w0
    = (Ok (d8_balanced, mkDEMV None false (-1) 1 (Some [])), mkWorld (fun _ => 0) 4 [])
  /\ disparities (mkDEMV None false (-1) 1 (Some [])) = Some [].
Proof.
  assert (Hrun : fit_transform reversed 5 (DEMV_init None false (-1)) d8 ["A"] "Y" w0
                 = (Ok (d8_balanced, mkDEMV None false (-1) 1 (Some [])),
                    mkWorld (fun _ => 0) 4 []))
    by (vm_compute; reflexivity).
  split; [exact Hrun |].
  exact (fit_transform_disparities_empty reversed 5 (DEMV_init None false (-1))
           (mkDEMV None false (-1) 1 (Some [])) d8 d8_balanced ["A"] "Y"
           w0 (mkWorld (fun _ => 0) 4 []) Hrun).
Defined.

(** *** C7 *)

(** On [d6] nothing is rejected up front: under a cap of one iteration two
    rows are drawn for the balancing of the cells of values 0 and 1, and
    only then does the call fail, unpacking the pair [G, iter]. *)
Lemma fit_transform_cardinality_counterexample :
  cardinality d6 "A" = 3 /\
  fst (fit_transform reversed 1 (DEMV_init None false 1) d6 ["A"] "Y" w0) = Raise ValueError /\
  cursor (snd (fit_transform reversed 1 (DEMV_init None false 1) d6 ["A"] "Y" w0)) = 2.
Proof. vm_compute. repeat split. Qed.

Lemma fit_transform_cardinality_witness :
  is_ok (fst (fit_transform reversed 1 (DEMV_init None false 1) d6 ["A"] "Y" w0)) = false.
Proof.
  destruct (fst (fit_transform reversed 1 (DEMV_init None false 1) d6 ["A"] "Y" w0))
    as [x | e | ] eqn:E; try reflexivity.
  exfalso.
  apply (fit_transform_cardinality reversed 1 (DEMV_init None false 1) d6 ["A"] "Y" w0 "A"
           (or_introl eq_refl)) with (x := x).
  - vm_compute. lia.
  - exact E.
Defined.

(** *** C8 *)




(** *** C9 *)


(** The draws do matter: the seed of the final shuffle fixes the order of
    the rows, not which rows were copied. From a generator that draws
    position 1 instead of 0 the same call returns other rows. *)
Lemma fit_transform_draws_matter :
  match fst (fit_transform reversed 5 (DEMV_init None false (-1)) d8 ["A"] "Y" w0) with
  | Ok (df, _) => map index (rows df)
  | _ => []
  end = [6; 5; 3; 2; 0; 0; 7; 7]%Z /\
  match fst (fit_transform reversed 5 (DEMV_init None false (-1)) d8 ["A"] "Y" w_ones) with
  | Ok (df, _) => map index (rows df)
  | _ => []
  end = [6; 4; 3; 1; 0; 0; 7; 7]%Z.
Proof. vm_compute. split; reflexivity. Qed.

(** *** C10 *)

(** On [d8], which has rows, [sample] without attributes does not return
    the pair: it raises [KeyError] itself, from [d[cond]] with [cond = True]. *)
Lemma sample_no_attribute_counterexample :
  fst (sample reversed 0 d8 [] "Y" None false 0 [] PyTrue (-1) w0) = Raise KeyError.
Proof. vm_compute. reflexivity. Qed.

(** *** The balancer on the cell (A=0, Y=0) of [d10], capped at 2 *)

Lemma balance_set_trace_length_witness :
  length [1.25%float; PrimFloat.div 0.25 (nearest_quotient 3 10); 2.5%float] = 3.
Proof.
  apply (balance_set_trace_length 2 0.25 (nearest_quotient 2 10) g10 d10 None false 2
           w0 (mkWorld (fun _ => 0) 2 []) (mkDF ["A"; "Y"] [mkRow 1 [0; 0]]%Z)
           [1.25%float; PrimFloat.div 0.25 (nearest_quotient 3 10); 2.5%float] 2).
  vm_compute. reflexivity.
Defined.

Lemma balance_set_cap_witness :
  ((0 <= 2)%Z -> (Z.of_nat 2 <= 2)%Z) /\
  exists pre d,
    [1.25%float; PrimFloat.div 0.25 (nearest_quotient 3 10); 2.5%float] = pre ++ [d] /\
    (PrimFloat.eqb d 1 = true \/ Z.of_nat 2 = 2%Z).
Proof.
  apply (balance_set_cap 2 0.25 (nearest_quotient 2 10) g10 d10 None false 2
           w0 (mkWorld (fun _ => 0) 2 []) (mkDF ["A"; "Y"] [mkRow 1 [0; 0]]%Z)
           [1.25%float; PrimFloat.div 0.25 (nearest_quotient 3 10); 2.5%float] 2).
  vm_compute. reflexivity.
Defined.

Lemma balance_set_already_balanced_witness :
  balance_set 0 0.25 0.25 (cell_frame d4 ["A"] "Y" ([0%Z], 0%Z)) d4 None true (-1) w0
    = (Ok (cell_frame d4 ["A"] "Y" ([0%Z], 0%Z), [1%float], 0), w0).
Proof.
  apply (balance_set_already_balanced 0 0.25 0.25 1
           (cell_frame d4 ["A"] "Y" ([0%Z], 0%Z)) d4 None true (-1) w0).
  - vm_compute. reflexivity.
  - vm_compute. reflexivity.
Defined.

Lemma balance_set_rows_from_group_witness :
  incl (rows (mkDF ["A"; "Y"] [mkRow 1 [0; 0]]%Z)) (rows g10) /\
  columns (mkDF ["A"; "Y"] [mkRow 1 [0; 0]]%Z) = columns g10.
Proof.
  apply (balance_set_rows_from_group 2 0.25 (nearest_quotient 2 10) g10 d10 None false 2
           w0 (mkWorld (fun _ => 0) 2 []) (mkDF ["A"; "Y"] [mkRow 1 [0; 0]]%Z)
           [1.25%float; PrimFloat.div 0.25 (nearest_quotient 3 10); 2.5%float] 2).
  vm_compute. reflexivity.
Defined.

Lemma balance_set_size_witness :
  length (rows (mkDF ["A"; "Y"] [mkRow 1 [0; 0]]%Z)) <= length (rows g10) + 2 /\
  (int_truediv (len g10) (len d10) = Ok (nearest_quotient 2 10) ->
   rows (mkDF ["A"; "Y"] [mkRow 1 [0; 0]]%Z) <> []).
Proof.
  apply (balance_set_size 2 0.25 (nearest_quotient 2 10) g10 d10 None false 2
           w0 (mkWorld (fun _ => 0) 2 []) (mkDF ["A"; "Y"] [mkRow 1 [0; 0]]%Z)
           [1.25%float; PrimFloat.div 0.25 (nearest_quotient 3 10); 2.5%float] 2).
  vm_compute. reflexivity.
Defined.

(** The same run with [debug] set: two draws, two values printed. *)
Lemma balance_set_effects_witness :
  cursor w0 <= 2 <= cursor w0 + 2 /\
  exists out,
    [PrimFloat.div 0.25 (nearest_quotient 3 10); 2.5%float] = stdout w0 ++ out /\
    length out = 2.
Proof.
  apply (balance_set_effects 2 0.25 (nearest_quotient 2 10) g10 d10 None true 2
           w0 (mkWorld (fun _ => 0) 2
                       [PrimFloat.div 0.25 (nearest_quotient 3 10); 2.5%float])
           (mkDF ["A"; "Y"] [mkRow 1 [0; 0]]%Z)
           [1.25%float; PrimFloat.div 0.25 (nearest_quotient 3 10); 2.5%float] 2).
  vm_compute. reflexivity.
Defined.

(** *** One step up, one step down *)

Lemma resample_oversample_copy_witness :
  exists s,
    In s (rows g10) /\
    [mkRow 0 [0; 0]; mkRow 1 [0; 0]; mkRow 0 [0; 0]]%Z = rows g10 ++ [s] /\
    ["A"; "Y"] = columns g10.
Proof.
  apply (resample_oversample_copy 0.25 (nearest_quotient 2 10) 1.25 g10
           (mkDF ["A"; "Y"] [mkRow 0 [0; 0]; mkRow 1 [0; 0]; mkRow 0 [0; 0]]%Z)
           w0 (mkWorld (fun _ => 0) 1 [])).
  - vm_compute. reflexivity.
  - vm_compute. reflexivity.
  - vm_compute. reflexivity.
Defined.

Lemma resample_undersample_distinct_witness :
  S (length [mkRow 3 [0; 1]; mkRow 4 [0; 1]]%Z)
    = length (rows (cell_frame d10 ["A"] "Y" ([0%Z], 1%Z))) /\
  NoDup (map index [mkRow 3 [0; 1]; mkRow 4 [0; 1]]%Z) /\
  exists s,
    In s (rows (cell_frame d10 ["A"] "Y" ([0%Z], 1%Z))) /\
    [mkRow 3 [0; 1]; mkRow 4 [0; 1]]%Z
      = filter (fun r => negb (Z.eqb (index r) (index s)))
               (rows (cell_frame d10 ["A"] "Y" ([0%Z], 1%Z))).
Proof.
  apply (resample_undersample_distinct 0.25 (nearest_quotient 3 10)
           (PrimFloat.div 0.25 (nearest_quotient 3 10))
           (cell_frame d10 ["A"] "Y" ([0%Z], 1%Z))
           (mkDF ["A"; "Y"] [mkRow 3 [0; 1]; mkRow 4 [0; 1]]%Z)
           w0 (mkWorld (fun _ => 0) 1 [])).
  - vm_compute. repeat constructor; simpl; intuition discriminate.
  - vm_compute. reflexivity.
  - vm_compute. reflexivity.
  - vm_compute. reflexivity.
  - vm_compute. reflexivity.
Defined.

(** *** The balanced [d8] *)

Lemma fit_transform_rows_from_input_witness :
  incl (rows d8_balanced) (rows d8) /\ columns d8_balanced = columns d8.
Proof.
  apply (fit_transform_rows_from_input reversed 5 (DEMV_init None false (-1)) d8 ["A"] "Y"
           w0 (mkWorld (fun _ => 0) 4 []) d8_balanced (mkDEMV None false (-1) 1 (Some []))).
  vm_compute. reflexivity.
Defined.

Lemma fit_transform_iterations_witness :
  exists res,
    Forall2 (balanced_cell 3 d8 "Y" None false 3 ["A"]) (cell_keys d8 1 "Y") res /\
    Forall (fun gk => snd gk <= 1) res /\
    Exists (fun gk => snd gk = 1) res.
Proof.
  assert (Hrun : fit_transform reversed 3 (DEMV_init None false 3) d8 ["A"] "Y" w0
                 = (Ok (d8_balanced, mkDEMV None false 3 1 (Some [])),
                    mkWorld (fun _ => 0) 4 []))
    by (vm_compute; reflexivity).
  exact (proj2 (proj2 (fit_transform_iterations reversed 3 (DEMV_init None false 3)
                         d8 ["A"] "Y" w0 (mkWorld (fun _ => 0) 4 []) d8_balanced
                         (mkDEMV None false 3 1 (Some [])) Hrun))).
Defined.

Lemma fit_transform_size_witness :
  2 ^ 1 * length (labels_of d8 "Y") <= length (rows d8_balanced) /\
  length (rows d8_balanced) <= length (rows d8) + 2 ^ 1 * length (labels_of d8 "Y") * 1.
Proof.
  apply (fit_transform_size reversed 5 (DEMV_init None false (-1)) d8 ["A"] "Y"
           (fun n => Permutation_sym (Permutation_rev (seq 0 n)))
           w0 (mkWorld (fun _ => 0) 4 []) d8_balanced (mkDEMV None false (-1) 1 (Some []))).
  vm_compute. reflexivity.
Defined.

(** *** Calls that raise at once *)

Lemma fit_transform_missing_column_witness :
  fit_transform reversed 5 (DEMV_init None false (-1)) dY ["A"] "Y" w0
    = (Raise KeyError, w0).
Proof.
  apply (fit_transform_missing_column reversed 5 (DEMV_init None false (-1)) dY ["A"] "Y" w0).
  right. exists "A". split; [left; reflexivity | reflexivity].
Defined.

Lemma fit_transform_no_rows_witness :
  fit_transform reversed 5 (DEMV_init None false (-1)) d0 ["A"] "Y" w0
    = (Raise IndexError, w0).
Proof.
  apply (fit_transform_no_rows reversed 5 (DEMV_init None false (-1)) d0 ["A"] "Y" w0).
  - reflexivity.
  - discriminate.
  - split; [exists 1; reflexivity |].
    intros s [<- | []]. exists 0. reflexivity.
Defined.

Lemma fit_transform_silent_witness :
  silent (fit_transform reversed 5 (DEMV_init None false (-1)) d8 ["A"] "Y").
Proof.
  apply (fit_transform_silent reversed 5 (DEMV_init None false (-1)) d8 ["A"] "Y").
  reflexivity.
Defined.

(** *** [d4] is balanced as it is *)

Lemma fit_transform_already_balanced_witness :
  exists df_new,
    fit_transform reversed 0 (DEMV_init None true (-1)) d4 ["A"] "Y" w0
      = (Ok (df_new, mkDEMV None true (-1) 0 (Some [])), w0) /\
    Permutation (rows df_new) (rows d4).
Proof.
  apply (fit_transform_already_balanced reversed 0 (DEMV_init None true (-1)) d4 ["A"] "Y" w0).
  - intros n. apply Permutation_sym, Permutation_rev.
  - discriminate.
  - discriminate.
  - split; [exists 1; reflexivity |].
    intros s [<- | []]. exists 0. reflexivity.
  - intros s r [<- | []] Hr. vm_compute in Hr.
    repeat (destruct Hr as [<- | Hr]; [vm_compute; auto |]). destruct Hr.
  - intros key Hkey. vm_compute in Hkey.
    repeat (destruct Hkey as [<- | Hkey];
            [unfold cell_at_parity; do 3 eexists; split; [| split]; lazy; reflexivity |]).
    destruct Hkey.
Defined.

(** *** The base case, the cap and the object's state *)

Lemma sample_base_case_witness :
  exists res,
    Forall2 (balanced 5 d8 "Y" None false (-1))
            (map (pair (path_cond d8 ["A"] [0%Z] PyTrue)) (labels_of d8 "Y")) res /\
    Groups [mkDF ["A"; "Y"] [mkRow 0 [0; 0]; mkRow 0 [0; 0]]%Z;
            mkDF ["A"; "Y"] [mkRow 2 [0; 1]; mkRow 3 [0; 1]]%Z] 1
      = Groups ([] ++ map fst res) (list_max (map snd res)).
Proof.
  apply (sample_base_case reversed 5 d8 ["A"] "Y" None false []
           (path_cond d8 ["A"] [0%Z] PyTrue) (-1) w0 (mkWorld (fun _ => 0) 2 [])).
  vm_compute. reflexivity.
Defined.

Lemma fit_transform_capped_ends_witness :
  (exists x, fst (fit_transform reversed 3 (DEMV_init None false 3) d10 ["A"] "Y" w0) = Ok x) \/
  (exists e, fst (fit_transform reversed 3 (DEMV_init None false 3) d10 ["A"] "Y" w0) = Raise e).
Proof.
  apply (fit_transform_capped_ends reversed 3 (DEMV_init None false 3) d10 ["A"] "Y" w0).
  - simpl. lia.
  - simpl. lia.
Defined.

(** An object that has run before behaves as a new one. *)
Lemma fit_transform_forgets_state_witness :
  fit_transform reversed 5 (mkDEMV None false (-1) 1 (Some [])) d8 ["A"] "Y" w0
    = fit_transform reversed 5 (DEMV_init None false (-1)) d8 ["A"] "Y" w0.
Proof.
  apply (fit_transform_forgets_state reversed 5 (mkDEMV None false (-1) 1 (Some []))
           (DEMV_init None false (-1)) d8 ["A"] "Y" w0); reflexivity.
Defined.

(** *** [d8] and [d4] split into features and labels *)

Lemma train_test_split_shapes_witness :
  (length [[0]; [0]; [0]; [0]; [1]; [1]; [1]; [1]]%Z = length (rows d8) /\
   Forall (fun x => length x + label_columns d8 "Y" = length (columns d8))
          [[0]; [0]; [0]; [0]; [1]; [1]; [1]; [1]]%Z /\
   length [0; 1; 1; 1; 0; 0; 0; 1]%Z = length (rows d8) * label_columns d8 "Y" /\
   map cells (rows d8)
   = map (fun xy => restore (map (String.eqb "Y") (columns d8)) (fst xy) (snd xy))
         (combine [[0]; [0]; [0]; [0]; [1]; [1]; [1]; [1]]%Z
                  (chunks (label_columns d8 "Y") (length (rows d8))
                          [0; 1; 1; 1; 0; 0; 0; 1]%Z))) /\
  (length [[0]; [0]; [1]; [1]]%Z = length (rows d4) /\
   Forall (fun x => length x + label_columns d4 "Y" = length (columns d4))
          [[0]; [0]; [1]; [1]]%Z /\
   length [0; 1; 0; 1]%Z = length (rows d4) * label_columns d4 "Y" /\
   map cells (rows d4)
   = map (fun xy => restore (map (String.eqb "Y") (columns d4)) (fst xy) (snd xy))
         (combine [[0]; [0]; [1]; [1]]%Z
                  (chunks (label_columns d4 "Y") (length (rows d4)) [0; 1; 0; 1]%Z))).
Proof.
  apply (train_test_split_shapes d8 d4 "Y").
  - repeat constructor.
  - repeat constructor.
  - vm_compute. reflexivity.
Defined.

Lemma train_test_split_missing_label_witness :
  _train_test_split d8 dY "A" = Raise KeyError.
Proof.
  apply (train_test_split_missing_label d8 dY "A"). right. reflexivity.
Defined.

Lemma train_test_split_round_trip_witness :
  length [0; 1; 1; 1; 0; 0; 0; 1]%Z = length (rows d8) /\
  map cells (rows d8)
  = map (fun xy => restore (map (String.eqb "Y") (columns d8)) (fst xy) [snd xy])
        (combine [[0]; [0]; [0]; [0]; [1]; [1]; [1]; [1]]%Z [0; 1; 1; 1; 0; 0; 0; 1]%Z).
Proof.
  apply (train_test_split_round_trip d8 d4 "Y" _ [[0]; [0]; [1]; [1]]%Z _ [0; 1; 0; 1]%Z).
  - repeat constructor.
  - reflexivity.
  - vm_compute. reflexivity.
Defined.
